(** * New2Canada: the background visual-effects subsystem

    A shallow embedding of [static/background-effects.js]: the attribute
    resolver [parseData], the colour helper [hexToColor], the easing helper
    [lerp], the [turbulentDistortion] strategy, [CarLights.init] and the
    life cycle of a [HyperspeedApp] (constructor state, listeners, [tick],
    [update], [dispose]) and of [IridescenceEffect.resize].

    Conventions of the embedding.
    - A JavaScript number is a real number ([R]); the non-finite values that
      the code can produce from text or from a division by zero are explicit
      ([NaN], [Infinity]) in the type [number].  Arithmetic is exact: no
      rounding and no overflow are modelled.
    - A JavaScript string is a [string] of bytes, the UTF-8 text of the
      attribute as it stands in the page; every pattern the code searches
      for is ASCII, so byte-wise search agrees with search on code units.
    - DOM sizes ([clientWidth], [offsetWidth], [canvas.width]) are integers.
    - A method of an object runs in a state-and-exception monad over the
      object and the part of the page it touches; what it asks of the
      rendering libraries and of the DOM is recorded in a call log. *)

From Stdlib Require Import Reals Lra Lia ZArith QArith Qround List String Ascii Bool.
Import ListNotations.

#[local] Set Warnings "-register-all".

(* ================================================================= *)
(** * 0. The platform: numbers, strings, JSON *)
(* ================================================================= *)

Module JS.

Local Open Scope string_scope.
Local Open Scope Z_scope.

(** ** Numbers *)

Inductive number : Type :=
| NaN
| Infinity (negative : bool)
| Num (x : R).

(** A decimal literal as it is read off a text: sign, digits, power of ten. *)
Record decimal : Type := Decimal {
  dec_negative : bool;
  dec_mantissa : Z;
  dec_exponent : Z
}.

(** The mathematical value of a decimal literal. *)
Definition MV (d : decimal) : R :=
  ((if dec_negative d then -1 else 1) * IZR (dec_mantissa d)
   * powerRZ 10 (dec_exponent d))%R.

(** [x / y] on integers, as the [/] of JavaScript numbers. *)
Definition div (x y : Z) : number :=
  if y =? 0 then
    if x =? 0 then NaN else Infinity (x <? 0)
  else Num (IZR x / IZR y)%R.

Definition is_finite (n : number) : bool :=
  match n with Num _ => true | _ => false end.

(** ** Values *)

Inductive value : Type :=
| VNull
| VBool (b : bool)
| VNumber (n : number)
| VString (s : string)
| VArray (items : list value)
| VObject (fields : list (string * value)).

(** [typeof v === 'string'] *)
Definition is_string (v : value) : bool :=
  match v with VString _ => true | _ => false end.

(** [Array.isArray(v)] *)
Definition isArray (v : value) : bool :=
  match v with VArray _ => true | _ => false end.

(** ** Completions: a computation returns or throws *)

Inductive error : Type :=
| SyntaxError
| TypeError
| NotFoundError.

Inductive completion (A : Type) : Type :=
| Normal (a : A)
| Throw (e : error).
Arguments Normal {A} a.
Arguments Throw {A} e.

Definition cbind {A B} (c : completion A) (k : A -> completion B)
  : completion B :=
  match c with
  | Normal a => k a
  | Throw e => Throw e
  end.

(** [try { body } catch { handler }] *)
Definition try_catch {A} (body handler : completion A) : completion A :=
  match body with
  | Normal a => Normal a
  | Throw _ => handler
  end.

(** ** Strings *)

Definition code (c : ascii) : Z := Z.of_N (N_of_ascii c).
Definition chr (z : Z) : ascii := ascii_of_N (Z.to_N z).

(** [s.startsWith(p)] *)
Definition startsWith (s p : string) : bool := String.prefix p s.

(** [s.includes(p)] *)
Fixpoint includes (s p : string) : bool :=
  String.prefix p s ||
  match s with
  | EmptyString => false
  | String _ rest => includes rest p
  end.

(** [s.slice(n)], for [0 <= n] *)
Fixpoint slice (s : string) (n : nat) : string :=
  match n, s with
  | O, _ => s
  | S n', String _ rest => slice rest n'
  | S _, EmptyString => EmptyString
  end.

(** [s.toLowerCase()] on the ASCII letters; the other bytes are kept.  The
    source only compares the result with ['true'], and no character outside
    ASCII lower-cases to one of its letters. *)
Definition lower (c : ascii) : ascii :=
  let n := code c in
  if (65 <=? n) && (n <=? 90) then chr (n + 32) else c.

Fixpoint toLowerCase (s : string) : string :=
  match s with
  | EmptyString => EmptyString
  | String c rest => String (lower c) (toLowerCase rest)
  end.

(** [a || b] on a string [a]: the empty string is falsy. *)
Definition string_or (a : string) (b : value) : value :=
  match a with
  | EmptyString => b
  | _ => VString a
  end.

(** ** Reading digits *)

Definition digit_of (c : ascii) : option Z :=
  let n := code c in
  if (48 <=? n) && (n <=? 57) then Some (n - 48) else None.

Definition hex_digit_of (c : ascii) : option Z :=
  let n := code c in
  if (48 <=? n) && (n <=? 57) then Some (n - 48)
  else if (97 <=? n) && (n <=? 102) then Some (n - 87)
  else if (65 <=? n) && (n <=? 70) then Some (n - 55)
  else None.

(** The longest run of digits at the head of a text, and what follows it. *)
Fixpoint span_digits (digit : ascii -> option Z) (s : string)
  : list Z * string :=
  match s with
  | EmptyString => ([], s)
  | String c rest =>
      match digit c with
      | Some d => let (ds, r) := span_digits digit rest in (d :: ds, r)
      | None => ([], s)
      end
  end.

Definition digits_value (radix : Z) (ds : list Z) : Z :=
  fold_left (fun acc d => radix * acc + d) ds 0.

(** An optional sign at the head of a text. *)
Definition read_sign (s : string) : bool * string :=
  match s with
  | String "-" rest => (true, rest)
  | String "+" rest => (false, rest)
  | _ => (false, s)
  end.

(** The exponent part [e][+-]digits at the head of a text, when it is
    complete; [None] when the text does not start with one. *)
Definition read_exponent (s : string) : option (Z * string) :=
  match s with
  | String c rest =>
      if (code c =? 101) || (code c =? 69) then
        let (neg, r1) := read_sign rest in
        match span_digits digit_of r1 with
        | ([], _) => None
        | (ds, r2) =>
            let e := digits_value 10 ds in
            Some (if neg then - e else e, r2)
        end
      else None
  | EmptyString => None
  end.

(** ** White space *)

(** The one-byte white space and line terminators of ECMAScript. *)
Definition is_space (c : ascii) : bool :=
  let n := code c in
  ((9 <=? n) && (n <=? 13)) || (n =? 32).

(** The three-byte ones, by their UTF-8 bytes: U+1680, U+2000..U+200A,
    U+2028, U+2029, U+202F, U+205F, U+3000, U+FEFF. *)
Definition is_space3 (a b c : Z) : bool :=
  ((a =? 225) && (b =? 154) && (c =? 128))
  || ((a =? 226) && (b =? 128)
      && (((128 <=? c) && (c <=? 138)) || (c =? 168) || (c =? 169)
          || (c =? 175)))
  || ((a =? 226) && (b =? 129) && (c =? 159))
  || ((a =? 227) && (b =? 128) && (c =? 128))
  || ((a =? 239) && (b =? 187) && (c =? 191)).

(** Leading white space removed (the first step of [parseFloat] and
    [parseInt]); U+00A0 is the two bytes 194 160. *)
Fixpoint trimStart (s : string) : string :=
  match s with
  | EmptyString => s
  | String c1 r1 =>
      if is_space c1 then trimStart r1
      else
        match r1 with
        | EmptyString => s
        | String c2 r2 =>
            if (code c1 =? 194) && (code c2 =? 160) then trimStart r2
            else
              match r2 with
              | EmptyString => s
              | String c3 r3 =>
                  if is_space3 (code c1) (code c2) (code c3)
                  then trimStart r3 else s
              end
        end
  end.

(** ** parseFloat and parseInt *)

(** [parseFloat(s)]: the longest prefix of the trimmed text that is a
    decimal literal, [NaN] when there is none. *)
Definition parseFloat (s : string) : number :=
  let (neg, t) := read_sign (trimStart s) in
  if startsWith t "Infinity" then Infinity neg
  else
    let (ip, t2) := span_digits digit_of t in
    let (fp, t3) :=
      match t2 with
      | String "." r => span_digits digit_of r
      | _ => ([], t2)
      end in
    match ip, fp with
    | [], [] => NaN
    | _, _ =>
        let e := match read_exponent t3 with
                 | Some (e, _) => e
                 | None => 0
                 end in
        Num (MV (Decimal neg (digits_value 10 (ip ++ fp))
                         (e - Z.of_nat (List.length fp))))
    end.

(** [parseInt(s, 16)] *)
Definition parseInt16 (s : string) : number :=
  let (neg, t) := read_sign (trimStart s) in
  let t := if startsWith t "0x" || startsWith t "0X" then slice t 2
           else t in
  match span_digits hex_digit_of t with
  | ([], _) => NaN
  | (ds, _) =>
      let v := digits_value 16 ds in
      Num (IZR (if neg then - v else v))
  end.

(** ** JSON.parse *)

Definition json_space (c : ascii) : bool :=
  let n := code c in
  (n =? 9) || (n =? 10) || (n =? 13) || (n =? 32).

Fixpoint skip_ws (s : string) : string :=
  match s with
  | String c rest => if json_space c then skip_ws rest else s
  | EmptyString => s
  end.

(** A JSON number at the head of a text. *)
Definition json_number (s : string) : option (value * string) :=
  let (neg, t) := match s with
                  | String "-" r => (true, r)
                  | _ => (false, s)
                  end in
  match span_digits digit_of t with
  | ([], _) => None
  | (0 :: _ :: _, _) => None
  | (ip, t2) =>
      let frac :=
        match t2 with
        | String "." r =>
            match span_digits digit_of r with
            | ([], _) => None
            | (fp, t3) => Some (fp, t3)
            end
        | _ => Some ([], t2)
        end in
      match frac with
      | None => None
      | Some (fp, t3) =>
          let expo :=
            match t3 with
            | String c _ =>
                if (code c =? 101) || (code c =? 69)
                then read_exponent t3 else Some (0, t3)
            | EmptyString => Some (0, t3)
            end in
          match expo with
          | None => None
          | Some (e, t4) =>
              Some (VNumber
                      (Num (MV (Decimal neg (digits_value 10 (ip ++ fp))
                                        (e - Z.of_nat (List.length fp))))),
                    t4)
          end
      end
  end.

(** The UTF-8 bytes of a code point. *)
Definition utf8 (n : Z) : string :=
  if n <? 128 then String (chr n) ""
  else if n <? 2048 then
    String (chr (192 + n / 64)) (String (chr (128 + n mod 64)) "")
  else if n <? 65536 then
    String (chr (224 + n / 4096))
      (String (chr (128 + (n / 64) mod 64))
         (String (chr (128 + n mod 64)) ""))
  else
    String (chr (240 + n / 262144))
      (String (chr (128 + (n / 4096) mod 64))
         (String (chr (128 + (n / 64) mod 64))
            (String (chr (128 + n mod 64)) ""))).

Definition hex4 (a b c d : ascii) : option Z :=
  match hex_digit_of a, hex_digit_of b, hex_digit_of c, hex_digit_of d with
  | Some x, Some y, Some z, Some w => Some (digits_value 16 [x; y; z; w])
  | _, _, _, _ => None
  end.

(** The escapes of one character after a backslash. *)
Definition simple_escape (c : ascii) : option ascii :=
  let n := code c in
  if (n =? 34) || (n =? 92) || (n =? 47) then Some c
  else if n =? 98 then Some (chr 8)
  else if n =? 102 then Some (chr 12)
  else if n =? 110 then Some (chr 10)
  else if n =? 114 then Some (chr 13)
  else if n =? 116 then Some (chr 9)
  else None.

Definition prepend (p : string) (r : option (string * string))
  : option (string * string) :=
  match r with
  | Some (s, rest) => Some (p ++ s, rest)
  | None => None
  end.

(** The characters of a JSON string after its opening quote, up to and
    with the closing quote.  A pair of surrogate escapes is one code point. *)
Fixpoint json_chars (s : string) : option (string * string) :=
  match s with
  | EmptyString => None
  | String c rest =>
      if code c =? 34 then Some ("", rest)
      else if code c <? 32 then None
      else if code c =? 92 then
        match rest with
        | EmptyString => None
        | String e r =>
            match simple_escape e with
            | Some ch => prepend (String ch "") (json_chars r)
            | None =>
                if code e =? 117 then
                  match r with
                  | String h1 (String h2 (String h3 (String h4 r4))) =>
                      match hex4 h1 h2 h3 h4 with
                      | None => None
                      | Some hi =>
                          match r4 with
                          | String b (String u
                              (String l1 (String l2 (String l3
                                 (String l4 r10))))) =>
                              match hex4 l1 l2 l3 l4 with
                              | Some lo =>
                                  if (code b =? 92) && (code u =? 117)
                                     && (55296 <=? hi) && (hi <=? 56319)
                                     && (56320 <=? lo) && (lo <=? 57343)
                                  then
                                    prepend
                                      (utf8 (65536 + (hi - 55296) * 1024
                                             + (lo - 56320)))
                                      (json_chars r10)
                                  else prepend (utf8 hi) (json_chars r4)
                              | None => prepend (utf8 hi) (json_chars r4)
                              end
                          | _ => prepend (utf8 hi) (json_chars r4)
                          end
                      end
                  | _ => None
                  end
                else None
            end
        end
      else prepend (String c "") (json_chars rest)
  end.

(** A property of an object set: a later duplicate replaces the value. *)
Fixpoint set_field (k : string) (v : value) (fs : list (string * value))
  : list (string * value) :=
  match fs with
  | [] => [(k, v)]
  | (k', v') :: rest =>
      if String.eqb k k' then (k, v) :: rest
      else (k', v') :: set_field k v rest
  end.

(** A JSON value at the head of a text.  [fuel] bounds the number of nested
    calls; a text of [n] bytes needs less than [2 * n + 2]. *)
Fixpoint json_value (fuel : nat) (s : string) : option (value * string) :=
  match fuel with
  | O => None
  | S fuel' =>
      let t := skip_ws s in
      match t with
      | EmptyString => None
      | String c rest =>
          if code c =? 123 then
            match skip_ws rest with
            | String c' rest' =>
                if code c' =? 125 then Some (VObject [], rest')
                else json_members fuel' (skip_ws rest) []
            | EmptyString => None
            end
          else if code c =? 91 then
            match skip_ws rest with
            | String c' rest' =>
                if code c' =? 93 then Some (VArray [], rest')
                else json_elements fuel' rest []
            | EmptyString => None
            end
          else if code c =? 34 then
            match json_chars rest with
            | Some (str, r) => Some (VString str, r)
            | None => None
            end
          else if startsWith t "true" then Some (VBool true, slice t 4)
          else if startsWith t "false" then Some (VBool false, slice t 5)
          else if startsWith t "null" then Some (VNull, slice t 4)
          else json_number t
      end
  end

with json_elements (fuel : nat) (s : string) (acc : list value)
  : option (value * string) :=
  match fuel with
  | O => None
  | S fuel' =>
      match json_value fuel' s with
      | None => None
      | Some (v, r) =>
          match skip_ws r with
          | String c rest =>
              if code c =? 44 then json_elements fuel' rest (acc ++ [v])
              else if code c =? 93 then Some (VArray (acc ++ [v]), rest)
              else None
          | EmptyString => None
          end
      end
  end

with json_members (fuel : nat) (s : string) (acc : list (string * value))
  : option (value * string) :=
  match fuel with
  | O => None
  | S fuel' =>
      match s with
      | String q r0 =>
          if code q =? 34 then
            match json_chars r0 with
            | None => None
            | Some (k, r1) =>
                match skip_ws r1 with
                | String c r2 =>
                    if code c =? 58 then
                      match json_value fuel' r2 with
                      | None => None
                      | Some (v, r3) =>
                          match skip_ws r3 with
                          | String c' r4 =>
                              if code c' =? 44 then
                                json_members fuel' (skip_ws r4)
                                             (set_field k v acc)
                              else if code c' =? 125 then
                                Some (VObject (set_field k v acc), r4)
                              else None
                          | EmptyString => None
                          end
                      end
                    else None
                | EmptyString => None
                end
            end
          else None
      | EmptyString => None
      end
  end.

(** [JSON.parse(s)]: the value of the text, or a [SyntaxError]. *)
Definition JSON_parse (s : string) : completion value :=
  match json_value (2 * String.length s + 2) s with
  | Some (v, rest) =>
      match skip_ws rest with
      | EmptyString => Normal v
      | _ => Throw SyntaxError
      end
  | None => Throw SyntaxError
  end.

(** ** Math *)

Definition log2 (x : R) : R := (ln x / ln 2)%R.

(** [Math.floor] on a finite number. *)
Definition floor (x : R) : Z := Zfloor x.

End JS.

Import JS.

(* ================================================================= *)
(** * 1. Global helper functions *)
(* ================================================================= *)

(** A host element, as far as the resolver reads it: its attributes. *)
Definition element : Type := list (string * string).

(** [element.getAttribute(key)]; [None] is [null]. *)
Fixpoint getAttribute (el : element) (key : string) : option string :=
  match el with
  | [] => None
  | (k, v) :: rest => if String.eqb k key then Some v else getAttribute rest key
  end.

(** The three tests on the attribute name, in the order of the source. *)
Definition numeric_key (key : string) : bool :=
  includes key "speed" || includes key "amplitude" || includes key "length"
  || includes key "road-width" || includes key "width"
  || includes key "lines" || includes key "fov".

Definition color_key (key : string) : bool :=
  includes key "color" || includes key "cars" || includes key "lines"
  || includes key "sticks".

Definition boolean_key (key : string) : bool :=
  includes key "mouse-react".

Definition parseData (el : element) (key : string) (defaultValue : value)
  : completion value :=
  match getAttribute el key with
  | None => Normal defaultValue
  | Some value =>
      try_catch
        (if numeric_key key then Normal (VNumber (parseFloat value))
         else if color_key key then
           if startsWith value "[" || startsWith value "{"
           then JSON_parse value
           else Normal (VString value)
         else if boolean_key key then
           Normal (VBool (String.eqb (toLowerCase value) "true"))
         else JSON_parse value)
        (Normal (string_or value defaultValue))
  end.

(** [lerp(current, target, speed = 0.1, limit = 0.001)] *)
Definition lerp (current target speed limit : R) : R :=
  let change := ((target - current) * speed)%R in
  if Rlt_dec (Rabs change) limit then (target - current)%R else change.

Definition lerp_default_limit : R := 0.001%R.

(* ================================================================= *)
(** * 2. Colours *)
(* ================================================================= *)

(** A [THREE.Color].  The components of a colour set from a number are
    explicit; a colour set from a CSS style text is kept as that text (the
    parsing of styles is three.js's own). *)
Inductive Color : Type :=
| RGB (r g b : R)
| Style (s : string).

(** Modelled from the spec: the colour class of three.js, which is not part
    of this repository.  [setHex(hex)] takes the three bytes of
    [Math.floor(hex)]; the shifts and masks of a value that is not finite
    read 0.  (The transfer to the working colour space that recent versions
    apply afterwards is not modelled.) *)
Definition setHex (hex : number) : Color :=
  match hex with
  | Num x =>
      let h := floor x in
      RGB (IZR (Z.land (Z.shiftr h 16) 255) / 255)
          (IZR (Z.land (Z.shiftr h 8) 255) / 255)
          (IZR (Z.land h 255) / 255)
  | _ => RGB 0 0 0
  end.

(** Modelled from the spec: [new THREE.Color(v)] with one argument, of
    three.js, which is not part of this repository.  The spec has colours
    normalised to one representation from three forms of input: a number
    (what [hexToColor] makes of a hex text) goes to [setHex], a text that
    [hexToColor] has not read as hex is a style, and a component triplet
    gives the colour of its three components.  Of any other value the spec
    says nothing; the colour is then left white, as the constructor starts
    it. *)
Definition THREE_Color (v : value) : Color :=
  match v with
  | VNumber n => setHex n
  | VString s => Style s
  | VArray [VNumber (Num r); VNumber (Num g); VNumber (Num b)] => RGB r g b
  | _ => RGB 1 1 1
  end.



Definition hexToColor (hex : value) : Color :=
  let hex :=
    match hex with
    | VString s =>
        if startsWith s "0x" then VNumber (parseInt16 (slice s 2))
        else if startsWith s "#" then VNumber (parseInt16 (slice s 1))
        else hex
    | _ => hex
    end in
  THREE_Color hex.

(* ================================================================= *)
(** * 3. Hyperspeed: options, distortion, car lights *)
(* ================================================================= *)

Record Vector2 : Type := vec2 { v2x : R; v2y : R }.
Record Vector3 : Type := vec3 { v3x : R; v3y : R; v3z : R }.
Record Vector4 : Type := vec4 { v4x : R; v4y : R; v4z : R; v4w : R }.

(** The argument of [random(base)]: a pair [[lo, hi]] or a single number. *)
Inductive base : Type :=
| Between (lo hi : R)
| UpTo (x : R).

Module Opt.

Record colors : Type := {
  roadColor : value;
  islandColor : value;
  background : value;
  shoulderLines : value;
  brokenLines : value;
  leftCars : value;
  rightCars : value;
  sticks : value
}.

Record t : Type := {
  length : R;
  roadWidth : R;
  islandWidth : R;
  lanesPerRoad : Z;
  fov : R;
  fovSpeedUp : R;
  speedUp : R;
  carLightsFade : R;
  totalSideLightSticks : nat;
  lightPairsPerRoadWay : nat;
  movingAwaySpeed : base;
  movingCloserSpeed : base;
  carLightsLength : base;
  carLightsRadius : base;
  carWidthPercentage : base;
  carShiftX : base;
  carFloorSeparation : base;
  colours : colors
}.

End Opt.

Local Open Scope R_scope.
Local Open Scope string_scope.

Definition defaultHyperspeedOptions : Opt.t := {|
  Opt.length := 400;
  Opt.roadWidth := 10;
  Opt.islandWidth := 2;
  Opt.lanesPerRoad := 4;
  Opt.fov := 90;
  Opt.fovSpeedUp := 150;
  Opt.speedUp := 2;
  Opt.carLightsFade := 0.4;
  Opt.totalSideLightSticks := 20;
  Opt.lightPairsPerRoadWay := 40;
  Opt.movingAwaySpeed := Between 60 80;
  Opt.movingCloserSpeed := Between (-120) (-160);
  Opt.carLightsLength := Between (400 * 0.03) (400 * 0.2);
  Opt.carLightsRadius := Between 0.05 0.14;
  Opt.carWidthPercentage := Between 0.3 0.5;
  Opt.carShiftX := Between (-0.8) 0.8;
  Opt.carFloorSeparation := Between 0 5;
  Opt.colours := {|
    Opt.roadColor := VString "0x080808";
    Opt.islandColor := VString "0x0a0a0a";
    Opt.background := VString "0x000000";
    Opt.shoulderLines := VString "0xFFFFFF";
    Opt.brokenLines := VString "0xFFFFFF";
    Opt.leftCars :=
      VArray [VString "0xD856BF"; VString "0x6750A2"; VString "0xC247AC"];
    Opt.rightCars :=
      VArray [VString "0x03B3C3"; VString "0x0E5EA5"; VString "0x324555"];
    Opt.sticks := VString "0x03B3C3"
  |}
|}.

(** ** The turbulent distortion *)

Definition nsin (val : R) : R := sin val * 0.5 + 0.5.

Definition turbulent_uFreq : Vector4 := vec4 4 8 8 1.
Definition turbulent_uAmp : Vector4 := vec4 25 5 10 10.

(** The vertex-stage text [getDistortion] of [turbulentDistortion], read as
    the functions it defines; [.r .g .b .a] are the four components. *)
Module GLSL.

Definition PI : R := 3.14159265358979.

Definition getDistortionX (uFreq uAmp : Vector4) (uTime progress : R) : R :=
  cos (PI * progress * v4x uFreq + uTime) * v4x uAmp
  + (cos (PI * progress * v4y uFreq + uTime * (v4y uFreq / v4x uFreq))) ^ 2
    * v4y uAmp.

Definition getDistortionY (uFreq uAmp : Vector4) (uTime progress : R) : R :=
  - nsin (PI * progress * v4z uFreq + uTime) * v4z uAmp
  + - (nsin (PI * progress * v4w uFreq + uTime / (v4z uFreq / v4w uFreq))) ^ 5
      * v4w uAmp.

Definition getDistortion (uFreq uAmp : Vector4) (uTime progress : R)
  : Vector3 :=
  vec3 (getDistortionX uFreq uAmp uTime progress
        - getDistortionX uFreq uAmp uTime 0.0125)
       (getDistortionY uFreq uAmp uTime progress
        - getDistortionY uFreq uAmp uTime 0.0125)
       0.

End GLSL.

(** The host-side evaluator [getJS] and its two local functions. *)
Definition getX (time p : R) : R :=
  let uFreq := turbulent_uFreq in
  let uAmp := turbulent_uAmp in
  cos (Rtrigo1.PI * p * v4x uFreq + time) * v4x uAmp
  + (cos (Rtrigo1.PI * p * v4y uFreq + time * (v4y uFreq / v4x uFreq))) ^ 2
    * v4y uAmp.

Definition getY (time p : R) : R :=
  let uFreq := turbulent_uFreq in
  let uAmp := turbulent_uAmp in
  - nsin (Rtrigo1.PI * p * v4z uFreq + time) * v4z uAmp
  - (nsin (Rtrigo1.PI * p * v4w uFreq + time / (v4z uFreq / v4w uFreq))) ^ 5
    * v4w uAmp.

Definition multiply (a b : Vector3) : Vector3 :=
  vec3 (v3x a * v3x b) (v3y a * v3y b) (v3z a * v3z b).

Definition add (a b : Vector3) : Vector3 :=
  vec3 (v3x a + v3x b) (v3y a + v3y b) (v3z a + v3z b).

Definition getJS (progress time : R) : Vector3 :=
  let distortion :=
    vec3 (getX time progress - getX time (progress + 0.007))
         (getY time progress - getY time (progress + 0.007))
         0 in
  let lookAtAmp := vec3 (-2) (-5) 0 in
  let lookAtOffset := vec3 0 0 (-10) in
  add (multiply distortion lookAtAmp) lookAtOffset.

(** The GPU-side strategy as the shaders use it, with the uniforms of
    [turbulentUniforms]. *)
Definition getDistortion (uTime progress : R) : Vector3 :=
  GLSL.getDistortion turbulent_uFreq turbulent_uAmp uTime progress.

(** The per-axis formulas that the two sides share, with the constants of
    [turbulentUniforms] written out and the value used for pi left open. *)
Definition turbulentX (pi time p : R) : R :=
  cos (pi * p * 4 + time) * 25 + (cos (pi * p * 8 + time * (8 / 4))) ^ 2 * 5.

Definition turbulentY (pi time p : R) : R :=
  - (nsin (pi * p * 8 + time) * 10) - (nsin (pi * p * 1 + time / (8 / 1))) ^ 5 * 10.

(** ** State and exceptions *)

(** A computation over a state [S] that returns or throws; the state it
    leaves behind is kept in both cases, as the assignments made before a
    JavaScript exception are. *)
Definition M (S A : Type) : Type := S -> completion A * S.

Definition ret {S A} (a : A) : M S A := fun s => (Normal a, s).

Definition bind {S A B} (m : M S A) (k : A -> M S B) : M S B :=
  fun s =>
    match m s with
    | (Normal a, s') => k a s'
    | (Throw e, s') => (Throw e, s')
    end.

Definition throw {S A} (e : error) : M S A := fun s => (Throw e, s).

Definition get {S} : M S S := fun s => (Normal s, s).

Definition modify {S} (f : S -> S) : M S unit := fun s => (Normal tt, f s).

(** [try { body } catch { handler }] *)
Definition try_ {S A} (body handler : M S A) : M S A :=
  fun s =>
    match body s with
    | (Normal a, s') => (Normal a, s')
    | (Throw _, s') => handler s'
    end.

Definition when {S} (b : bool) (m : M S unit) : M S unit :=
  if b then m else ret tt.

Declare Scope js_scope.
Delimit Scope js_scope with js.
Notation "x <- m ;; k" := (bind m (fun x => k))
  (at level 61, m at next level, right associativity) : js_scope.
Notation "m ;; k" := (bind m (fun _ => k))
  (at level 61, right associativity) : js_scope.
Local Open Scope js_scope.

(** ** Car lights *)

(** The successive results of [Math.random()]. *)
Definition rng : Type := nat -> R.

Definition Math_random : M rng R :=
  fun g => (Normal (g O), fun n => g (S n)).

(** What [random(base)] returns when [Math.random()] gives [u]. *)
Definition random_of (b : base) (u : R) : R :=
  match b with
  | Between lo hi => u * (hi - lo) + lo
  | UpTo x => u * x
  end.

Definition random (b : base) : M rng R :=
  u <- Math_random ;;
  ret (random_of b u).

(** [pickRandom(arr)] on an array; [None] is [undefined], the element of an
    index that the array does not have. *)
Definition pickRandom (arr : list Color) : M rng (option Color) :=
  u <- Math_random ;;
  let i := floor (u * INR (List.length arr)) in
  ret (if (i <? 0)%Z then None else nth_error arr (Z.to_nat i)).

Record CarLights : Type := {
  cl_options : Opt.t;
  cl_colors : value;
  cl_speed : base;
  cl_fade : Vector2
}.

(** The instanced geometry and the uniforms of the material that
    [CarLights.init] builds.  An entry of [aColor] stands for the three
    floats [color.r, color.g, color.b] pushed for one instance. *)
Record CarLightsMesh : Type := {
  instanceCount : nat;
  aOffset : list R;
  aMetrics : list R;
  aColor : list Color;
  uTime : R;
  uTravelLength : R;
  uFade : Vector2
}.

Record buffers : Type := {
  b_aOffset : list R;
  b_aMetrics : list R;
  b_aColor : list Color
}.

(** The x position of the centre of lane [i % lanesPerRoad], before the
    random shift. *)
Definition laneCentre (options : Opt.t) (i : nat) : R :=
  let laneWidth := Opt.roadWidth options / IZR (Opt.lanesPerRoad options) in
  let carLane := Z.rem (Z.of_nat i) (Opt.lanesPerRoad options) in
  IZR carLane * laneWidth - Opt.roadWidth options / 2 + laneWidth / 2.

(** One turn of the loop of [init]. *)
Definition init_pair (this : CarLights) (colors : list Color) (i : nat)
    (acc : buffers) : M rng buffers :=
  let options := cl_options this in
  let laneWidth := Opt.roadWidth options / IZR (Opt.lanesPerRoad options) in
  radius <- random (Opt.carLightsRadius options) ;;
  length <- random (Opt.carLightsLength options) ;;
  speed <- random (cl_speed this) ;;
  let laneX := laneCentre options i in
  w <- random (Opt.carWidthPercentage options) ;;
  let carWidth := w * laneWidth in
  sh <- random (Opt.carShiftX options) ;;
  let carShiftX := sh * laneWidth in
  let laneX := laneX + carShiftX in
  sep <- random (Opt.carFloorSeparation options) ;;
  let offsetY := sep + radius * 1.3 in
  z <- random (UpTo (Opt.length options)) ;;
  let offsetZ := - z in
  picked <- pickRandom colors ;;
  match picked with
  | None => throw TypeError
  | Some color =>
      ret {| b_aOffset :=
               b_aOffset acc
               ++ [laneX - carWidth / 2; offsetY; offsetZ;
                   laneX + carWidth / 2; offsetY; offsetZ];
             b_aMetrics :=
               b_aMetrics acc
               ++ [radius; length; speed; radius; length; speed];
             b_aColor := b_aColor acc ++ [color; color] |}
  end.

(** [for (let i = 0; i < options.lightPairsPerRoadWay; i++)], with [n]
    turns left. *)
Fixpoint init_loop (this : CarLights) (colors : list Color) (n i : nat)
    (acc : buffers) : M rng buffers :=
  match n with
  | O => ret acc
  | S n' =>
      acc' <- init_pair this colors i acc ;;
      init_loop this colors n' (S i) acc'
  end.

(** [Array.isArray(colors) ? colors.map(hexToColor) : [hexToColor(colors)]] *)
Definition palette (colors : value) : list Color :=
  match colors with
  | VArray items => map hexToColor items
  | c => [hexToColor c]
  end.

Definition CarLights_init (this : CarLights) : M rng CarLightsMesh :=
  let options := cl_options this in
  let colors := palette (cl_colors this) in
  bufs <- init_loop this colors (Opt.lightPairsPerRoadWay options) O
            {| b_aOffset := []; b_aMetrics := []; b_aColor := [] |} ;;
  ret {| instanceCount := Opt.lightPairsPerRoadWay options * 2;
         aOffset := b_aOffset bufs;
         aMetrics := b_aMetrics bufs;
         aColor := b_aColor bufs;
         uTime := 0;
         uTravelLength := Opt.length options;
         uFade := cl_fade this |}.

(** The two sets of car lights, as the constructor of [HyperspeedApp]
    makes them. *)
Definition leftCarLights (options : Opt.t) : CarLights :=
  {| cl_options := options;
     cl_colors := Opt.leftCars (Opt.colours options);
     cl_speed := Opt.movingAwaySpeed options;
     cl_fade := vec2 0 (1 - Opt.carLightsFade options) |}.

Definition rightCarLights (options : Opt.t) : CarLights :=
  {| cl_options := options;
     cl_colors := Opt.rightCars (Opt.colours options);
     cl_speed := Opt.movingCloserSpeed options;
     cl_fade := vec2 1 (0 + Opt.carLightsFade options) |}.

(** The x coordinate of instance [j]: [aOffset] holds three floats for each
    instance. *)
Definition instance_x (mesh : CarLightsMesh) (j : nat) : R :=
  nth (3 * j) (aOffset mesh) 0.

(** Every result of [Math.random()] lies in [0, 1). *)
Definition unit_draws (g : rng) : Prop := forall n, 0 <= g n < 1.

(** The generator after [k] draws. *)
Definition drop (k : nat) (g : rng) : rng := fun n => g (k + n)%nat.

(** What one turn of the loop pushes to [aOffset], as a function of the
    draws it makes (the fourth is the car width, the fifth the shift). *)
Definition pair_offsets (this : CarLights) (g : rng) (i : nat) : list R :=
  let options := cl_options this in
  let laneWidth := Opt.roadWidth options / IZR (Opt.lanesPerRoad options) in
  let radius := random_of (Opt.carLightsRadius options) (g 0%nat) in
  let carWidth :=
    random_of (Opt.carWidthPercentage options) (g 3%nat) * laneWidth in
  let laneX :=
    laneCentre options i
    + random_of (Opt.carShiftX options) (g 4%nat) * laneWidth in
  let offsetY :=
    random_of (Opt.carFloorSeparation options) (g 5%nat) + radius * 1.3 in
  let offsetZ := - random_of (UpTo (Opt.length options)) (g 6%nat) in
  [laneX - carWidth / 2; offsetY; offsetZ;
   laneX + carWidth / 2; offsetY; offsetZ].

Fixpoint loop_offsets (this : CarLights) (g : rng) (n i : nat) : list R :=
  match n with
  | O => []
  | S n' => pair_offsets this g i ++ loop_offsets this (drop 8 g) n' (S i)
  end.

(* ================================================================= *)
(** * 4. HyperspeedApp *)
(* ================================================================= *)

(** ** The instance and the part of the page it touches *)

(** The rendering surface [renderer.domElement]: the size of its backing
    store and its size in the layout of the page. *)
Record Canvas : Type := {
  width : Z;
  height : Z;
  clientWidth : Z;
  clientHeight : Z
}.

Record Camera : Type := {
  fov : R;
  aspect : number;
  position : Vector3;
  lookingAt : Vector3
}.

(** The [uTime] uniforms that [update] writes. *)
Record TimeUniforms : Type := {
  rightCarLights_uTime : R;
  leftCarLights_uTime : R;
  leftSticks_uTime : R;
  road_uTime : R
}.

Inductive Target : Type := window | container.

Inductive EventType : Type :=
| resize | mousedown | mouseup | mouseout
| touchstart | touchend | touchcancel | contextmenu.

Inductive Handler : Type :=
| h_onWindowResize | h_onMouseDown | h_onMouseUp | h_onContextMenu.

Definition listener : Type := (Target * EventType * Handler)%type.

(** What the instance asks of three.js, of postprocessing and of the DOM. *)
Inductive call : Type :=
| renderer_setSize (w h : Z) (updateStyle : bool)
| renderer_setPixelRatio (ratio : Q)
| renderer_dispose
| composer_setSize (w h : Z) (updateStyle : bool)
| composer_render (delta : R)
| composer_dispose
| scene_clear
| camera_updateProjectionMatrix
| camera_lookAt (p : Vector3)
| container_append
| container_removeChild
| addEventListener (t : Target) (e : EventType) (h : Handler)
| removeEventListener (t : Target) (e : EventType) (h : Handler)
| requestAnimationFrame.

(** The calls that reach the rendering backend: those on the renderer and
    on the effect composer. *)
Definition is_gpu_call (c : call) : bool :=
  match c with
  | renderer_setSize _ _ _ | renderer_setPixelRatio _ | renderer_dispose
  | composer_setSize _ _ _ | composer_render _ | composer_dispose => true
  | _ => false
  end.

Definition gpu_calls (l : list call) : nat :=
  List.length (filter is_gpu_call l).

(** [constructed] is false for an instance whose constructor returned at
    the library check: none of its fields was assigned, and a read of
    [this.renderer], [this.container], ... gives [undefined]. *)
Record HyperspeedApp : Type := {
  constructed : bool;
  options : Opt.t;
  disposed : bool;
  fovTarget : R;
  speedUpTarget : R;
  speedUp : R;
  timeOffset : R;
  camera : Camera;
  elapsedTime : R;
  uniforms : TimeUniforms;
  pixelRatio : Q;
  canvas : Canvas;
  attached : bool;
  offsetWidth : Z;
  offsetHeight : Z;
  listeners : list listener;
  calls : list call
}.

Definition set_disposed (v : bool) (this : HyperspeedApp) : HyperspeedApp :=
  {| constructed := constructed this;
     options := options this;
     disposed := v;
     fovTarget := fovTarget this;
     speedUpTarget := speedUpTarget this;
     speedUp := speedUp this;
     timeOffset := timeOffset this;
     camera := camera this;
     elapsedTime := elapsedTime this;
     uniforms := uniforms this;
     pixelRatio := pixelRatio this;
     canvas := canvas this;
     attached := attached this;
     offsetWidth := offsetWidth this;
     offsetHeight := offsetHeight this;
     listeners := listeners this;
     calls := calls this |}.

Definition set_fovTarget (v : R) (this : HyperspeedApp) : HyperspeedApp :=
  {| constructed := constructed this;
     options := options this;
     disposed := disposed this;
     fovTarget := v;
     speedUpTarget := speedUpTarget this;
     speedUp := speedUp this;
     timeOffset := timeOffset this;
     camera := camera this;
     elapsedTime := elapsedTime this;
     uniforms := uniforms this;
     pixelRatio := pixelRatio this;
     canvas := canvas this;
     attached := attached this;
     offsetWidth := offsetWidth this;
     offsetHeight := offsetHeight this;
     listeners := listeners this;
     calls := calls this |}.

Definition set_speedUpTarget (v : R) (this : HyperspeedApp) : HyperspeedApp :=
  {| constructed := constructed this;
     options := options this;
     disposed := disposed this;
     fovTarget := fovTarget this;
     speedUpTarget := v;
     speedUp := speedUp this;
     timeOffset := timeOffset this;
     camera := camera this;
     elapsedTime := elapsedTime this;
     uniforms := uniforms this;
     pixelRatio := pixelRatio this;
     canvas := canvas this;
     attached := attached this;
     offsetWidth := offsetWidth this;
     offsetHeight := offsetHeight this;
     listeners := listeners this;
     calls := calls this |}.

Definition set_speedUp (v : R) (this : HyperspeedApp) : HyperspeedApp :=
  {| constructed := constructed this;
     options := options this;
     disposed := disposed this;
     fovTarget := fovTarget this;
     speedUpTarget := speedUpTarget this;
     speedUp := v;
     timeOffset := timeOffset this;
     camera := camera this;
     elapsedTime := elapsedTime this;
     uniforms := uniforms this;
     pixelRatio := pixelRatio this;
     canvas := canvas this;
     attached := attached this;
     offsetWidth := offsetWidth this;
     offsetHeight := offsetHeight this;
     listeners := listeners this;
     calls := calls this |}.

Definition set_timeOffset (v : R) (this : HyperspeedApp) : HyperspeedApp :=
  {| constructed := constructed this;
     options := options this;
     disposed := disposed this;
     fovTarget := fovTarget this;
     speedUpTarget := speedUpTarget this;
     speedUp := speedUp this;
     timeOffset := v;
     camera := camera this;
     elapsedTime := elapsedTime this;
     uniforms := uniforms this;
     pixelRatio := pixelRatio this;
     canvas := canvas this;
     attached := attached this;
     offsetWidth := offsetWidth this;
     offsetHeight := offsetHeight this;
     listeners := listeners this;
     calls := calls this |}.

Definition set_camera (v : Camera) (this : HyperspeedApp) : HyperspeedApp :=
  {| constructed := constructed this;
     options := options this;
     disposed := disposed this;
     fovTarget := fovTarget this;
     speedUpTarget := speedUpTarget this;
     speedUp := speedUp this;
     timeOffset := timeOffset this;
     camera := v;
     elapsedTime := elapsedTime this;
     uniforms := uniforms this;
     pixelRatio := pixelRatio this;
     canvas := canvas this;
     attached := attached this;
     offsetWidth := offsetWidth this;
     offsetHeight := offsetHeight this;
     listeners := listeners this;
     calls := calls this |}.

Definition set_elapsedTime (v : R) (this : HyperspeedApp) : HyperspeedApp :=
  {| constructed := constructed this;
     options := options this;
     disposed := disposed this;
     fovTarget := fovTarget this;
     speedUpTarget := speedUpTarget this;
     speedUp := speedUp this;
     timeOffset := timeOffset this;
     camera := camera this;
     elapsedTime := v;
     uniforms := uniforms this;
     pixelRatio := pixelRatio this;
     canvas := canvas this;
     attached := attached this;
     offsetWidth := offsetWidth this;
     offsetHeight := offsetHeight this;
     listeners := listeners this;
     calls := calls this |}.

Definition set_uniforms (v : TimeUniforms) (this : HyperspeedApp) : HyperspeedApp :=
  {| constructed := constructed this;
     options := options this;
     disposed := disposed this;
     fovTarget := fovTarget this;
     speedUpTarget := speedUpTarget this;
     speedUp := speedUp this;
     timeOffset := timeOffset this;
     camera := camera this;
     elapsedTime := elapsedTime this;
     uniforms := v;
     pixelRatio := pixelRatio this;
     canvas := canvas this;
     attached := attached this;
     offsetWidth := offsetWidth this;
     offsetHeight := offsetHeight this;
     listeners := listeners this;
     calls := calls this |}.

Definition set_canvas (v : Canvas) (this : HyperspeedApp) : HyperspeedApp :=
  {| constructed := constructed this;
     options := options this;
     disposed := disposed this;
     fovTarget := fovTarget this;
     speedUpTarget := speedUpTarget this;
     speedUp := speedUp this;
     timeOffset := timeOffset this;
     camera := camera this;
     elapsedTime := elapsedTime this;
     uniforms := uniforms this;
     pixelRatio := pixelRatio this;
     canvas := v;
     attached := attached this;
     offsetWidth := offsetWidth this;
     offsetHeight := offsetHeight this;
     listeners := listeners this;
     calls := calls this |}.

Definition set_attached (v : bool) (this : HyperspeedApp) : HyperspeedApp :=
  {| constructed := constructed this;
     options := options this;
     disposed := disposed this;
     fovTarget := fovTarget this;
     speedUpTarget := speedUpTarget this;
     speedUp := speedUp this;
     timeOffset := timeOffset this;
     camera := camera this;
     elapsedTime := elapsedTime this;
     uniforms := uniforms this;
     pixelRatio := pixelRatio this;
     canvas := canvas this;
     attached := v;
     offsetWidth := offsetWidth this;
     offsetHeight := offsetHeight this;
     listeners := listeners this;
     calls := calls this |}.

Definition set_offsetWidth (v : Z) (this : HyperspeedApp) : HyperspeedApp :=
  {| constructed := constructed this;
     options := options this;
     disposed := disposed this;
     fovTarget := fovTarget this;
     speedUpTarget := speedUpTarget this;
     speedUp := speedUp this;
     timeOffset := timeOffset this;
     camera := camera this;
     elapsedTime := elapsedTime this;
     uniforms := uniforms this;
     pixelRatio := pixelRatio this;
     canvas := canvas this;
     attached := attached this;
     offsetWidth := v;
     offsetHeight := offsetHeight this;
     listeners := listeners this;
     calls := calls this |}.

Definition set_offsetHeight (v : Z) (this : HyperspeedApp) : HyperspeedApp :=
  {| constructed := constructed this;
     options := options this;
     disposed := disposed this;
     fovTarget := fovTarget this;
     speedUpTarget := speedUpTarget this;
     speedUp := speedUp this;
     timeOffset := timeOffset this;
     camera := camera this;
     elapsedTime := elapsedTime this;
     uniforms := uniforms this;
     pixelRatio := pixelRatio this;
     canvas := canvas this;
     attached := attached this;
     offsetWidth := offsetWidth this;
     offsetHeight := v;
     listeners := listeners this;
     calls := calls this |}.

Definition set_listeners (v : list listener) (this : HyperspeedApp) : HyperspeedApp :=
  {| constructed := constructed this;
     options := options this;
     disposed := disposed this;
     fovTarget := fovTarget this;
     speedUpTarget := speedUpTarget this;
     speedUp := speedUp this;
     timeOffset := timeOffset this;
     camera := camera this;
     elapsedTime := elapsedTime this;
     uniforms := uniforms this;
     pixelRatio := pixelRatio this;
     canvas := canvas this;
     attached := attached this;
     offsetWidth := offsetWidth this;
     offsetHeight := offsetHeight this;
     listeners := v;
     calls := calls this |}.

Definition set_calls (v : list call) (this : HyperspeedApp) : HyperspeedApp :=
  {| constructed := constructed this;
     options := options this;
     disposed := disposed this;
     fovTarget := fovTarget this;
     speedUpTarget := speedUpTarget this;
     speedUp := speedUp this;
     timeOffset := timeOffset this;
     camera := camera this;
     elapsedTime := elapsedTime this;
     uniforms := uniforms this;
     pixelRatio := pixelRatio this;
     canvas := canvas this;
     attached := attached this;
     offsetWidth := offsetWidth this;
     offsetHeight := offsetHeight this;
     listeners := listeners this;
     calls := v |}.

Definition target_eqb (a b : Target) : bool :=
  match a, b with
  | window, window | container, container => true
  | _, _ => false
  end.

Definition event_eqb (a b : EventType) : bool :=
  match a, b with
  | resize, resize | mousedown, mousedown | mouseup, mouseup
  | mouseout, mouseout | touchstart, touchstart | touchend, touchend
  | touchcancel, touchcancel | contextmenu, contextmenu => true
  | _, _ => false
  end.

Definition handler_eqb (a b : Handler) : bool :=
  match a, b with
  | h_onWindowResize, h_onWindowResize | h_onMouseDown, h_onMouseDown
  | h_onMouseUp, h_onMouseUp | h_onContextMenu, h_onContextMenu => true
  | _, _ => false
  end.

Definition listener_eqb (a b : listener) : bool :=
  let '(t1, e1, h1) := a in
  let '(t2, e2, h2) := b in
  target_eqb t1 t2 && event_eqb e1 e2 && handler_eqb h1 h2.

Definition App : Type -> Type := M HyperspeedApp.

Definition emit (c : call) : App unit :=
  modify (fun this => set_calls (calls this ++ [c]) this).

(** A read of a field of an instance that has none throws. *)
Definition defined : App unit :=
  this <- get ;;
  if constructed this then ret tt else throw TypeError.

(** ** The libraries' side of a call *)

(** Modelled from the spec: [WebGLRenderer.setSize] of three.js, which is
    not part of this repository.  The backing store of the canvas becomes
    the size times the pixel ratio, rounded down.  (The size of the canvas
    in the layout is the page's, see [layout].) *)
Definition backing_size (ratio : Q) (w : Z) : Z :=
  Qfloor (inject_Z w * ratio).

Definition canvas_resized (w h : Z) (this : HyperspeedApp) : HyperspeedApp :=
  set_canvas {| width := backing_size (pixelRatio this) w;
                height := backing_size (pixelRatio this) h;
                clientWidth := clientWidth (canvas this);
                clientHeight := clientHeight (canvas this) |} this.

(** [this.renderer.setSize(w, h, updateStyle)] *)
Definition renderer_setSize_ (w h : Z) (updateStyle : bool) : App unit :=
  emit (renderer_setSize w h updateStyle) ;;
  modify (canvas_resized w h).

(** Modelled from the spec: [EffectComposer.setSize] of postprocessing,
    which is not part of this repository: it sets the size of the renderer
    and of its own buffers. *)
Definition composer_setSize_ (w h : Z) (updateStyle : bool) : App unit :=
  emit (composer_setSize w h updateStyle) ;;
  modify (canvas_resized w h).

(** ** The environment *)

(** The page lays the host out anew: the canvas fills it. *)
Definition layout (cw ch ow oh : Z) (this : HyperspeedApp) : HyperspeedApp :=
  set_offsetHeight oh
    (set_offsetWidth ow
       (set_canvas {| width := width (canvas this);
                      height := height (canvas this);
                      clientWidth := cw;
                      clientHeight := ch |} this)).

(** ** Methods *)

Definition set_aspect (a : number) (this : HyperspeedApp) : HyperspeedApp :=
  set_camera {| fov := fov (camera this);
                aspect := a;
                position := position (camera this);
                lookingAt := lookingAt (camera this) |} this.

Definition set_fov (f : R) (this : HyperspeedApp) : HyperspeedApp :=
  set_camera {| fov := f;
                aspect := aspect (camera this);
                position := position (camera this);
                lookingAt := lookingAt (camera this) |} this.

Definition set_lookingAt (p : Vector3) (this : HyperspeedApp)
  : HyperspeedApp :=
  set_camera {| fov := fov (camera this);
                aspect := aspect (camera this);
                position := position (camera this);
                lookingAt := p |} this.

Definition onWindowResize : App unit :=
  defined ;;
  this <- get ;;
  let width := offsetWidth this in
  let height := offsetHeight this in
  renderer_setSize_ width height true ;;
  modify (set_aspect (div width height)) ;;
  emit camera_updateProjectionMatrix ;;
  composer_setSize_ width height true.

Definition onMouseDown : App unit :=
  modify (fun this =>
            set_speedUpTarget (Opt.speedUp (options this))
              (set_fovTarget (Opt.fovSpeedUp (options this)) this)).

Definition onMouseUp : App unit :=
  modify (fun this =>
            set_speedUpTarget 0 (set_fovTarget (Opt.fov (options this)) this)).

(** The eight registrations of [setupListeners], in its order. *)
Definition registered : list listener :=
  [ (window, resize, h_onWindowResize);
    (container, mousedown, h_onMouseDown);
    (container, mouseup, h_onMouseUp);
    (container, mouseout, h_onMouseUp);
    (container, touchstart, h_onMouseDown);
    (container, touchend, h_onMouseUp);
    (container, touchcancel, h_onMouseUp);
    (container, contextmenu, h_onContextMenu) ].

Definition run_handler (h : Handler) : App unit :=
  match h with
  | h_onWindowResize => onWindowResize
  | h_onMouseDown => onMouseDown
  | h_onMouseUp => onMouseUp
  | h_onContextMenu => ret tt
  end.

Fixpoint run_handlers (hs : list Handler) : App unit :=
  match hs with
  | [] => ret tt
  | h :: rest => run_handler h ;; run_handlers rest
  end.

(** An event of type [e] on [t]: the handlers registered for it run. *)
Definition dispatch (t : Target) (e : EventType) : App unit :=
  this <- get ;;
  run_handlers
    (map (fun l => snd l)
         (filter (fun l => target_eqb (fst (fst l)) t
                           && event_eqb (snd (fst l)) e)
                 (listeners this))).

(** [target.removeEventListener(type, handler)]: a listener that is not
    registered is no error. *)
Definition unregister (l0 : listener) (ls : list listener) : list listener :=
  filter (fun l => negb (listener_eqb l l0)) ls.

Definition removeEventListener_ (t : Target) (e : EventType) (h : Handler)
  : App unit :=
  emit (removeEventListener t e h) ;;
  modify (fun this =>
            set_listeners (unregister (t, e, h) (listeners this)) this).

(** [this.container.removeChild(this.renderer.domElement)]: a node that is
    not a child is a [NotFoundError]. *)
Definition removeChild_ : App unit :=
  defined ;;
  emit container_removeChild ;;
  this <- get ;;
  if attached this then modify (set_attached false)
  else throw NotFoundError.

Definition dispose : App unit :=
  modify (set_disposed true) ;;
  this <- get ;;
  when (constructed this) (emit renderer_dispose) ;;
  when (constructed this) (emit composer_dispose) ;;
  when (constructed this) (emit scene_clear) ;;
  removeEventListener_ window resize h_onWindowResize ;;
  defined ;;
  removeEventListener_ container mousedown h_onMouseDown ;;
  removeEventListener_ container mouseup h_onMouseUp ;;
  removeEventListener_ container mouseout h_onMouseUp ;;
  removeEventListener_ container touchstart h_onMouseDown ;;
  removeEventListener_ container touchend h_onMouseUp ;;
  removeEventListener_ container touchcancel h_onMouseUp ;;
  removeEventListener_ container contextmenu h_onContextMenu ;;
  try_ removeChild_ (ret tt).

(** [setSize(width, height, updateStyles)] *)
Definition setSize (width height : Z) (updateStyles : bool) : App unit :=
  defined ;;
  composer_setSize_ width height updateStyles.

(** [canvas.width !== width || canvas.height !== height], for the [width]
    and [height] that the layout gives the canvas. *)
Definition needResize (cv : Canvas) : bool :=
  negb (width cv =? clientWidth cv)%Z || negb (height cv =? clientHeight cv)%Z.

(** [resizeRendererToDisplaySize(this.renderer, this.setSize)] *)
Definition resizeRendererToDisplaySize : App bool :=
  defined ;;
  this <- get ;;
  let cv := canvas this in
  let w := clientWidth cv in
  let h := clientHeight cv in
  let needResize := needResize cv in
  when needResize (setSize w h false) ;;
  ret needResize.

(** [Math.exp(-(-60 * Math.log2(1 - 0.1)) * delta)] *)
Definition lerpPercentage (delta : R) : R :=
  exp (- (-60 * log2 (1 - 0.1)) * delta).

Definition update (delta : R) : App unit :=
  defined ;;
  this <- get ;;
  let lerpPercentage := lerpPercentage delta in
  let speedUp' :=
    speedUp this
    + lerp (speedUp this) (speedUpTarget this) lerpPercentage 0.00001 in
  let timeOffset' := timeOffset this + speedUp' * delta in
  modify (set_speedUp speedUp') ;;
  modify (set_timeOffset timeOffset') ;;
  let time := elapsedTime this + timeOffset' in
  modify (set_uniforms {| rightCarLights_uTime := time;
                          leftCarLights_uTime := time;
                          leftSticks_uTime := time;
                          road_uTime := time |}) ;;
  let fovChange :=
    lerp (fov (camera this)) (fovTarget this) lerpPercentage
         lerp_default_limit in
  when (if Req_dec_T fovChange 0 then false else true)
       (modify (set_fov (fov (camera this) + fovChange * delta * 6))) ;;
  let distortion := getJS 0.025 time in
  let p := position (camera this) in
  let target := vec3 (v3x p + v3x distortion) (v3y p + v3y distortion)
                     (v3z p + v3z distortion) in
  emit (camera_lookAt target) ;;
  modify (set_lookingAt target) ;;
  emit camera_updateProjectionMatrix.

Definition render (delta : R) : App unit :=
  defined ;;
  emit (composer_render delta).

(** [tick()]; [delta] is what [this.clock.getDelta()] returns in this
    frame, the time since the frame before. *)
Definition tick (delta : R) : App unit :=
  this <- get ;;
  if disposed this then ret tt
  else
    resized <- resizeRendererToDisplaySize ;;
    when resized
      (cv <- get ;;
       modify (set_aspect (div (clientWidth (canvas cv))
                               (clientHeight (canvas cv)))) ;;
       emit camera_updateProjectionMatrix) ;;
    modify (fun this => set_elapsedTime (elapsedTime this + delta) this) ;;
    render delta ;;
    update delta ;;
    emit requestAnimationFrame.

(** ** The constructor *)

(** What the constructor finds: whether its check of the libraries passes
    ([libraries]: both [THREE] and [POSTPROCESSING] are defined),
    [window.devicePixelRatio], the size of the host and the size the layout
    gives the canvas once it is appended.  The script reads [THREE] when it
    loads (the uniforms of the distortion, the chunks of the shaders), so
    that on a page where this code runs at all [THREE] is defined, and the
    check fails only when [POSTPROCESSING] is missing. *)
Record Page : Type := {
  libraries : bool;
  devicePixelRatio : Q;
  host_offsetWidth : Z;
  host_offsetHeight : Z;
  host_clientWidth : Z;
  host_clientHeight : Z
}.

(** The instance when the constructor reaches [this.tick()].  [options] are
    the merged options.  The passes of [initPasses()] are calls of the
    libraries that read no option; [initSceneObjects()], which draws from
    [Math.random()] and throws on an empty palette, is
    [initSceneObjects_run] below, and the constructor with it is
    [HyperspeedApp_constructor]. *)
Definition constructor (page : Page) (options : Opt.t) : HyperspeedApp :=
  let ow := host_offsetWidth page in
  let oh := host_offsetHeight page in
  let ratio := devicePixelRatio page in
  if libraries page then
    {| constructed := true;
       options := options;
       disposed := false;
       fovTarget := Opt.fov options;
       speedUpTarget := 0;
       speedUp := 0;
       timeOffset := 0;
       camera := {| fov := Opt.fov options;
                    aspect := div ow oh;
                    position := vec3 0 8 (-5);
                    lookingAt := vec3 0 8 (-6) |};
       elapsedTime := 0;
       uniforms := {| rightCarLights_uTime := 0;
                      leftCarLights_uTime := 0;
                      leftSticks_uTime := 0;
                      road_uTime := 0 |};
       pixelRatio := ratio;
       canvas := {| width := backing_size ratio ow;
                    height := backing_size ratio oh;
                    clientWidth := host_clientWidth page;
                    clientHeight := host_clientHeight page |};
       attached := true;
       offsetWidth := ow;
       offsetHeight := oh;
       listeners := registered;
       calls :=
         [renderer_setSize ow oh false; renderer_setPixelRatio ratio;
          container_append]
         ++ map (fun l => addEventListener (fst (fst l)) (snd (fst l))
                                           (snd l)) registered |}
  else
    {| constructed := false;
       options := options;
       disposed := false;
       fovTarget := 0;
       speedUpTarget := 0;
       speedUp := 0;
       timeOffset := 0;
       camera := {| fov := 0;
                    aspect := NaN;
                    position := vec3 0 0 0;
                    lookingAt := vec3 0 0 0 |};
       elapsedTime := 0;
       uniforms := {| rightCarLights_uTime := 0;
                      leftCarLights_uTime := 0;
                      leftSticks_uTime := 0;
                      road_uTime := 0 |};
       pixelRatio := 1;
       canvas := {| width := 0; height := 0;
                    clientWidth := 0; clientHeight := 0 |};
       attached := false;
       offsetWidth := ow;
       offsetHeight := oh;
       listeners := [];
       calls := [] |}.

(** [new HyperspeedApp(container, options)] for options with which
    [initSceneObjects()] returns, as the default options are: the
    constructor ends with the first frame, whose [getDelta()] is 0, when
    the libraries are there.  [HyperspeedApp_constructor] below is the
    constructor for any options. *)
Definition HyperspeedApp_new (page : Page) (options : Opt.t)
  : completion unit * HyperspeedApp :=
  let this := constructor page options in
  if libraries page then tick 0 this else (Normal tt, this).

(* ================================================================= *)
(** * 5. IridescenceEffect.resize *)
(* ================================================================= *)

Record IridescenceEffect : Type := {
  ir_clientWidth : Z;
  ir_clientHeight : Z;
  ir_canvas_width : Z;
  ir_canvas_height : Z;
  has_program : bool;
  uResolution : number * number * number
}.

(** [n || 1] on an integer: 0 is falsy. *)
Definition or_one (n : Z) : Z := if (n =? 0)%Z then 1%Z else n.

(** [resize()].  [renderer.setSize(w, h)] of OGL (not part of this
    repository) sets the backing store of the canvas to the size times the
    renderer's [dpr], which is 1 for [new Renderer()]. *)
Definition Iridescence_resize (this : IridescenceEffect)
  : IridescenceEffect :=
  let w := or_one (ir_clientWidth this) in
  let h := or_one (ir_clientHeight this) in
  {| ir_clientWidth := ir_clientWidth this;
     ir_clientHeight := ir_clientHeight this;
     ir_canvas_width := w;
     ir_canvas_height := h;
     has_program := has_program this;
     uResolution :=
       if has_program this
       then (Num (IZR w), Num (IZR h), div w h)
       else uResolution this |}.

(** ** Decimal texts *)

(** The text of a run of decimal digits, and of a signed decimal numeral
    with integer digits [ip] and fraction digits [fp]: what a page writes
    for a number. *)
Definition digit_char (d : Z) : ascii := chr (48 + d).

Fixpoint digits_text (ds : list Z) : string :=
  match ds with
  | [] => EmptyString
  | d :: rest => String (digit_char d) (digits_text rest)
  end.

Definition decimal_text (neg : bool) (ip fp : list Z) : string :=
  ((if neg then "-" else "")
   ++ digits_text ip
   ++ match fp with
      | [] => ""
      | _ => String "." (digits_text fp)
      end)%string.

Definition is_digit (d : Z) : Prop := (0 <= d <= 9)%Z.

(** The calls that set the size of the backing store. *)
Definition is_resize (c : call) : bool :=
  match c with
  | renderer_setSize _ _ _ | composer_setSize _ _ _ => true
  | _ => false
  end.

Definition resizes (l : list call) : nat :=
  List.length (filter is_resize l).

(** The calls of one [dispose()] on an instance that was constructed, up to
    the [removeChild] in its [try]. *)
Definition dispose_calls : list call :=
  [renderer_dispose; composer_dispose; scene_clear;
   removeEventListener window resize h_onWindowResize;
   removeEventListener container mousedown h_onMouseDown;
   removeEventListener container mouseup h_onMouseUp;
   removeEventListener container mouseout h_onMouseUp;
   removeEventListener container touchstart h_onMouseDown;
   removeEventListener container touchend h_onMouseUp;
   removeEventListener container touchcancel h_onMouseUp;
   removeEventListener container contextmenu h_onContextMenu;
   container_removeChild].

(** The listeners that are left when those of [setupListeners] are
    removed, in its order. *)
Definition unregister_all (ls : list listener) : list listener :=
  fold_left (fun acc l0 => unregister l0 acc) registered ls.

(** The instance that [dispose()] leaves of one that was constructed. *)
Definition disposed_of (this : HyperspeedApp) : HyperspeedApp :=
  set_attached false
    (set_listeners (unregister_all (listeners this))
       (set_calls (calls this ++ dispose_calls) (set_disposed true this))).

(** The calls of one frame of a live instance: the resize when the sizes
    differ, the render and the update. *)
Definition frame_calls (this : HyperspeedApp) (delta : R) (target : Vector3)
  : list call :=
  (if needResize (canvas this)
   then [composer_setSize (clientWidth (canvas this))
                          (clientHeight (canvas this)) false;
         camera_updateProjectionMatrix]
   else [])
  ++ [composer_render delta; camera_lookAt target;
      camera_updateProjectionMatrix; requestAnimationFrame].

(** A page whose host is 800 by 600, and the same page on a display with
    two device pixels to the CSS pixel. *)
Definition page_800x600 (ratio : Q) : Page :=
  {| libraries := true;
     devicePixelRatio := ratio;
     host_offsetWidth := 800;
     host_offsetHeight := 600;
     host_clientWidth := 800;
     host_clientHeight := 600 |}.

(** ** Runs of frames *)

(** The instance after the frames whose clock deltas are [deltas]. *)
Definition frames (deltas : list R) (this : HyperspeedApp) : HyperspeedApp :=
  fold_left (fun s delta => snd (tick delta s)) deltas this.

(** A number of frames after which a boost to [target] is complete. *)
Definition frame_bound (target : R) : nat :=
  Z.to_nat (up (target * 100000)).

(* ================================================================= *)
(** * 5b. More of the scene *)
(* ================================================================= *)

(** What one turn of the loop of [CarLights.init] pushes to [aMetrics], as
    a function of its first three draws. *)
Definition pair_metrics (this : CarLights) (g : rng) : list R :=
  let options := cl_options this in
  let radius := random_of (Opt.carLightsRadius options) (g 0%nat) in
  let length := random_of (Opt.carLightsLength options) (g 1%nat) in
  let speed := random_of (cl_speed this) (g 2%nat) in
  [radius; length; speed; radius; length; speed].

(** ** Road *)

(** The uniforms that only a road way has (the three width and length
    percentages of the markings are passed on as they are and left out
    here). *)
Record RoadMarkings : Type := {
  uLanes : Z;
  uBrokenLinesColor : Color;
  uShoulderLinesColor : Color
}.

(** A mesh of [createPlane]: a plane of [plane_width] by [plane_height],
    turned by [rotation_x] about the x axis (to lie flat) and placed at
    [position_x], [position_z]. *)
Record Plane : Type := {
  plane_width : R;
  plane_height : R;
  rotation_x : R;
  position_x : R;
  position_z : R;
  plane_uColor : Color;
  plane_uTravelLength : R;
  markings : option RoadMarkings
}.

(** [createPlane(side, width, isRoad)]; the source does not read [width]. *)
Definition createPlane (options : Opt.t) (side width : R) (isRoad : bool)
  : Plane :=
  let colors := Opt.colours options in
  {| plane_width :=
       if isRoad then Opt.roadWidth options else Opt.islandWidth options;
     plane_height := Opt.length options;
     rotation_x := - PI / 2;
     position_x :=
       0 + (Opt.islandWidth options / 2 + Opt.roadWidth options / 2) * side;
     position_z := - Opt.length options / 2;
     plane_uColor :=
       hexToColor (if isRoad then Opt.roadColor colors
                   else Opt.islandColor colors);
     plane_uTravelLength := Opt.length options;
     markings :=
       if isRoad
       then Some {| uLanes := Opt.lanesPerRoad options;
                    uBrokenLinesColor := hexToColor (Opt.brokenLines colors);
                    uShoulderLinesColor :=
                      hexToColor (Opt.shoulderLines colors) |}
       else None |}.

Record RoadMeshes : Type := {
  leftRoadWay : Plane;
  rightRoadWay : Plane;
  island : Plane
}.

(** [Road.init()] *)
Definition Road_init (options : Opt.t) : RoadMeshes :=
  {| leftRoadWay := createPlane options (-1) (Opt.roadWidth options) true;
     rightRoadWay := createPlane options 1 (Opt.roadWidth options) true;
     island := createPlane options 0 (Opt.islandWidth options) false |}.

(** The x positions that [initSceneObjects] gives the meshes of the two sets
    of car lights and of the light sticks, beside the road. *)
Record SceneLayout : Type := {
  road : RoadMeshes;
  leftCarLights_x : R;
  rightCarLights_x : R;
  leftSticks_x : R
}.

Definition initSceneObjects (options : Opt.t) : SceneLayout :=
  {| road := Road_init options;
     leftCarLights_x :=
       - Opt.roadWidth options / 2 - Opt.islandWidth options / 2;
     rightCarLights_x :=
       Opt.roadWidth options / 2 + Opt.islandWidth options / 2;
     leftSticks_x :=
       - (Opt.roadWidth options + Opt.islandWidth options / 2) |}.

(** The two edges of a plane along x. *)
Definition left_edge (p : Plane) : R := position_x p - plane_width p / 2.
Definition right_edge (p : Plane) : R := position_x p + plane_width p / 2.

(** ** Light sticks *)

(** A [LightsSticks] object: its options, with the two ranges
    [options.lightStickWidth] and [options.lightStickHeight]. *)
Record LightsSticks : Type := {
  ls_options : Opt.t;
  lightStickWidth : base;
  lightStickHeight : base
}.

Record SticksMesh : Type := {
  st_instanceCount : nat;
  st_aOffset : list R;
  st_aColor : list Color;
  st_aMetrics : list R;
  st_uTravelLength : R;
  st_uTime : R
}.

(** [options.length / (totalSticks - 1)] *)
Definition stickoffset (options : Opt.t) : R :=
  Opt.length options / (INR (Opt.totalSideLightSticks options) - 1).

(** One turn of the loop of [LightsSticks.init]. *)
Definition stick_turn (this : LightsSticks) (colors : list Color) (i : nat)
    (acc : buffers) : M rng buffers :=
  let options := ls_options this in
  let stickoffset := stickoffset options in
  width <- random (lightStickWidth this) ;;
  height <- random (lightStickHeight this) ;;
  u <- Math_random ;;
  picked <- pickRandom colors ;;
  match picked with
  | None => throw TypeError
  | Some color =>
      ret {| b_aOffset :=
               b_aOffset acc
               ++ [(INR i - 1) * stickoffset * 2 + stickoffset * u];
             b_aMetrics := b_aMetrics acc ++ [width; height];
             b_aColor := b_aColor acc ++ [color] |}
  end.

Fixpoint stick_loop (this : LightsSticks) (colors : list Color) (n i : nat)
    (acc : buffers) : M rng buffers :=
  match n with
  | O => ret acc
  | S n' =>
      acc' <- stick_turn this colors i acc ;;
      stick_loop this colors n' (S i) acc'
  end.

(** [LightsSticks.init()].  For a single stick the source divides by zero
    in [stickoffset]; the embedding is for any other number of sticks. *)
Definition LightsSticks_init (this : LightsSticks) : M rng SticksMesh :=
  let options := ls_options this in
  let totalSticks := Opt.totalSideLightSticks options in
  let colors := palette (Opt.sticks (Opt.colours options)) in
  bufs <- stick_loop this colors totalSticks O
            {| b_aOffset := []; b_aMetrics := []; b_aColor := [] |} ;;
  ret {| st_instanceCount := totalSticks;
         st_aOffset := b_aOffset bufs;
         st_aColor := b_aColor bufs;
         st_aMetrics := b_aMetrics bufs;
         st_uTravelLength := Opt.length options;
         st_uTime := 0 |}.

(** The offsets that the loop pushes, as a function of the draws (the third
    of each turn). *)
Fixpoint stick_offsets (this : LightsSticks) (g : rng) (n i : nat) : list R :=
  match n with
  | O => []
  | S n' =>
      ((INR i - 1) * stickoffset (ls_options this) * 2
       + stickoffset (ls_options this) * g 2%nat)
      :: stick_offsets this (drop 4 g) n' (S i)
  end.

(** ** The constructor, with the scene *)

(** [initSceneObjects()] as it runs: the three [init()] that draw from
    [Math.random()] and can throw, in the order of the source ([Road.init]
    before them draws nothing and throws nothing); the positions are those of
    [initSceneObjects].  [sticks] is the [LightsSticks] object that the
    constructor makes of the options: the options with the two ranges of
    the light sticks. *)
Definition initSceneObjects_run (sticks : LightsSticks) : M rng SceneLayout :=
  let options := ls_options sticks in
  CarLights_init (leftCarLights options) ;;
  CarLights_init (rightCarLights options) ;;
  LightsSticks_init sticks ;;
  ret (initSceneObjects options).

(** [new HyperspeedApp(container, options)]: what the [new] expression
    does, returning or throwing, and the instance as the page then holds
    it.  When the check of the libraries fails the constructor returns at
    once.  Otherwise the renderer is set up, the canvas appended and the
    listeners registered ([constructor]) before [initSceneObjects()] runs;
    when that throws, the constructor throws, and what it has done so far
    stays done; when it returns, the first frame follows. *)
Definition HyperspeedApp_constructor (page : Page) (sticks : LightsSticks)
    (g : rng) : completion unit * HyperspeedApp :=
  let this := constructor page (ls_options sticks) in
  if libraries page then
    match fst (initSceneObjects_run sticks g) with
    | Normal _ => tick 0 this
    | Throw e => (Throw e, this)
    end
  else (Normal tt, this).

(** The options with another palette for the cars on the left. *)
Definition with_leftCars (v : value) (o : Opt.t) : Opt.t :=
  {| Opt.length := Opt.length o;
     Opt.roadWidth := Opt.roadWidth o;
     Opt.islandWidth := Opt.islandWidth o;
     Opt.lanesPerRoad := Opt.lanesPerRoad o;
     Opt.fov := Opt.fov o;
     Opt.fovSpeedUp := Opt.fovSpeedUp o;
     Opt.speedUp := Opt.speedUp o;
     Opt.carLightsFade := Opt.carLightsFade o;
     Opt.totalSideLightSticks := Opt.totalSideLightSticks o;
     Opt.lightPairsPerRoadWay := Opt.lightPairsPerRoadWay o;
     Opt.movingAwaySpeed := Opt.movingAwaySpeed o;
     Opt.movingCloserSpeed := Opt.movingCloserSpeed o;
     Opt.carLightsLength := Opt.carLightsLength o;
     Opt.carLightsRadius := Opt.carLightsRadius o;
     Opt.carWidthPercentage := Opt.carWidthPercentage o;
     Opt.carShiftX := Opt.carShiftX o;
     Opt.carFloorSeparation := Opt.carFloorSeparation o;
     Opt.colours :=
       {| Opt.roadColor := Opt.roadColor (Opt.colours o);
          Opt.islandColor := Opt.islandColor (Opt.colours o);
          Opt.background := Opt.background (Opt.colours o);
          Opt.shoulderLines := Opt.shoulderLines (Opt.colours o);
          Opt.brokenLines := Opt.brokenLines (Opt.colours o);
          Opt.leftCars := v;
          Opt.rightCars := Opt.rightCars (Opt.colours o);
          Opt.sticks := Opt.sticks (Opt.colours o) |} |}.

(** The [LightsSticks] object of options whose two ranges for the sticks
    are those of the default options ([0.12, 0.5] and [1.3, 1.7]). *)
Definition default_sticks (options : Opt.t) : LightsSticks :=
  {| ls_options := options;
     lightStickWidth := Between 0.12 0.5;
     lightStickHeight := Between 1.3 1.7 |}.

(** ** The pointer of the Iridescence effect *)

(** [container.getBoundingClientRect()] *)
Record DOMRect : Type := {
  rect_left : R;
  rect_top : R;
  rect_width : R;
  rect_height : R
}.

(** The pair [(x, y)] that [onPointerMove] stores in [this.mousePos] and in
    the [uMouse] uniform, for a pointer at [(clientX, clientY)]. *)
Definition onPointerMove (rect : DOMRect) (clientX clientY : R) : R * R :=
  let x := (clientX - rect_left rect) / Rmax (rect_width rect) 1 in
  let y := 1.0 - (clientY - rect_top rect) / Rmax (rect_height rect) 1 in
  (x, y).

(** ** The scan of the page *)

Record IridescenceOptions : Type := {
  io_color : value;
  io_speed : value;
  io_amplitude : value;
  io_mouseReact : value
}.

Record DeclaredColors : Type := {
  dc_leftCars : value;
  dc_rightCars : value;
  dc_shoulderLines : value;
  dc_brokenLines : value;
  dc_roadColor : value;
  dc_islandColor : value;
  dc_background : value
}.

Record HyperspeedDeclared : Type := {
  ho_length : value;
  ho_roadWidth : value;
  ho_islandWidth : value;
  ho_lanesPerRoad : value;
  ho_fov : value;
  ho_fovSpeedUp : value;
  ho_speedUp : value;
  ho_distortion : value;
  ho_colors : DeclaredColors
}.

(** The effect that the scan builds for one container, with the options it
    hands to the constructor. *)
Inductive Effect : Type :=
| Iridescence (options : IridescenceOptions)
| Hyperspeed (options : HyperspeedDeclared).

Definition number_of (x : R) : value := VNumber (Num x).

(** The object literal [options] of the Iridescence branch of the scan. *)
Definition iridescence_options (container : element)
  : completion IridescenceOptions :=
  cbind (parseData container "data-color"
           (VArray [number_of 0.5; number_of 0.7; number_of 1.0]))
    (fun color =>
  cbind (parseData container "data-speed" (number_of 0.7))
    (fun speed =>
  cbind (parseData container "data-amplitude" (number_of 0.2))
    (fun amplitude =>
  cbind (parseData container "data-mouse-react" (VBool true))
    (fun mouseReact =>
  Normal {| io_color := color; io_speed := speed;
            io_amplitude := amplitude;
            io_mouseReact := mouseReact |})))).

(** The object literal [options] of the Hyperspeed branch of the scan. *)
Definition hyperspeed_options (container : element)
  : completion HyperspeedDeclared :=
  let colors := Opt.colours defaultHyperspeedOptions in
  cbind (parseData container "data-length" (number_of 400))
    (fun length =>
  cbind (parseData container "data-road-width" (number_of 10))
    (fun roadWidth =>
  cbind (parseData container "data-island-width" (number_of 2))
    (fun islandWidth =>
  cbind (parseData container "data-lanes-per-road" (number_of 4))
    (fun lanesPerRoad =>
  cbind (parseData container "data-fov" (number_of 90))
    (fun fov =>
  cbind (parseData container "data-fov-speed-up" (number_of 150))
    (fun fovSpeedUp =>
  cbind (parseData container "data-speed-up" (number_of 2))
    (fun speedUp =>
  cbind (parseData container "data-distortion"
           (VString "turbulentDistortion"))
    (fun distortion =>
  cbind (parseData container "data-left-cars" (Opt.leftCars colors))
    (fun leftCars =>
  cbind (parseData container "data-right-cars" (Opt.rightCars colors))
    (fun rightCars =>
  cbind (parseData container "data-shoulder-lines"
           (Opt.shoulderLines colors))
    (fun shoulderLines =>
  cbind (parseData container "data-broken-lines"
           (Opt.brokenLines colors))
    (fun brokenLines =>
  cbind (parseData container "data-road-color" (Opt.roadColor colors))
    (fun roadColor =>
  cbind (parseData container "data-island-color"
           (Opt.islandColor colors))
    (fun islandColor =>
  cbind (parseData container "data-background" (Opt.background colors))
    (fun background =>
  Normal {| ho_length := length;
            ho_roadWidth := roadWidth;
            ho_islandWidth := islandWidth;
            ho_lanesPerRoad := lanesPerRoad;
            ho_fov := fov;
            ho_fovSpeedUp := fovSpeedUp;
            ho_speedUp := speedUp;
            ho_distortion := distortion;
            ho_colors :=
              {| dc_leftCars := leftCars;
                 dc_rightCars := rightCars;
                 dc_shoulderLines := shoulderLines;
                 dc_brokenLines := brokenLines;
                 dc_roadColor := roadColor;
                 dc_islandColor := islandColor;
                 dc_background := background |} |}))))))))))))))).

(** The body of the [forEach] of the first [DOMContentLoaded] handler, for
    one container: the options are resolved and handed to the constructor
    of the effect that [data-effect] names.  [newIridescence] and
    [newHyperspeed] are the two [new] expressions, as far as the body
    depends on them: whether they return or throw.  The result is [None]
    when [data-effect] names neither effect.  (The loop that first removes
    the children of the container has no part in the result.) *)
Definition scan (newIridescence : IridescenceOptions -> completion unit)
    (newHyperspeed : HyperspeedDeclared -> completion unit)
    (container : element) : completion (option Effect) :=
  match getAttribute container "data-effect" with
  | Some effectType =>
      if String.eqb effectType "iridescence" then
        cbind (iridescence_options container)
          (fun options =>
        cbind (newIridescence options)
          (fun _ => Normal (Some (Iridescence options))))
      else if String.eqb effectType "hyperspeed" then
        cbind (hyperspeed_options container)
          (fun options =>
        cbind (newHyperspeed options)
          (fun _ => Normal (Some (Hyperspeed options))))
      else Normal None
  | None => Normal None
  end.

(** The options that the scan hands over when the container declares no
    parameter. *)
Definition default_iridescence : IridescenceOptions :=
  {| io_color := VArray [number_of 0.5; number_of 0.7; number_of 1.0];
     io_speed := number_of 0.7;
     io_amplitude := number_of 0.2;
     io_mouseReact := VBool true |}.

Definition default_hyperspeed : HyperspeedDeclared :=
  let colors := Opt.colours defaultHyperspeedOptions in
  {| ho_length := number_of 400;
     ho_roadWidth := number_of 10;
     ho_islandWidth := number_of 2;
     ho_lanesPerRoad := number_of 4;
     ho_fov := number_of 90;
     ho_fovSpeedUp := number_of 150;
     ho_speedUp := number_of 2;
     ho_distortion := VString "turbulentDistortion";
     ho_colors :=
       {| dc_leftCars := Opt.leftCars colors;
          dc_rightCars := Opt.rightCars colors;
          dc_shoulderLines := Opt.shoulderLines colors;
          dc_brokenLines := Opt.brokenLines colors;
          dc_roadColor := Opt.roadColor colors;
          dc_islandColor := Opt.islandColor colors;
          dc_background := Opt.background colors |} |}.

(** The keys that the scan reads, beside [data-effect]. *)
Definition scanned_keys : list string :=
  ["data-color"; "data-speed"; "data-amplitude"; "data-mouse-react";
   "data-length"; "data-road-width"; "data-island-width";
   "data-lanes-per-road"; "data-fov"; "data-fov-speed-up"; "data-speed-up";
   "data-distortion"; "data-left-cars"; "data-right-cars";
   "data-shoulder-lines"; "data-broken-lines"; "data-road-color";
   "data-island-color"; "data-background"].

(** ** The looping scroller *)

(** The scroll container, as far as the two click handlers read and write
    it. *)
Record Scroller : Type := {
  sc_scrollLeft : R;
  sc_scrollWidth : R;
  sc_clientWidth : R
}.

(** The scroll position at the end of the content. *)
Definition scroll_end (c : Scroller) : R :=
  sc_scrollWidth c - sc_clientWidth c.

(** Modelled from the spec: the scroll position of an element (the DOM, not
    part of this repository) stays between 0 and
    [scrollWidth - clientWidth]: an assignment to [scrollLeft], or a
    [scrollBy], that goes beyond an end stops at that end. *)
Definition scroll_to (x : R) (c : Scroller) : Scroller :=
  {| sc_scrollLeft := Rmax 0 (Rmin x (scroll_end c));
     sc_scrollWidth := sc_scrollWidth c;
     sc_clientWidth := sc_clientWidth c |}.

(** [container.scrollBy({ left, behavior: 'smooth' })], once the scroll has
    come to rest. *)
Definition scrollBy (left : R) (c : Scroller) : Scroller :=
  scroll_to (sc_scrollLeft c + left) c.

(** The container is laid out and its position is between the two ends. *)
Definition in_range (c : Scroller) : Prop :=
  (0 <= sc_clientWidth c <= sc_scrollWidth c
   /\ 0 <= sc_scrollLeft c <= scroll_end c)%R.

Definition scrollAmount : R := 200.

Definition scrollLeft (c : Scroller) : Scroller :=
  if Rle_dec (sc_scrollLeft c) 0 then scroll_to (sc_scrollWidth c) c
  else scrollBy (- scrollAmount) c.

Definition scrollRight (c : Scroller) : Scroller :=
  if Rge_dec (sc_scrollLeft c + sc_clientWidth c) (sc_scrollWidth c - 10)
  then scroll_to 0 c
  else scrollBy scrollAmount c.

(** A text without a numeric prefix: after the leading white space and an
    optional sign comes neither [Infinity], nor a digit, nor a full stop
    with a digit after it. *)
Definition no_numeric_prefix (s : string) : bool :=
  let (_, t) := read_sign (trimStart s) in
  negb (startsWith t "Infinity")
  && match t with
     | EmptyString => true
     | String c r =>
         match digit_of c with
         | Some _ => false
         | None =>
             if Ascii.eqb c "."
             then match r with
                  | EmptyString => true
                  | String c2 _ =>
                      match digit_of c2 with
                      | Some _ => false
                      | None => true
                      end
                  end
             else true
         end
     end.

(* ================================================================= *)
(** * 6. Properties of the attribute resolver *)
(* ================================================================= *)

Section Resolver.

Local Open Scope string_scope.

Lemma string_or_nonempty (s : string) (d : value) :
  s <> "" -> string_or s d = VString s.
Proof. destruct s; [congruence | reflexivity]. Qed.

Lemma try_catch_returns {A} (body : completion A) (a : A) :
  exists r, try_catch body (Normal a) = Normal r.
Proof. destruct body; simpl; eauto. Qed.

(** [parseData] returns for every element, key and default. *)
Lemma parseData_returns (el : element) (key : string) (d : value) :
  exists v, parseData el key d = Normal v.
Proof.
  unfold parseData.
  destruct (getAttribute el key) as [s|]; [|eauto].
  apply try_catch_returns.
Qed.

Lemma parseData_absent (el : element) (key : string) (d : value) :
  getAttribute el key = None -> parseData el key d = Normal d.
Proof. unfold parseData; intros ->; reflexivity. Qed.

Lemma parseData_numeric (el : element) (key s : string) (d : value) :
  getAttribute el key = Some s -> numeric_key key = true ->
  parseData el key d = Normal (VNumber (parseFloat s)).
Proof. unfold parseData; intros -> ->; reflexivity. Qed.

Lemma parseData_other (el : element) (key s : string) (d : value) :
  getAttribute el key = Some s ->
  numeric_key key = false -> color_key key = false ->
  boolean_key key = false ->
  parseData el key d =
  match JSON_parse s with
  | Normal v => Normal v
  | Throw _ => Normal (string_or s d)
  end.
Proof.
  unfold parseData; intros -> -> -> ->.
  destruct (JSON_parse s); reflexivity.
Qed.

(** *** [parseFloat] on a decimal numeral *)

Lemma digit_cases (d : Z) :
  is_digit d ->
  (d = 0 \/ d = 1 \/ d = 2 \/ d = 3 \/ d = 4 \/ d = 5 \/ d = 6 \/ d = 7
   \/ d = 8 \/ d = 9)%Z.
Proof. unfold is_digit; lia. Qed.

Ltac each_digit d H :=
  destruct (digit_cases d H) as [-> | [-> | [-> | [-> | [-> | [-> | [-> |
    [-> | [-> | ->]]]]]]]]].

Lemma digit_of_digit_char (d : Z) :
  is_digit d -> digit_of (digit_char d) = Some d.
Proof. intros H; each_digit d H; reflexivity. Qed.

(** A text starts with no digit. *)
Definition no_digit_ahead (s : string) : Prop :=
  match s with
  | EmptyString => True
  | String c _ => digit_of c = None
  end.

Lemma span_digits_text (ds : list Z) (rest : string) :
  Forall is_digit ds -> no_digit_ahead rest ->
  span_digits digit_of (digits_text ds ++ rest) = (ds, rest).
Proof.
  intros Hds Hrest; induction Hds as [|d ds Hd _ IH]; simpl.
  - destruct rest as [|c r]; simpl in *; [reflexivity | now rewrite Hrest].
  - now rewrite (digit_of_digit_char d Hd), IH.
Qed.

Lemma trimStart_head (c : ascii) (r : string) :
  is_space c = false -> (code c < 194)%Z ->
  trimStart (String c r) = String c r.
Proof.
  intros Hs Hc; simpl; rewrite Hs.
  destruct r as [|c2 [|c3 r3]]; try reflexivity.
  - replace (code c =? 194)%Z with false by (symmetry; apply Z.eqb_neq; lia).
    reflexivity.
  - replace (code c =? 194)%Z with false by (symmetry; apply Z.eqb_neq; lia).
    simpl. unfold is_space3.
    replace (code c =? 225)%Z with false by (symmetry; apply Z.eqb_neq; lia).
    replace (code c =? 226)%Z with false by (symmetry; apply Z.eqb_neq; lia).
    replace (code c =? 227)%Z with false by (symmetry; apply Z.eqb_neq; lia).
    replace (code c =? 239)%Z with false by (symmetry; apply Z.eqb_neq; lia).
    reflexivity.
Qed.

Lemma digit_char_plain (d : Z) :
  is_digit d ->
  is_space (digit_char d) = false /\ (code (digit_char d) < 194)%Z
  /\ (forall r, read_sign (String (digit_char d) r)
                = (false, String (digit_char d) r))
  /\ (forall r, startsWith (String (digit_char d) r) "Infinity" = false)
  /\ (forall r, match String (digit_char d) r with
                | String "." _ => False
                | _ => True
                end).
Proof. intros H; each_digit d H; repeat split; vm_compute; congruence. Qed.

(** The unsigned part of a decimal numeral is read back as its digits. *)
Lemma parseFloat_unsigned (neg : bool) (ip fp : list Z) :
  Forall is_digit ip -> Forall is_digit fp -> ip <> [] \/ fp <> [] ->
  let t := (digits_text ip
            ++ match fp with [] => "" | _ => String "." (digits_text fp) end)
  in
  read_sign t = (false, t) /\ trimStart t = t /\
  startsWith t "Infinity" = false /\
  (let (ip', t2) := span_digits digit_of t in
   let (fp', t3) := match t2 with
                    | String "." r => span_digits digit_of r
                    | _ => ([], t2)
                    end in
   ip' = ip /\ fp' = fp /\ t3 = "").
Proof.
  intros Hip Hfp Hne t.
  assert (Hfp' : span_digits digit_of (digits_text fp) = (fp, "")).
  { rewrite <- (span_digits_text fp "" Hfp I) at 1.
    f_equal. clear. induction (digits_text fp); simpl; congruence. }
  assert (Htail : no_digit_ahead
                    match fp with [] => "" | _ => String "." (digits_text fp) end).
  { destruct fp; simpl; auto. }
  assert (Hspan := span_digits_text ip _ Hip Htail).
  fold t in Hspan.
  repeat split.
  - subst t. destruct Hip as [|d ip Hd Hip]; simpl.
    + destruct fp; [tauto | reflexivity].
    + apply (digit_char_plain d Hd).
  - subst t. destruct Hip as [|d ip Hd Hip]; simpl.
    + destruct fp; [tauto |]. apply trimStart_head; vm_compute; congruence.
    + apply trimStart_head; apply (digit_char_plain d Hd).
  - subst t. destruct Hip as [|d ip Hd Hip]; simpl.
    + destruct fp; [tauto | reflexivity].
    + apply (digit_char_plain d Hd).
  - rewrite Hspan. destruct fp as [|f fp]; [now repeat split |].
    rewrite Hfp'. now repeat split.
Qed.

(** [parseFloat] of a decimal numeral is the number the numeral writes. *)
Lemma parseFloat_decimal_text (neg : bool) (ip fp : list Z) :
  Forall is_digit ip -> Forall is_digit fp -> ip <> [] \/ fp <> [] ->
  parseFloat (decimal_text neg ip fp)
  = Num (MV (Decimal neg (digits_value 10 (ip ++ fp))
                     (- Z.of_nat (List.length fp)))).
Proof.
  intros Hip Hfp Hne.
  destruct (parseFloat_unsigned neg ip fp Hip Hfp Hne)
    as (Hsign & Htrim & Hinf & Hscan).
  unfold parseFloat, decimal_text.
  set (t := (digits_text ip ++ _)%string) in *.
  assert (Hhead : read_sign (trimStart ((if neg then "-" else "") ++ t))
                  = (neg, t)).
  { destruct neg.
    - change ("-" ++ t)%string with (String "-" t).
      rewrite (trimStart_head "-" t) by (vm_compute; congruence).
      reflexivity.
    - change ("" ++ t)%string with t. now rewrite Htrim. }
  rewrite Hhead, Hinf.
  destruct (span_digits digit_of t) as [ip' t2].
  destruct (match t2 with
            | String "." r => span_digits digit_of r
            | _ => ([], t2)
            end) as [fp' t3].
  destruct Hscan as (-> & -> & ->).
  destruct ip as [|i ip]; destruct fp as [|f fp]; try tauto; reflexivity.
Qed.

(** [parseFloat] gives [NaN] for the texts without a numeric prefix, and
    for no other. *)
Lemma parseFloat_NaN (s : string) :
  parseFloat s = NaN <-> no_numeric_prefix s = true.
Proof.
  unfold parseFloat, no_numeric_prefix.
  destruct (read_sign (trimStart s)) as [neg t].
  destruct (startsWith t "Infinity") eqn:Einf;
    [simpl; split; discriminate |].
  clear Einf. cbn [negb andb].
  destruct t as [|c r]; [simpl; tauto |].
  cbn [span_digits].
  destruct (digit_of c) as [d|] eqn:Ed.
  - destruct (span_digits digit_of r) as [ds r'].
    destruct (match r' with
              | String "." r0 => span_digits digit_of r0
              | _ => ([], r')
              end) as [fp t3].
    split; discriminate.
  - destruct (Ascii.eqb_spec c ".") as [-> | Hc].
    + destruct r as [|c2 r2]; [simpl; tauto |].
      cbn [span_digits].
      destruct (digit_of c2) as [d2|].
      * destruct (span_digits digit_of r2) as [ds r']. split; discriminate.
      * tauto.
    + destruct c as [[] [] [] [] [] [] [] []];
        first [ now (exfalso; apply Hc) | discriminate Ed | tauto ].
Qed.

(** C4 (as amended): [parseData] never throws.  An absent attribute gives the
    default.  A declared attribute whose key matches the numeric name
    heuristic gives [parseFloat] of its text: the number that a decimal
    numeral writes, and [NaN] (neither the default nor the raw text) when
    the text has no numeric prefix, and then only.  For a key outside the numeric heuristic
    whose text goes to [JSON.parse] and is rejected, the result is the raw
    text when it is not empty and the default otherwise. *)
Theorem parseData_resolution (el : element) (key : string) (d : value) :
  (exists v, parseData el key d = Normal v)
  /\ (getAttribute el key = None -> parseData el key d = Normal d)
  /\ (forall s, getAttribute el key = Some s -> numeric_key key = true ->
        parseData el key d = Normal (VNumber (parseFloat s)))
  /\ (forall neg ip fp,
        Forall is_digit ip -> Forall is_digit fp -> ip <> [] \/ fp <> [] ->
        getAttribute el key = Some (decimal_text neg ip fp) ->
        numeric_key key = true ->
        parseData el key d
        = Normal (VNumber (Num (MV (Decimal neg (digits_value 10 (ip ++ fp))
                                            (- Z.of_nat (List.length fp)))))))
  /\ (forall s, getAttribute el key = Some s -> numeric_key key = true ->
        (parseData el key d = Normal (VNumber NaN)
         <-> no_numeric_prefix s = true))
  /\ (forall s e, getAttribute el key = Some s -> numeric_key key = false ->
        (color_key key = true ->
         startsWith s "[" || startsWith s "{" = true) ->
        (color_key key = false -> boolean_key key = false) ->
        JSON_parse s = Throw e ->
        parseData el key d = Normal (string_or s d)).
Proof.
  split; [apply parseData_returns |].
  split; [apply parseData_absent |].
  split; [intros s; apply parseData_numeric |].
  split; [| split].
  - intros neg ip fp Hip Hfp Hne Hs Hk.
    rewrite (parseData_numeric _ _ _ _ Hs Hk).
    now rewrite parseFloat_decimal_text.
  - intros s Hs Hk.
    rewrite (parseData_numeric _ _ _ _ Hs Hk), <- parseFloat_NaN.
    split; [intros H; now inversion H | now intros ->].
  - intros s e Hs Hn Hc Hb Hj.
    unfold parseData; rewrite Hs, Hn.
    destruct (color_key key) eqn:Ec.
    + rewrite (Hc eq_refl), Hj. reflexivity.
    + rewrite (Hb eq_refl), Hj. reflexivity.
Qed.

(** An instance of [parseData_resolution]: [data-speed="-12.5"] resolves to
    the number -125 * 10^-1, [data-speed="fast"], which has no numeric
    prefix, to [NaN], and [data-distortion="wavy"], which is no JSON text,
    to the raw text. *)
Lemma parseData_resolution_witness :
  parseData [("data-speed", "-12.5")] "data-speed" VNull
  = Normal (VNumber (Num (MV (Decimal true 125 (-1)))))
  /\ parseData [("data-speed", "fast")] "data-speed" VNull
     = Normal (VNumber NaN)
  /\ parseData [("data-distortion", "wavy")] "data-distortion" VNull
     = Normal (VString "wavy").
Proof.
  destruct (parseData_resolution [("data-speed", "-12.5")] "data-speed" VNull)
    as (_ & _ & _ & Hnum & _).
  destruct (parseData_resolution [("data-speed", "fast")] "data-speed" VNull)
    as (_ & _ & _ & _ & Hnan & _).
  destruct (parseData_resolution [("data-distortion", "wavy")]
                                 "data-distortion" VNull)
    as (_ & _ & _ & _ & _ & Hraw).
  split; [| split].
  - apply (Hnum true [1; 2]%Z [5]%Z).
    + repeat constructor; unfold is_digit; lia.
    + repeat constructor; unfold is_digit; lia.
    + left; discriminate.
    + reflexivity.
    + reflexivity.
  - apply (Hnan "fast"); reflexivity.
  - apply (Hraw "wavy" SyntaxError).
    + reflexivity.
    + reflexivity.
    + discriminate.
    + reflexivity.
    + reflexivity.
Defined.

(** C4 (as stated) fails: a text without a numeral under a numeric key
    resolves to [NaN], which is neither the default nor the raw text; and a
    numeric text under a colour key resolves to the text, not to a float. *)
Lemma parseData_counterexample :
  parseData [("data-speed", "fast")] "data-speed" (VNumber (Num 0.7))
  = Normal (VNumber NaN)
  /\ VNumber NaN <> VNumber (Num 0.7)
  /\ VNumber NaN <> VString "fast"
  /\ parseData [("data-left-cars", "5")] "data-left-cars" VNull
     = Normal (VString "5").
Proof.
  repeat split; try reflexivity; discriminate.
Qed.

(** C10: for a key that none of the three name heuristics matches, an
    attribute declared with the empty text resolves to the default; the raw
    text is the fallback only when it is not empty. *)
Theorem parseData_empty_unmatched (el : element) (key : string) (d : value) :
  numeric_key key = false -> color_key key = false ->
  boolean_key key = false ->
  (getAttribute el key = Some "" -> parseData el key d = Normal d)
  /\ (forall s e, getAttribute el key = Some s -> s <> "" ->
        JSON_parse s = Throw e -> parseData el key d = Normal (VString s)).
Proof.
  intros Hn Hc Hb; split.
  - intros Hs. rewrite (parseData_other _ _ _ _ Hs Hn Hc Hb). reflexivity.
  - intros s e Hs Hne Hj.
    rewrite (parseData_other _ _ _ _ Hs Hn Hc Hb), Hj.
    now rewrite string_or_nonempty.
Qed.

Lemma parseData_empty_unmatched_witness :
  parseData [("data-distortion", "")] "data-distortion"
            (VString "turbulentDistortion")
  = Normal (VString "turbulentDistortion").
Proof.
  apply (parseData_empty_unmatched [("data-distortion", "")]
           "data-distortion" (VString "turbulentDistortion"));
    reflexivity.
Defined.

End Resolver.

(* ================================================================= *)
(** * 7. Running the methods of an instance *)
(* ================================================================= *)

(** The methods are run on an instance whose fields are variables: the
    monad, the methods, the setters and the projections are unfolded, and
    nothing else. *)
Ltac exec :=
  lazy beta iota zeta delta
  [
   tick update render resizeRendererToDisplaySize setSize composer_setSize_
   renderer_setSize_ onWindowResize onMouseDown onMouseUp dispose
   removeChild_ removeEventListener_ try_ bind defined get modify when emit
   throw ret fst snd canvas_resized set_aspect set_attached set_calls
   set_camera set_canvas set_disposed set_elapsedTime set_fov set_fovTarget
   set_listeners set_lookingAt set_offsetHeight set_offsetWidth set_speedUp
   set_speedUpTarget set_timeOffset set_uniforms constructed options
   disposed fovTarget speedUpTarget speedUp timeOffset camera elapsedTime
   uniforms pixelRatio canvas attached offsetWidth offsetHeight listeners
   calls width height clientWidth clientHeight fov aspect position
   lookingAt
  ].

Ltac on_instance this :=
  destruct this; cbn [constructed disposed] in *; subst.

Section Frames.

Local Open Scope R_scope.

(** A frame of a live instance returns; it moves [speedUp] by [lerp] and
    leaves the target, the options and the flags as they are. *)
Lemma tick_state (delta : R) (this : HyperspeedApp) :
  constructed this = true -> disposed this = false ->
  let s := snd (tick delta this) in
  fst (tick delta this) = Normal tt
  /\ speedUp s
     = speedUp this
       + lerp (speedUp this) (speedUpTarget this) (lerpPercentage delta)
              0.00001
  /\ speedUpTarget s = speedUpTarget this
  /\ constructed s = true /\ disposed s = false
  /\ options s = options this.
Proof.
  intros Hc Hd. on_instance this. exec.
  destruct (needResize _); exec;
    destruct (Req_dec_T _ _); exec; repeat split; auto.
Qed.

End Frames.

(* ================================================================= *)
(** * 8. Properties of the easing *)
(* ================================================================= *)

Section Easing.

Local Open Scope R_scope.

Lemma log2_09_negative : log2 (1 - 0.1) < 0.
Proof.
  unfold log2.
  assert (H1 : ln (1 - 0.1) < 0).
  { rewrite <- ln_1. apply ln_increasing; lra. }
  assert (H2 : 0 < ln 2).
  { rewrite <- ln_1. apply ln_increasing; lra. }
  unfold Rdiv.
  assert (0 < / ln 2) by now apply Rinv_0_lt_compat.
  nra.
Qed.

(** The interpolation factor of a frame lies strictly between 0 and 1. *)
Lemma lerpPercentage_bounds (delta : R) :
  0 < delta -> 0 < lerpPercentage delta < 1.
Proof.
  intros Hd; unfold lerpPercentage; split; [apply exp_pos |].
  generalize log2_09_negative; generalize (log2 (1 - 0.1)); intros L HL.
  rewrite <- exp_0. apply exp_increasing.
  assert (L * delta < 0) by nra.
  replace (- (-60 * L) * delta) with (60 * (L * delta)) by ring.
  lra.
Qed.

(** One step of [lerp] toward a target above: no step back, no overshoot,
    and either the target is reached or the gap shrinks by [limit]. *)
Lemma lerp_step (c t p limit : R) :
  0 < p < 1 -> 0 < limit -> c <= t ->
  let c' := c + lerp c t p limit in
  c <= c' <= t /\ (c' = t \/ t - c' <= t - c - limit).
Proof.
  intros Hp Hl Hc c'; subst c'; unfold lerp.
  destruct (Rlt_dec (Rabs ((t - c) * p)) limit) as [Hsnap | Hgo].
  - split; [lra | left; lra].
  - assert (Hge : limit <= (t - c) * p).
    { rewrite Rabs_right in Hgo by nra. lra. }
    split; [nra | right; nra].
Qed.

Lemma lerp_at_target (t p limit : R) : 0 < limit -> lerp t t p limit = 0.
Proof.
  intros Hl; unfold lerp.
  replace ((t - t) * p) with 0 by ring.
  rewrite Rabs_R0.
  destruct (Rlt_dec 0 limit); [ring | contradiction].
Qed.

Lemma frame_bound_enough (target : R) :
  0 < target -> target < INR (frame_bound target) * 0.00001.
Proof.
  intros Ht; unfold frame_bound.
  destruct (archimed (target * 100000)) as [Hup _].
  assert (Hpos : (0 < up (target * 100000))%Z).
  { apply lt_IZR. lra. }
  rewrite INR_IZR_INZ, Z2Nat.id by lia.
  lra.
Qed.

(** While the target stays put, a run of frames keeps [speedUp] at or
    below it, and every frame either reaches it or takes 0.00001 off the
    gap. *)
Lemma frames_gap (deltas : list R) :
  Forall (fun d => 0 < d) deltas ->
  forall (this : HyperspeedApp) (gap : R) (k : nat),
  constructed this = true -> disposed this = false ->
  speedUp this <= speedUpTarget this ->
  (speedUp this = speedUpTarget this
   \/ speedUpTarget this - speedUp this <= gap - INR k * 0.00001) ->
  let s := frames deltas this in
  constructed s = true /\ disposed s = false
  /\ speedUpTarget s = speedUpTarget this
  /\ options s = options this
  /\ speedUp s <= speedUpTarget s
  /\ (speedUp s = speedUpTarget s
      \/ speedUpTarget s - speedUp s
         <= gap - INR (k + List.length deltas) * 0.00001).
Proof.
  induction 1 as [|d deltas Hd _ IH]; intros this gap k Hc Hdis Hle Hgap.
  - simpl. rewrite Nat.add_0_r. tauto.
  - destruct (tick_state d this Hc Hdis) as (_ & Hs & Ht & Hc' & Hd' & Ho).
    destruct (lerp_step (speedUp this) (speedUpTarget this)
                (lerpPercentage d) 0.00001
                (lerpPercentage_bounds d Hd) ltac:(lra) Hle)
      as (Hmono & Hstep).
    rewrite <- Hs, <- Ht in Hmono, Hstep.
    specialize (IH (snd (tick d this)) gap (S k) Hc' Hd' (proj2 Hmono)).
    assert (Hgap' :
              speedUp (snd (tick d this)) = speedUpTarget (snd (tick d this))
              \/ speedUpTarget (snd (tick d this))
                 - speedUp (snd (tick d this))
                 <= gap - INR (S k) * 0.00001).
    { destruct Hstep as [Hr | Hr]; [now left |].
      destruct Hgap as [Heq | Hg].
      - left. rewrite Hs, Ht, Heq, lerp_at_target by lra. ring.
      - right. rewrite S_INR. rewrite Ht in Hr |- *. lra. }
    specialize (IH Hgap').
    change (frames (d :: deltas) this)
      with (frames deltas (snd (tick d this))).
    replace (k + List.length (d :: deltas))%nat
      with (S k + List.length deltas)%nat by (simpl; lia).
    cbv zeta in IH. rewrite Ht, Ho in IH. exact IH.
Qed.

(** C3: after a press sets [speedUpTarget] to the positive boost
    [options.speedUp], from [speedUp = 0] and through frames of positive
    deltas, every frame returns, [speedUp] never decreases from one frame to
    the next, never exceeds the target, and equals it after
    [frame_bound target] frames. *)
Theorem speedUp_easing (this : HyperspeedApp) (deltas : list R) (delta : R) :
  constructed this = true -> disposed this = false ->
  speedUp this = 0 -> 0 < Opt.speedUp (options this) ->
  Forall (fun d => 0 < d) deltas -> 0 < delta ->
  let target := Opt.speedUp (options this) in
  let s := frames deltas (snd (onMouseDown this)) in
  speedUpTarget s = target
  /\ fst (tick delta s) = Normal tt
  /\ speedUp s <= speedUp (snd (tick delta s)) <= target
  /\ ((frame_bound target <= List.length deltas)%nat -> speedUp s = target).
Proof.
  intros Hc Hdis H0 Hpos Hds Hdelta target s.
  set (pressed := snd (onMouseDown this)) in *.
  assert (Hp : constructed pressed = true /\ disposed pressed = false
               /\ speedUp pressed = 0 /\ speedUpTarget pressed = target
               /\ options pressed = options this).
  { subst pressed target. on_instance this. repeat split; auto. }
  destruct Hp as (Hpc & Hpd & Hp0 & Hpt & Hpo).
  destruct (frames_gap deltas Hds pressed target O Hpc Hpd
              ltac:(rewrite Hp0, Hpt; subst target; lra)
              ltac:(right; rewrite Hp0, Hpt; simpl; lra))
    as (Hsc & Hsd & Hst & Hso & Hle & Hgap).
  fold s in Hsc, Hsd, Hst, Hso, Hle, Hgap.
  rewrite Hpt in Hst. rewrite Hst in Hle, Hgap.
  destruct (tick_state delta s Hsc Hsd) as (Hret & Hs & Ht & _).
  destruct (lerp_step (speedUp s) target (lerpPercentage delta) 0.00001
              (lerpPercentage_bounds delta Hdelta) ltac:(lra) Hle)
    as (Hmono & _).
  rewrite Hst in Hs. rewrite <- Hs in Hmono.
  repeat split; try tauto.
  intros Hn. destruct Hgap as [Heq | Hg]; [exact Heq |].
  pose proof (frame_bound_enough target Hpos) as Hb.
  apply le_INR in Hn. simpl in Hg. nra.
Qed.

(** An instance of [speedUp_easing]: the default options, one frame of a
    sixtieth of a second after the press, and the next. *)
Lemma speedUp_easing_witness :
  let this := constructor {| libraries := true; devicePixelRatio := 1;
                             host_offsetWidth := 800;
                             host_offsetHeight := 600;
                             host_clientWidth := 800;
                             host_clientHeight := 600 |}
                          defaultHyperspeedOptions in
  let s := frames [/ 60] (snd (onMouseDown this)) in
  speedUpTarget s = 2
  /\ fst (tick (/ 60) s) = Normal tt
  /\ speedUp s <= speedUp (snd (tick (/ 60) s)) <= 2
  /\ ((frame_bound 2 <= 1)%nat -> speedUp s = 2).
Proof.
  apply (speedUp_easing
           (constructor {| libraries := true; devicePixelRatio := 1;
                           host_offsetWidth := 800;
                           host_offsetHeight := 600;
                           host_clientWidth := 800;
                           host_clientHeight := 600 |}
                        defaultHyperspeedOptions)
           [/ 60] (/ 60)).
  - reflexivity.
  - reflexivity.
  - reflexivity.
  - simpl. lra.
  - repeat constructor. lra.
  - lra.
Defined.

End Easing.

(* ================================================================= *)
(** * 9. Properties of the colours *)
(* ================================================================= *)

Section Colours.

Local Open Scope R_scope.
Local Open Scope string_scope.

Lemma setHex_integer (h : Z) :
  setHex (Num (IZR h))
  = RGB (IZR (Z.land (Z.shiftr h 16) 255) / 255)
        (IZR (Z.land (Z.shiftr h 8) 255) / 255)
        (IZR (Z.land h 255) / 255).
Proof. unfold setHex, floor. now rewrite ZfloorZ. Qed.

(** The two text forms go through the same [parseInt]. *)
Lemma hexToColor_hash (h : string) :
  hexToColor (VString (String "#" h)) = THREE_Color (VNumber (parseInt16 h)).
Proof. destruct h; reflexivity. Qed.

Lemma hexToColor_0x (h : string) :
  hexToColor (VString (String "0" (String "x" h)))
  = THREE_Color (VNumber (parseInt16 h)).
Proof. destruct h; reflexivity. Qed.



End Colours.

(* ================================================================= *)
(** * 10. Properties of the turbulent distortion *)
(* ================================================================= *)

Section Distortion.

Local Open Scope R_scope.

Lemma getDistortionX_formula (t p : R) :
  GLSL.getDistortionX turbulent_uFreq turbulent_uAmp t p
  = turbulentX GLSL.PI t p.
Proof. reflexivity. Qed.

Lemma getDistortionY_formula (t p : R) :
  GLSL.getDistortionY turbulent_uFreq turbulent_uAmp t p
  = turbulentY GLSL.PI t p.
Proof.
  unfold GLSL.getDistortionY, turbulentY; simpl. lra.
Qed.

Lemma getX_formula (t p : R) : getX t p = turbulentX PI t p.
Proof. reflexivity. Qed.

Lemma getY_formula (t p : R) : getY t p = turbulentY PI t p.
Proof. unfold getY, turbulentY; simpl. lra. Qed.

(** C6 (as amended): the two sides of [turbulentDistortion] share the
    per-axis formulas, with the same frequency and amplitude constants (the
    shader text writes pi as 3.14159265358979), but not the offset they
    return: [getDistortion] is the displacement relative to progress 0.0125,
    with z = 0, and [getJS] is the difference over a step of 0.007 in
    progress, scaled by (-2, -5, 0) and moved by (0, 0, -10). *)
Theorem turbulent_two_sides (time progress : R) :
  getDistortion time progress
  = vec3 (turbulentX GLSL.PI time progress - turbulentX GLSL.PI time 0.0125)
         (turbulentY GLSL.PI time progress - turbulentY GLSL.PI time 0.0125)
         0
  /\ getJS progress time
     = vec3 (-2 * (turbulentX PI time progress
                   - turbulentX PI time (progress + 0.007)))
            (-5 * (turbulentY PI time progress
                   - turbulentY PI time (progress + 0.007)))
            (-10).
Proof.
  split.
  - unfold getDistortion, GLSL.getDistortion.
    now rewrite !getDistortionX_formula, !getDistortionY_formula.
  - unfold getJS, add, multiply; cbn [v3x v3y v3z].
    rewrite (getX_formula time progress),
      (getX_formula time (progress + 0.007)),
      (getY_formula time progress),
      (getY_formula time (progress + 0.007)).
    f_equal; lra.
Qed.

(** C6 (as stated) fails: at progress 1/2 and time 0 the z components of the
    two offsets are 0 and -10. *)
Lemma turbulent_counterexample :
  v3z (getDistortion 0 (1 / 2)) = 0
  /\ v3z (getJS (1 / 2) 0) = -10
  /\ getDistortion 0 (1 / 2) <> getJS (1 / 2) 0.
Proof.
  assert (Hz : v3z (getJS (1 / 2) 0) = -10).
  { unfold getJS, add, multiply; cbn [v3x v3y v3z]. lra. }
  split; [reflexivity |]. split; [exact Hz |].
  intros H. rewrite <- H in Hz. simpl in Hz. lra.
Qed.

End Distortion.

(* ================================================================= *)
(** * 11. Properties of the car lights *)
(* ================================================================= *)

Section CarLightsGeometry.

Local Open Scope R_scope.
Local Open Scope list_scope.

Lemma unit_draws_drop (k : nat) (g : rng) :
  unit_draws g -> unit_draws (drop k g).
Proof. intros H n; apply H. Qed.

(** [Math.floor(u * n)] is an index of an array of [n] elements. *)
Lemma floor_index (u : R) (n : nat) :
  0 <= u < 1 -> (0 < n)%nat ->
  (0 <= floor (u * INR n) < Z.of_nat n)%Z.
Proof.
  intros Hu Hn. unfold floor.
  assert (Hpos : 0 < INR n) by (apply lt_0_INR; lia).
  destruct (Zfloor_bound (u * INR n)) as [Hlo Hhi].
  split.
  - apply Zfloor_lub. simpl. nra.
  - apply lt_IZR. rewrite <- INR_IZR_INZ. nra.
Qed.

Lemma pickRandom_run (colors : list Color) (g : rng) :
  colors <> [] -> 0 <= g O < 1 ->
  exists c, pickRandom colors g = (Normal (Some c), drop 1 g).
Proof.
  intros Hne Hu.
  assert (Hlen : (0 < List.length colors)%nat).
  { destruct colors; [congruence | simpl; lia]. }
  destruct (floor_index (g O) (List.length colors) Hu Hlen) as [Hlo Hhi].
  unfold pickRandom, Math_random, bind, ret.
  destruct (nth_error colors (Z.to_nat (floor (g O * INR (List.length colors)))))
    as [c|] eqn:E.
  - exists c.
    replace (floor (g O * INR (List.length colors)) <? 0)%Z with false
      by (symmetry; apply Z.ltb_ge; lia).
    reflexivity.
  - apply nth_error_None in E. lia.
Qed.

(** One turn of the loop returns, after eight draws, with the offsets of
    [pair_offsets] appended. *)
Lemma init_pair_run (this : CarLights) (colors : list Color) (i : nat)
    (acc : buffers) (g : rng) :
  colors <> [] -> unit_draws g ->
  exists acc',
    init_pair this colors i acc g = (Normal acc', drop 8 g)
    /\ b_aOffset acc' = b_aOffset acc ++ pair_offsets this g i.
Proof.
  intros Hne Hg.
  destruct (pickRandom_run colors (drop 7 g) Hne (Hg 7%nat)) as [c Hc].
  unfold init_pair, random, Math_random, bind, ret.
  change (fun n => g (S (S (S (S (S (S (S n)))))))) with (drop 7 g).
  rewrite Hc.
  eexists; split; reflexivity.
Qed.

Lemma init_loop_run (this : CarLights) (colors : list Color) (n : nat) :
  colors <> [] ->
  forall (i : nat) (acc : buffers) (g : rng),
  unit_draws g ->
  exists bufs g',
    init_loop this colors n i acc g = (Normal bufs, g')
    /\ b_aOffset bufs = b_aOffset acc ++ loop_offsets this g n i.
Proof.
  intros Hne; induction n as [|n IH]; intros i acc g Hg.
  - exists acc, g. simpl. now rewrite app_nil_r.
  - destruct (init_pair_run this colors i acc g Hne Hg) as (acc' & Hrun & Hoff).
    destruct (IH (S i) acc' (drop 8 g) (unit_draws_drop 8 g Hg))
      as (bufs & g' & Hloop & Hbufs).
    exists bufs, g'. split.
    + simpl. unfold bind at 1. rewrite Hrun. exact Hloop.
    + rewrite Hbufs, Hoff. simpl. now rewrite <- app_assoc.
Qed.

Lemma palette_nonempty (c : value) : c <> VArray [] -> palette c <> [].
Proof.
  destruct c as [| | | |items|]; try discriminate.
  destruct items; [congruence | discriminate].
Qed.

(** [init] returns when the palette is not empty; the instance count is
    twice the number of pairs and [aOffset] is that of the loop. *)
Lemma CarLights_init_run (this : CarLights) (g : rng) :
  cl_colors this <> VArray [] -> unit_draws g ->
  exists mesh g',
    CarLights_init this g = (Normal mesh, g')
    /\ instanceCount mesh
       = (Opt.lightPairsPerRoadWay (cl_options this) * 2)%nat
    /\ aOffset mesh
       = loop_offsets this g (Opt.lightPairsPerRoadWay (cl_options this)) O.
Proof.
  intros Hc Hg.
  destruct (init_loop_run this _ (Opt.lightPairsPerRoadWay (cl_options this))
              (palette_nonempty _ Hc) O
              {| b_aOffset := []; b_aMetrics := []; b_aColor := [] |} g Hg)
    as (bufs & g' & Hloop & Hbufs).
  unfold CarLights_init, bind. cbv beta zeta. rewrite Hloop.
  eexists; eexists; split; [reflexivity |]. split; [reflexivity |].
  exact Hbufs.
Qed.

Lemma loop_offsets_length (this : CarLights) (n : nat) :
  forall g i, List.length (loop_offsets this g n i) = (6 * n)%nat.
Proof.
  induction n as [|n IH]; intros g i; [reflexivity |].
  cbn [loop_offsets]. rewrite length_app, IH. simpl. lia.
Qed.

(** Every third entry of the offsets of the loop, from the first, satisfies
    what both x coordinates of every turn satisfy. *)
Lemma loop_offsets_x (this : CarLights) (P : R -> Prop) (n : nat) :
  forall g i,
  (forall g i, unit_draws g ->
     P (nth 0 (pair_offsets this g i) 0) /\ P (nth 3 (pair_offsets this g i) 0)) ->
  unit_draws g ->
  forall j, (j < 2 * n)%nat -> P (nth (3 * j) (loop_offsets this g n i) 0).
Proof.
  induction n as [|n IH]; intros g i HP Hg j Hj; [lia |].
  cbn [loop_offsets].
  destruct j as [|[|j]].
  - apply (HP g i Hg).
  - apply (HP g i Hg).
  - replace (3 * S (S j))%nat with (6 + 3 * j)%nat by lia.
    change (pair_offsets this g i ++ loop_offsets this (drop 8 g) n (S i))
      with (nth 0 (pair_offsets this g i) 0 :: nth 1 (pair_offsets this g i) 0
            :: nth 2 (pair_offsets this g i) 0
            :: nth 3 (pair_offsets this g i) 0
            :: nth 4 (pair_offsets this g i) 0
            :: nth 5 (pair_offsets this g i) 0
            :: loop_offsets this (drop 8 g) n (S i)).
    cbn [nth Nat.add].
    apply IH; [exact HP | now apply unit_draws_drop | lia].
Qed.

Lemma loop_offsets_first (this : CarLights) (g : rng) (n i : nat) :
  nth 0 (loop_offsets this g (S n) i) 0 = nth 0 (pair_offsets this g i) 0
  /\ nth 3 (loop_offsets this g (S n) i) 0 = nth 3 (pair_offsets this g i) 0.
Proof. split; reflexivity. Qed.

Lemma rem4_cases (i : nat) :
  let r := Z.rem (Z.of_nat i) 4 in
  (r = 0 \/ r = 1 \/ r = 2 \/ r = 3)%Z.
Proof.
  intros r. subst r.
  pose proof (Z.rem_bound_pos (Z.of_nat i) 4 ltac:(lia) ltac:(lia)).
  lia.
Qed.

(** With four lanes the centre of every lane is inside the road, half a
    lane from its edges at least. *)
Lemma laneCentre_in_road (options : Opt.t) (i : nat) :
  Opt.lanesPerRoad options = 4%Z -> 0 <= Opt.roadWidth options ->
  let rw := Opt.roadWidth options in
  - rw / 2 + rw / 4 / 2 <= laneCentre options i <= rw / 2 - rw / 4 / 2.
Proof.
  intros H4 Hrw rw. subst rw. unfold laneCentre. rewrite H4.
  destruct (rem4_cases i) as [-> | [-> | [-> | ->]]]; lra.
Qed.

(** The x coordinates that one turn pushes, under the default ranges of
    the shift and of the car width: at most 0.55 of a lane outside the
    road. *)
Lemma pair_offsets_x (this : CarLights) (g : rng) (i : nat) :
  let o := cl_options this in
  let rw := Opt.roadWidth o in
  Opt.lanesPerRoad o = 4%Z -> 0 <= rw ->
  Opt.carShiftX o = Between (-0.8) 0.8 ->
  Opt.carWidthPercentage o = Between 0.3 0.5 ->
  unit_draws g ->
  let inside x := - rw / 2 - 0.55 * (rw / 4) <= x <= rw / 2 + 0.55 * (rw / 4)
  in
  inside (nth 0 (pair_offsets this g i) 0)
  /\ inside (nth 3 (pair_offsets this g i) 0).
Proof.
  intros o rw H4 Hrw Hshift Hwidth Hg inside. subst inside rw.
  pose proof (laneCentre_in_road o i H4 Hrw) as Hc. cbv zeta in Hc.
  pose proof (Hg 3%nat) as H3. pose proof (Hg 4%nat) as H5.
  unfold pair_offsets. cbn [nth]. fold o.
  rewrite Hshift, Hwidth, H4. unfold random_of.
  set (c := laneCentre o i) in *. set (w := Opt.roadWidth o) in *.
  set (u := g 3%nat) in *. set (v := g 4%nat) in *.
  split; split; nra.
Qed.

(** C7 (as amended): for every configuration with four lanes, a road width
    that is not negative, the default ranges of the shift and of the car
    width, and a palette that is not empty, [init] returns; the instance
    count is twice [lightPairsPerRoadWay], with three offsets for each
    instance; the centre of every lane is inside the road; and the x
    coordinate of every instance is within 0.55 of a lane width of the road
    (the random shift of up to 0.8 of a lane takes it outside
    [-roadWidth/2, roadWidth/2]). *)
Theorem CarLights_geometry (this : CarLights) (g : rng) :
  let o := cl_options this in
  let rw := Opt.roadWidth o in
  Opt.lanesPerRoad o = 4%Z -> 0 <= rw ->
  Opt.carShiftX o = Between (-0.8) 0.8 ->
  Opt.carWidthPercentage o = Between 0.3 0.5 ->
  cl_colors this <> VArray [] ->
  unit_draws g ->
  exists mesh g',
    CarLights_init this g = (Normal mesh, g')
    /\ instanceCount mesh = (2 * Opt.lightPairsPerRoadWay o)%nat
    /\ List.length (aOffset mesh) = (3 * instanceCount mesh)%nat
    /\ (forall i, - rw / 2 + rw / 4 / 2 <= laneCentre o i
                  <= rw / 2 - rw / 4 / 2)
    /\ (forall j, (j < instanceCount mesh)%nat ->
          - rw / 2 - 0.55 * (rw / 4) <= instance_x mesh j
          <= rw / 2 + 0.55 * (rw / 4)).
Proof.
  intros o rw H4 Hrw Hshift Hwidth Hcol Hg.
  destruct (CarLights_init_run this g Hcol Hg) as (mesh & g' & Hrun & Hn & Hoff).
  exists mesh, g'. fold o in Hn, Hoff.
  split; [exact Hrun |].
  split; [rewrite Hn; lia |].
  split; [rewrite Hoff, loop_offsets_length, Hn; lia |].
  split; [intros i; now apply laneCentre_in_road |].
  intros j Hj. unfold instance_x. rewrite Hoff.
  apply (loop_offsets_x this
           (fun x => - rw / 2 - 0.55 * (rw / 4) <= x
                     <= rw / 2 + 0.55 * (rw / 4))); [| exact Hg | lia].
  intros g0 i0 Hg0. now apply pair_offsets_x.
Qed.

(** An instance of [CarLights_geometry]: the lights of the left road way
    under the default options, every draw being 1/2. *)
Lemma CarLights_geometry_witness :
  exists mesh g',
    CarLights_init (leftCarLights defaultHyperspeedOptions) (fun _ => / 2)
    = (Normal mesh, g')
    /\ instanceCount mesh = 80%nat
    /\ List.length (aOffset mesh) = (3 * instanceCount mesh)%nat
    /\ (forall i, - 10 / 2 + 10 / 4 / 2
                  <= laneCentre defaultHyperspeedOptions i
                  <= 10 / 2 - 10 / 4 / 2)
    /\ (forall j, (j < instanceCount mesh)%nat ->
          - 10 / 2 - 0.55 * (10 / 4) <= instance_x mesh j
          <= 10 / 2 + 0.55 * (10 / 4)).
Proof.
  apply (CarLights_geometry (leftCarLights defaultHyperspeedOptions)
                            (fun _ => / 2)).
  - reflexivity.
  - simpl. lra.
  - reflexivity.
  - reflexivity.
  - discriminate.
  - intros n. lra.
Defined.

(** C7 (as stated) fails: under the default options, when [Math.random()]
    returns 0, the first car of the left road way has its lane position at
    -5.75 and its left light at -6.125, outside [-5, 5]. *)
Lemma CarLights_counterexample :
  exists mesh g',
    CarLights_init (leftCarLights defaultHyperspeedOptions) (fun _ => 0)
    = (Normal mesh, g')
    /\ Opt.lanesPerRoad defaultHyperspeedOptions = 4%Z
    /\ Opt.roadWidth defaultHyperspeedOptions = 10
    /\ instance_x mesh 0 = -6.125
    /\ (instance_x mesh 0 + instance_x mesh 1) / 2 = -5.75.
Proof.
  destruct (CarLights_init_run (leftCarLights defaultHyperspeedOptions)
              (fun _ => 0) ltac:(discriminate) ltac:(intros n; lra))
    as (mesh & g' & Hrun & _ & Hoff).
  exists mesh, g'.
  split; [exact Hrun |]. split; [reflexivity |]. split; [reflexivity |].
  unfold instance_x. rewrite Hoff.
  change (Opt.lightPairsPerRoadWay
            (cl_options (leftCarLights defaultHyperspeedOptions)))
    with (S 39).
  change (3 * 0)%nat with 0%nat. change (3 * 1)%nat with 3%nat.
  rewrite (proj1 (loop_offsets_first _ _ 39 0)),
    (proj2 (loop_offsets_first _ _ 39 0)).
  unfold pair_offsets, laneCentre, random_of.
  cbn [nth cl_options leftCarLights
       defaultHyperspeedOptions Opt.roadWidth Opt.lanesPerRoad
       Opt.carLightsRadius Opt.carWidthPercentage Opt.carShiftX
       Opt.carFloorSeparation Opt.length].
  change (Z.rem (Z.of_nat 0) 4) with 0%Z.
  split; lra.
Qed.

End CarLightsGeometry.

(* ================================================================= *)
(** * 12. Properties of the life cycle *)
(* ================================================================= *)

Section LifeCycle.

Local Open Scope R_scope.
Local Open Scope list_scope.

(** *** Listeners *)

Lemma filter_twice {A} (p q : A -> bool) (l : list A) :
  filter q (filter p l) = filter (fun x => p x && q x) l.
Proof.
  induction l as [|a l IH]; [reflexivity |].
  simpl. destruct (p a); simpl; [destruct (q a) |]; now rewrite IH.
Qed.

Lemma unregister_fold (rs : list listener) :
  forall ls,
  fold_left (fun acc l0 => unregister l0 acc) rs ls
  = filter (fun l => negb (existsb (listener_eqb l) rs)) ls.
Proof.
  induction rs as [|r rs IH]; intros ls; simpl.
  - induction ls as [|a ls IHl]; simpl; [reflexivity | now rewrite <- IHl].
  - rewrite IH. unfold unregister. rewrite filter_twice.
    apply filter_ext. intros l. now rewrite negb_orb.
Qed.

(** Removing the listeners of [setupListeners] a second time changes
    nothing. *)
Lemma unregister_all_again (ls : list listener) :
  unregister_all (unregister_all ls) = unregister_all ls.
Proof.
  unfold unregister_all. rewrite !unregister_fold, filter_twice.
  apply filter_ext. intros l. now destruct (existsb _ _).
Qed.

Lemma unregister_all_registered : unregister_all registered = [].
Proof. reflexivity. Qed.

(** *** dispose *)

(** [dispose()] on an instance that was constructed returns, whether the
    canvas is still a child of the host or not. *)
Lemma dispose_run (this : HyperspeedApp) :
  constructed this = true -> dispose this = (Normal tt, disposed_of this).
Proof.
  intros Hc. on_instance this. unfold disposed_of, dispose_calls.
  match goal with
  | a : bool |- _ =>
      destruct a; exec; rewrite <- !app_assoc; reflexivity
  end.
Qed.

Lemma dispose_sets_flag (this : HyperspeedApp) :
  disposed (snd (dispose this)) = true.
Proof.
  destruct (constructed this) eqn:Hc.
  - now rewrite dispose_run.
  - on_instance this. reflexivity.
Qed.

(** [dispose()] on an instance whose constructor returned at the library
    check throws at [this.container]. *)
Lemma dispose_unconstructed (this : HyperspeedApp) :
  constructed this = false -> fst (dispose this) = Throw TypeError.
Proof. intros Hc. on_instance this. reflexivity. Qed.

Lemma gpu_calls_app (l1 l2 : list call) :
  gpu_calls (l1 ++ l2) = (gpu_calls l1 + gpu_calls l2)%nat.
Proof. unfold gpu_calls. now rewrite filter_app, length_app. Qed.

(** C1 (as amended): on an instance that was constructed, a second
    [dispose()] returns like the first and leaves the instance as the first
    left it (the flag set, the listeners removed, the canvas detached) but
    for the call log: it is no no-op on the rendering backend, for
    [renderer.dispose()], [composer.dispose()] and [scene.clear()] are
    called again, with the removals after them. *)
Theorem dispose_twice (this : HyperspeedApp) :
  constructed this = true ->
  let once := snd (dispose this) in
  let twice := snd (dispose once) in
  fst (dispose this) = Normal tt
  /\ fst (dispose once) = Normal tt
  /\ set_calls (calls once) twice = once
  /\ calls twice = calls once ++ dispose_calls
  /\ gpu_calls (calls twice) = (gpu_calls (calls once) + 2)%nat.
Proof.
  intros Hc once twice. subst twice once.
  rewrite (dispose_run this Hc). cbn [fst snd].
  assert (Hc' : constructed (disposed_of this) = true) by exact Hc.
  rewrite (dispose_run _ Hc'). cbn [fst snd].
  split; [reflexivity |]. split; [reflexivity |].
  assert (Hcalls : calls (disposed_of (disposed_of this))
                   = calls (disposed_of this) ++ dispose_calls)
    by reflexivity.
  split; [| split; [exact Hcalls |]].
  - destruct this. unfold disposed_of.
    cbn [set_calls set_attached set_listeners set_disposed constructed
         options disposed fovTarget speedUpTarget speedUp timeOffset camera
         elapsedTime uniforms pixelRatio canvas attached offsetWidth
         offsetHeight listeners calls].
    now rewrite unregister_all_again.
  - rewrite Hcalls, gpu_calls_app. reflexivity.
Qed.

(** An instance of [dispose_twice]: a fresh instance on a page of 800 by
    600. *)
Lemma dispose_twice_witness :
  let this := constructor (page_800x600 1) defaultHyperspeedOptions in
  let once := snd (dispose this) in
  let twice := snd (dispose once) in
  fst (dispose this) = Normal tt
  /\ fst (dispose once) = Normal tt
  /\ set_calls (calls once) twice = once
  /\ calls twice = calls once ++ dispose_calls
  /\ gpu_calls (calls twice) = (gpu_calls (calls once) + 2)%nat.
Proof.
  apply (dispose_twice
           (constructor (page_800x600 1) defaultHyperspeedOptions)).
  reflexivity.
Defined.

(** C1 (as stated) fails: on a fresh instance the first [dispose()] leaves
    four calls on the rendering backend in the log (two of the constructor,
    two of its own), and the second, which returns too, makes them six. *)
Lemma dispose_counterexample :
  fst (dispose (snd (dispose (constructor (page_800x600 1)
                                          defaultHyperspeedOptions))))
  = Normal tt
  /\ gpu_calls (calls (snd (dispose (constructor (page_800x600 1)
                                                 defaultHyperspeedOptions))))
     = 4%nat
  /\ gpu_calls
       (calls (snd (dispose (snd (dispose (constructor
                                             (page_800x600 1)
                                             defaultHyperspeedOptions))))))
     = 6%nat.
Proof.
  set (this := constructor (page_800x600 1) defaultHyperspeedOptions).
  rewrite (dispose_run this eq_refl). cbn [snd].
  rewrite (dispose_run (disposed_of this) eq_refl).
  repeat split; reflexivity.
Qed.

(** *** tick *)

Lemma tick_disposed (delta : R) (this : HyperspeedApp) :
  disposed this = true -> tick delta this = (Normal tt, this).
Proof. intros H. unfold tick, bind, get. now rewrite H. Qed.

(** C2: [dispose()] sets the flag, on every instance and even when it
    throws; a frame callback that fires once the flag is set returns at
    once: it does not throw, and it leaves the instance and the call log as
    they are (no render, no call on the backend, no further frame
    requested). *)
Theorem tick_after_dispose (this : HyperspeedApp) (delta : R) :
  let s := snd (dispose this) in
  disposed s = true
  /\ tick delta s = (Normal tt, s)
  /\ calls (snd (tick delta s)) = calls s
  /\ (forall s', disposed s' = true -> tick delta s' = (Normal tt, s')).
Proof.
  intros s. pose proof (dispose_sets_flag this) as Hd. fold s in Hd.
  split; [exact Hd |].
  split; [now apply tick_disposed |].
  split; [now rewrite tick_disposed |].
  intros s'. apply tick_disposed.
Qed.

Lemma tick_after_dispose_witness :
  tick (/ 60)
       (snd (dispose (constructor (page_800x600 1) defaultHyperspeedOptions)))
  = (Normal tt,
     snd (dispose (constructor (page_800x600 1) defaultHyperspeedOptions))).
Proof.
  apply (tick_after_dispose
           (constructor (page_800x600 1) defaultHyperspeedOptions) (/ 60)).
  apply dispose_sets_flag.
Defined.

(** *** Frames and sizes *)

(** What a frame of a live instance does with the sizes: when the backing
    store and the layout differ, one [setSize] with the size of the layout
    and the aspect set from it; nothing otherwise. *)
Lemma tick_frame (delta : R) (this : HyperspeedApp) :
  constructed this = true -> disposed this = false ->
  let s := snd (tick delta this) in
  let cv := canvas this in
  let resized := needResize cv in
  (exists target, calls s = calls this ++ frame_calls this delta target)
  /\ canvas s
     = (if resized
        then {| width := backing_size (pixelRatio this) (clientWidth cv);
                height := backing_size (pixelRatio this) (clientHeight cv);
                clientWidth := clientWidth cv;
                clientHeight := clientHeight cv |}
        else cv)
  /\ aspect (camera s)
     = (if resized then div (clientWidth cv) (clientHeight cv)
        else aspect (camera this))
  /\ pixelRatio s = pixelRatio this
  /\ constructed s = true /\ disposed s = false.
Proof.
  intros Hc Hd. on_instance this. unfold frame_calls.
  cbn [canvas pixelRatio calls camera].
  match goal with cv : Canvas |- _ => destruct cv end.
  match goal with cam : Camera |- _ => destruct cam end.
  exec. destruct (needResize _); exec;
    destruct (Req_dec_T _ _); exec;
    (split; [eexists; rewrite <- !app_assoc; reflexivity |]);
    repeat split; reflexivity.
Qed.

Lemma tick_listeners (delta : R) (this : HyperspeedApp) :
  constructed this = true -> disposed this = false ->
  listeners (snd (tick delta this)) = listeners this.
Proof.
  intros Hc Hd. on_instance this. exec.
  destruct (needResize _); exec; destruct (Req_dec_T _ _); exec; reflexivity.
Qed.

Lemma resizes_app (l1 l2 : list call) :
  resizes (l1 ++ l2) = (resizes l1 + resizes l2)%nat.
Proof. unfold resizes. now rewrite filter_app, length_app. Qed.

Lemma resizes_frame (this : HyperspeedApp) (delta : R) (target : Vector3) :
  resizes (frame_calls this delta target)
  = if needResize (canvas this) then 1%nat else 0%nat.
Proof. unfold frame_calls. now destruct (needResize _). Qed.

(** The number of calls that set the size, after a frame. *)
Lemma tick_resizes (delta : R) (this : HyperspeedApp) :
  constructed this = true -> disposed this = false ->
  resizes (calls (snd (tick delta this)))
  = (resizes (calls this)
     + if needResize (canvas this) then 1 else 0)%nat.
Proof.
  intros Hc Hd.
  destruct (tick_frame delta this Hc Hd) as ((target & Hcalls) & _).
  now rewrite Hcalls, resizes_app, resizes_frame.
Qed.

Lemma backing_size_1 (w : Z) : backing_size 1 w = w.
Proof.
  unfold backing_size, Qfloor, Qmult, inject_Z; simpl.
  now rewrite Z.mul_1_r, Z.div_1_r.
Qed.

(** X18: at a pixel ratio of 1 the backing store has the size of the layout
    after every frame: a frame resizes when the two differ, the frame after it,
    without a new layout, does not. *)
Lemma resize_once_at_ratio_1 (delta delta' : R) (this : HyperspeedApp) :
  constructed this = true -> disposed this = false ->
  pixelRatio this = 1%Q ->
  let s := snd (tick delta this) in
  needResize (canvas s) = false
  /\ resizes (calls (snd (tick delta' s))) = resizes (calls s).
Proof.
  intros Hc Hd Hr s.
  destruct (tick_frame delta this Hc Hd) as (_ & Hcv & _ & _ & Hc' & Hd').
  fold s in Hcv, Hc', Hd'.
  assert (Hsized : needResize (canvas s) = false).
  { rewrite Hcv. destruct (needResize (canvas this)) eqn:E; [| exact E].
    unfold needResize; cbn [width height clientWidth clientHeight].
    now rewrite Hr, !backing_size_1, !Z.eqb_refl. }
  split; [exact Hsized |].
  rewrite (tick_resizes delta' s Hc' Hd'), Hsized. lia.
Qed.

(** C5, at the failing input: on a display with two device pixels to the
    CSS pixel, a host of 800 by 600 whose size never changes is resized in
    the first frame and again in the second: the backing store is 1600 by
    1200, which the test of [resizeRendererToDisplaySize] compares with
    800 by 600. *)
Theorem resize_every_frame_at_ratio_2 (delta : R) :
  let this := constructor (page_800x600 2) defaultHyperspeedOptions in
  let first := snd (tick 0 this) in
  let second := snd (tick delta first) in
  (clientWidth (canvas first), clientHeight (canvas first))
  = (clientWidth (canvas this), clientHeight (canvas this))
  /\ (width (canvas first), height (canvas first)) = (1600, 1200)%Z
  /\ resizes (calls first) = S (resizes (calls this))
  /\ resizes (calls second) = S (resizes (calls first)).
Proof.
  intros this first second.
  assert (Hc : constructed this = true) by reflexivity.
  assert (Hd : disposed this = false) by reflexivity.
  destruct (tick_frame 0 this Hc Hd) as (_ & Hcv & _ & _ & Hc' & Hd').
  fold first in Hcv, Hc', Hd'.
  assert (Hneed : needResize (canvas this) = true) by reflexivity.
  rewrite Hneed in Hcv.
  assert (Hneed' : needResize (canvas first) = true)
    by (rewrite Hcv; reflexivity).
  split; [rewrite Hcv; reflexivity |].
  split; [rewrite Hcv; reflexivity |].
  split.
  - subst first. rewrite (tick_resizes 0 this Hc Hd), Hneed. lia.
  - subst second. rewrite (tick_resizes delta first Hc' Hd'), Hneed'. lia.
Qed.

(** *** Hosts without size *)

(** [onWindowResize] sets the aspect to the quotient of the sizes of the
    host, whatever they are. *)
Lemma onWindowResize_run (this : HyperspeedApp) :
  constructed this = true ->
  let s := snd (onWindowResize this) in
  fst (onWindowResize this) = Normal tt
  /\ aspect (camera s) = div (offsetWidth this) (offsetHeight this)
  /\ calls s
     = calls this
       ++ [renderer_setSize (offsetWidth this) (offsetHeight this) true;
           camera_updateProjectionMatrix;
           composer_setSize (offsetWidth this) (offsetHeight this) true].
Proof.
  intros Hc. on_instance this. exec.
  repeat split. now rewrite <- !app_assoc.
Qed.

(** X19: [IridescenceEffect.resize] reads a size of 0 as 1: the resolution
    it sets is finite, with a ratio of the sizes that divides by no 0. *)
Lemma Iridescence_resize_tolerant (this : IridescenceEffect) :
  has_program this = true -> (0 <= ir_clientWidth this)%Z ->
  (0 <= ir_clientHeight this)%Z ->
  let s := Iridescence_resize this in
  (1 <= ir_canvas_width s)%Z /\ (1 <= ir_canvas_height s)%Z
  /\ uResolution s
     = (Num (IZR (ir_canvas_width s)), Num (IZR (ir_canvas_height s)),
        Num (IZR (ir_canvas_width s) / IZR (ir_canvas_height s))).
Proof.
  intros Hp Hw Hh s. subst s. unfold Iridescence_resize.
  cbn [ir_canvas_width ir_canvas_height uResolution]. rewrite Hp.
  assert (Hw1 : (1 <= or_one (ir_clientWidth this))%Z).
  { unfold or_one. destruct (Z.eqb_spec (ir_clientWidth this) 0); lia. }
  assert (Hh1 : (1 <= or_one (ir_clientHeight this))%Z).
  { unfold or_one. destruct (Z.eqb_spec (ir_clientHeight this) 0); lia. }
  repeat split; try assumption.
  unfold div.
  destruct (Z.eqb_spec (or_one (ir_clientHeight this)) 0); [lia | reflexivity].
Qed.

(** C9, at the failing input: a Hyperspeed host that the layout has
    collapsed to 0 by 0.  The resize handler and the next frame return, but
    neither is a no-op: both set the size of the backing store, and both
    leave the aspect of the camera at 0 / 0, which is [NaN]. *)
Theorem resize_of_empty_host (delta : R) :
  let this :=
    layout 0 0 0 0
      (snd (HyperspeedApp_new (page_800x600 1) defaultHyperspeedOptions)) in
  let resized := snd (dispatch window resize this) in
  let framed := snd (tick delta this) in
  fst (dispatch window resize this) = Normal tt
  /\ aspect (camera resized) = NaN
  /\ resizes (calls resized) = (resizes (calls this) + 2)%nat
  /\ fst (tick delta this) = Normal tt
  /\ aspect (camera framed) = NaN
  /\ resizes (calls framed) = S (resizes (calls this)).
Proof.
  intros this resized framed.
  assert (Hnew : constructed (snd (HyperspeedApp_new (page_800x600 1)
                                     defaultHyperspeedOptions)) = true
                 /\ disposed (snd (HyperspeedApp_new (page_800x600 1)
                                     defaultHyperspeedOptions)) = false
                 /\ listeners (snd (HyperspeedApp_new (page_800x600 1)
                                      defaultHyperspeedOptions)) = registered
                 /\ canvas (snd (HyperspeedApp_new (page_800x600 1)
                                   defaultHyperspeedOptions))
                    = {| width := 800; height := 600;
                         clientWidth := 800; clientHeight := 600 |}).
  { unfold HyperspeedApp_new. cbn [libraries page_800x600].
    set (fresh := constructor _ _).
    destruct (tick_frame 0 fresh eq_refl eq_refl)
      as (_ & Hcv & _ & _ & Hc & Hd).
    repeat split; try assumption;
      first [now rewrite tick_listeners | rewrite Hcv; reflexivity]. }
  destruct Hnew as (Hc & Hd & Hl & Hcv).
  assert (Hc0 : constructed this = true) by exact Hc.
  assert (Hd0 : disposed this = false) by exact Hd.
  assert (Hdisp : dispatch window resize this = onWindowResize this).
  { unfold dispatch, bind, get. cbn [fst snd].
    replace (listeners this) with registered by (symmetry; exact Hl).
    cbn [registered filter map target_eqb event_eqb andb fst snd
         run_handlers run_handler].
    unfold bind, ret. destruct (onWindowResize this) as [[[]|e] s']; reflexivity. }
  destruct (onWindowResize_run this Hc0) as (Hret & Hasp & Hcalls).
  destruct (tick_frame delta this Hc0 Hd0) as (_ & _ & Hasp' & _).
  destruct (tick_state delta this Hc0 Hd0) as (Hret' & _).
  assert (Hneed : needResize (canvas this) = true).
  { unfold this, layout.
    cbn [canvas set_offsetHeight set_offsetWidth set_canvas].
    rewrite Hcv. reflexivity. }
  subst resized framed. rewrite Hdisp.
  split; [exact Hret |].
  split; [rewrite Hasp; reflexivity |].
  split; [rewrite Hcalls, resizes_app; reflexivity |].
  split; [exact Hret' |].
  split; [rewrite Hasp', Hneed; reflexivity |].
  rewrite (tick_resizes delta this Hc0 Hd0), Hneed. lia.
Qed.

End LifeCycle.

(* ================================================================= *)
(** * 13. More about the frames of a live instance *)
(* ================================================================= *)

Section Motion.

Local Open Scope R_scope.
Local Open Scope list_scope.

(** What a frame of a live instance does to the clock, the time offset, the
    time uniforms, the field of view and the look-at point. *)
Lemma tick_motion (delta : R) (this : HyperspeedApp) :
  constructed this = true -> disposed this = false ->
  let s := snd (tick delta this) in
  let time := elapsedTime s + timeOffset s in
  elapsedTime s = elapsedTime this + delta
  /\ timeOffset s = timeOffset this + speedUp s * delta
  /\ uniforms s
     = {| rightCarLights_uTime := time; leftCarLights_uTime := time;
          leftSticks_uTime := time; road_uTime := time |}
  /\ fov (camera s)
     = fov (camera this)
       + lerp (fov (camera this)) (fovTarget this) (lerpPercentage delta)
              lerp_default_limit * delta * 6
  /\ fovTarget s = fovTarget this
  /\ position (camera s) = position (camera this)
  /\ lookingAt (camera s)
     = vec3 (v3x (position (camera this)) + v3x (getJS 0.025 time))
            (v3y (position (camera this)) + v3y (getJS 0.025 time))
            (v3z (position (camera this)) + v3z (getJS 0.025 time)).
Proof.
  intros Hc Hd. on_instance this.
  match goal with cam : Camera |- _ => destruct cam end.
  exec. destruct (needResize _); exec;
    destruct (Req_dec_T _ _) as [e | n]; exec;
    repeat split; try reflexivity; rewrite e; ring.
Qed.

(** One step of [lerp] toward a target below: the mirror of [lerp_step]. *)
Lemma lerp_step_down (c t p limit : R) :
  0 < p < 1 -> 0 < limit -> t <= c ->
  let c' := c + lerp c t p limit in
  t <= c' <= c /\ (c' = t \/ c' - t <= c - t - limit).
Proof.
  intros Hp Hl Hc c'; subst c'; unfold lerp.
  destruct (Rlt_dec (Rabs ((t - c) * p)) limit) as [Hsnap | Hgo].
  - split; [lra | left; lra].
  - assert (Hge : limit <= (c - t) * p).
    { rewrite Rabs_left1 in Hgo by nra. lra. }
    split; [nra | right; nra].
Qed.

(** While the target stays put below [speedUp], a run of frames keeps
    [speedUp] at or above it, and every frame either reaches it or takes
    0.00001 off the gap. *)
Lemma frames_drop (deltas : list R) :
  Forall (fun d => 0 < d) deltas ->
  forall (this : HyperspeedApp) (gap : R) (k : nat),
  constructed this = true -> disposed this = false ->
  speedUpTarget this <= speedUp this ->
  (speedUp this = speedUpTarget this
   \/ speedUp this - speedUpTarget this <= gap - INR k * 0.00001) ->
  let s := frames deltas this in
  constructed s = true /\ disposed s = false
  /\ speedUpTarget s = speedUpTarget this
  /\ speedUpTarget s <= speedUp s
  /\ (speedUp s = speedUpTarget s
      \/ speedUp s - speedUpTarget s
         <= gap - INR (k + List.length deltas) * 0.00001).
Proof.
  induction 1 as [|d deltas Hd _ IH]; intros this gap k Hc Hdis Hle Hgap.
  - simpl. rewrite Nat.add_0_r. tauto.
  - destruct (tick_state d this Hc Hdis) as (_ & Hs & Ht & Hc' & Hd' & _).
    destruct (lerp_step_down (speedUp this) (speedUpTarget this)
                (lerpPercentage d) 0.00001
                (lerpPercentage_bounds d Hd) ltac:(lra) Hle)
      as (Hmono & Hstep).
    rewrite <- Hs, <- Ht in Hmono, Hstep.
    specialize (IH (snd (tick d this)) gap (S k) Hc' Hd' (proj1 Hmono)).
    assert (Hgap' :
              speedUp (snd (tick d this)) = speedUpTarget (snd (tick d this))
              \/ speedUp (snd (tick d this))
                 - speedUpTarget (snd (tick d this))
                 <= gap - INR (S k) * 0.00001).
    { destruct Hstep as [Hr | Hr]; [now left |].
      destruct Hgap as [Heq | Hg].
      - left. rewrite Hs, Ht, Heq, lerp_at_target by lra. ring.
      - right. rewrite S_INR. rewrite Ht in Hr |- *. lra. }
    specialize (IH Hgap').
    change (frames (d :: deltas) this)
      with (frames deltas (snd (tick d this))).
    replace (k + List.length (d :: deltas))%nat
      with (S k + List.length deltas)%nat by (simpl; lia).
    cbv zeta in IH. rewrite Ht in IH. exact IH.
Qed.

(** X1: after a release ([onMouseUp]) the target of the speed-up is 0;
    from any positive speed-up, through frames of positive deltas, every
    frame returns, [speedUp] never increases from one frame to the next,
    never goes below 0, and is 0 after [frame_bound] of the starting value
    frames. *)
Theorem speedUp_release (this : HyperspeedApp) (deltas : list R) (delta : R) :
  constructed this = true -> disposed this = false ->
  0 < speedUp this ->
  Forall (fun d => 0 < d) deltas -> 0 < delta ->
  let s := frames deltas (snd (onMouseUp this)) in
  speedUpTarget s = 0
  /\ fst (tick delta s) = Normal tt
  /\ 0 <= speedUp (snd (tick delta s)) <= speedUp s
  /\ speedUp s <= speedUp this
  /\ ((frame_bound (speedUp this) <= List.length deltas)%nat ->
      speedUp s = 0).
Proof.
  intros Hc Hdis Hpos Hds Hdelta s.
  set (released := snd (onMouseUp this)) in *.
  assert (Hr : constructed released = true /\ disposed released = false
               /\ speedUp released = speedUp this
               /\ speedUpTarget released = 0).
  { subst released. on_instance this. repeat split; auto. }
  destruct Hr as (Hrc & Hrd & Hr0 & Hrt).
  destruct (frames_drop deltas Hds released (speedUp this) O Hrc Hrd
              ltac:(rewrite Hr0, Hrt; lra)
              ltac:(right; rewrite Hr0, Hrt; simpl; lra))
    as (Hsc & Hsd & Hst & Hle & Hgap).
  fold s in Hsc, Hsd, Hst, Hle, Hgap.
  rewrite Hrt in Hst. rewrite Hst in Hle, Hgap.
  destruct (tick_state delta s Hsc Hsd) as (Hret & Hs & _).
  destruct (lerp_step_down (speedUp s) 0 (lerpPercentage delta) 0.00001
              (lerpPercentage_bounds delta Hdelta) ltac:(lra) Hle)
    as (Hmono & _).
  rewrite Hst in Hs. rewrite <- Hs in Hmono.
  split; [exact Hst |]. split; [exact Hret |]. split; [exact Hmono |].
  assert (Hbelow : speedUp s <= speedUp this).
  { destruct Hgap as [Heq | Hg]; [lra |].
    assert (0 <= INR (0 + List.length deltas)) by apply pos_INR.
    lra. }
  split; [exact Hbelow |].
  intros Hn. destruct Hgap as [Heq | Hg]; [exact Heq |].
  pose proof (frame_bound_enough (speedUp this) Hpos) as Hb.
  apply le_INR in Hn. simpl in Hg. nra.
Qed.

Lemma speedUp_release_witness :
  let this := set_speedUp 1 (constructor (page_800x600 1)
                                         defaultHyperspeedOptions) in
  let s := frames [/ 60] (snd (onMouseUp this)) in
  speedUpTarget s = 0
  /\ fst (tick (/ 60) s) = Normal tt
  /\ 0 <= speedUp (snd (tick (/ 60) s)) <= speedUp s
  /\ speedUp s <= speedUp this
  /\ ((frame_bound (speedUp this) <= 1)%nat -> speedUp s = 0).
Proof.
  apply (speedUp_release
           (set_speedUp 1 (constructor (page_800x600 1)
                                       defaultHyperspeedOptions))
           [/ 60] (/ 60)).
  - reflexivity.
  - reflexivity.
  - simpl. lra.
  - repeat constructor. lra.
  - lra.
Defined.

Lemma frames_live (deltas : list R) :
  forall this : HyperspeedApp,
  constructed this = true -> disposed this = false ->
  constructed (frames deltas this) = true
  /\ disposed (frames deltas this) = false
  /\ elapsedTime (frames deltas this)
     = elapsedTime this + fold_right Rplus 0 deltas.
Proof.
  induction deltas as [|d deltas IH]; intros this Hc Hd.
  - simpl. repeat split; auto. ring.
  - destruct (tick_state d this Hc Hd) as (_ & _ & _ & Hc' & Hd' & _).
    destruct (tick_motion d this Hc Hd) as (He & _).
    destruct (IH (snd (tick d this)) Hc' Hd') as (Hc'' & Hd'' & He'').
    change (frames (d :: deltas) this)
      with (frames deltas (snd (tick d this))).
    repeat split; auto. rewrite He'', He. simpl. ring.
Qed.

(** A step of a share [k] of the gap, for [k] in [0, 1], stays between
    the value and the target. *)
Lemma toward (c t k : R) :
  0 <= k <= 1 ->
  (c <= t -> c <= c + (t - c) * k <= t)
  /\ (t <= c -> t <= c + (t - c) * k <= c).
Proof. intros Hk; split; intros Hle; nra. Qed.

(** X2: the field of view eases without overshoot as long as frames come
    at six a second or more: for a delta of at most 1/6 a frame moves
    [camera.fov] toward [fovTarget] and not past it, and leaves the target
    as it is. *)
Theorem fov_easing (this : HyperspeedApp) (delta : R) :
  constructed this = true -> disposed this = false ->
  0 < delta <= / 6 ->
  let s := snd (tick delta this) in
  fovTarget s = fovTarget this
  /\ (fov (camera this) <= fovTarget this ->
      fov (camera this) <= fov (camera s) <= fovTarget this)
  /\ (fovTarget this <= fov (camera this) ->
      fovTarget this <= fov (camera s) <= fov (camera this)).
Proof.
  intros Hc Hd Hdelta s.
  destruct (tick_motion delta this Hc Hd) as (_ & _ & _ & Hf & Ht & _).
  fold s in Hf, Ht. split; [exact Ht |].
  pose proof (lerpPercentage_bounds delta (proj1 Hdelta)) as Hp.
  rewrite Hf. unfold lerp, lerp_default_limit.
  set (c := fov (camera this)). set (t := fovTarget this).
  set (p := lerpPercentage delta) in *.
  assert (H6 : 0 <= delta * 6 <= 1) by lra.
  assert (Hk : 0 <= p * (delta * 6) <= 1) by nra.
  destruct (Rlt_dec (Rabs ((t - c) * p)) 0.001).
  - replace (c + (t - c) * delta * 6) with (c + (t - c) * (delta * 6))
      by ring.
    apply toward. exact H6.
  - replace (c + (t - c) * p * delta * 6) with (c + (t - c) * (p * (delta * 6)))
      by ring.
    apply toward. exact Hk.
Qed.

Lemma fov_easing_witness :
  let this := constructor (page_800x600 1) defaultHyperspeedOptions in
  let s := snd (tick (/ 60) (snd (onMouseDown this))) in
  fovTarget s = 150
  /\ (90 <= 150 -> 90 <= fov (camera s) <= 150)
  /\ (150 <= 90 -> 150 <= fov (camera s) <= 90).
Proof.
  apply (fov_easing
           (snd (onMouseDown
                   (constructor (page_800x600 1) defaultHyperspeedOptions)))
           (/ 60)).
  - reflexivity.
  - reflexivity.
  - lra.
Defined.

(** X3: after a long frame the field of view jumps past its target: when
    the delta is more than 1/6 and the eased step is under the limit 0.001
    (so that [lerp] returns the whole gap), a frame adds the whole gap
    times [delta * 6] and [camera.fov] lands on the far side of
    [fovTarget]. *)
Theorem fov_overshoot (this : HyperspeedApp) (delta : R) :
  constructed this = true -> disposed this = false ->
  / 6 < delta ->
  Rabs ((fovTarget this - fov (camera this)) * lerpPercentage delta) < 0.001 ->
  let s := snd (tick delta this) in
  (fov (camera this) < fovTarget this -> fovTarget this < fov (camera s))
  /\ (fovTarget this < fov (camera this) -> fov (camera s) < fovTarget this).
Proof.
  intros Hc Hd Hdelta Hsnap s.
  destruct (tick_motion delta this Hc Hd) as (_ & _ & _ & Hf & _).
  fold s in Hf. rewrite Hf. unfold lerp, lerp_default_limit.
  destruct (Rlt_dec _ 0.001) as [_ | Hn]; [| contradiction].
  split; intros Hlt; nra.
Qed.

Lemma fov_overshoot_witness :
  let this :=
    set_fovTarget (90 + / 2000)
      (constructor (page_800x600 1) defaultHyperspeedOptions) in
  let s := snd (tick 1 this) in
  (90 < 90 + / 2000 -> 90 + / 2000 < fov (camera s))
  /\ (90 + / 2000 < 90 -> fov (camera s) < 90 + / 2000).
Proof.
  apply (fov_overshoot
           (set_fovTarget (90 + / 2000)
              (constructor (page_800x600 1) defaultHyperspeedOptions)) 1).
  - reflexivity.
  - reflexivity.
  - lra.
  - cbn [fovTarget set_fovTarget camera fov constructor page_800x600
         libraries Opt.fov defaultHyperspeedOptions].
    pose proof (lerpPercentage_bounds 1 ltac:(lra)) as Hp.
    rewrite Rabs_right by nra. nra.
Defined.

(** X4: the time that the shaders read never runs backwards: when the
    speed-up and its target are not negative, a frame of positive delta
    keeps the speed-up not negative and sets the four [uTime] uniforms to
    one and the same time, [clock.elapsedTime + timeOffset], later than the
    time before the frame by [delta] at least. *)
Theorem time_moves_forward (this : HyperspeedApp) (delta : R) :
  constructed this = true -> disposed this = false ->
  0 <= speedUp this -> 0 <= speedUpTarget this -> 0 < delta ->
  let s := snd (tick delta this) in
  let time := elapsedTime s + timeOffset s in
  0 <= speedUp s
  /\ uniforms s
     = {| rightCarLights_uTime := time; leftCarLights_uTime := time;
          leftSticks_uTime := time; road_uTime := time |}
  /\ elapsedTime this + timeOffset this + delta <= time.
Proof.
  intros Hc Hd Hs Ht Hdelta s time.
  destruct (tick_motion delta this Hc Hd) as (He & Ho & Hu & _).
  destruct (tick_state delta this Hc Hd) as (_ & Hsp & _).
  fold s in He, Ho, Hu, Hsp.
  pose proof (lerpPercentage_bounds delta Hdelta) as Hp.
  assert (Hpos : 0 <= speedUp s).
  { rewrite Hsp.
    destruct (Rle_dec (speedUp this) (speedUpTarget this)) as [Hle | Hgt].
    - destruct (lerp_step _ _ _ 0.00001 Hp ltac:(lra) Hle) as (Hm & _). lra.
    - destruct (lerp_step_down (speedUp this) (speedUpTarget this) _ 0.00001
                  Hp ltac:(lra) ltac:(lra)) as (Hm & _). lra. }
  split; [exact Hpos |]. split; [exact Hu |].
  subst time. rewrite He, Ho. nra.
Qed.

Lemma time_moves_forward_witness :
  let this := constructor (page_800x600 1) defaultHyperspeedOptions in
  let s := snd (tick (/ 60) this) in
  let time := elapsedTime s + timeOffset s in
  0 <= speedUp s
  /\ uniforms s
     = {| rightCarLights_uTime := time; leftCarLights_uTime := time;
          leftSticks_uTime := time; road_uTime := time |}
  /\ 0 + 0 + / 60 <= time.
Proof.
  apply (time_moves_forward
           (constructor (page_800x600 1) defaultHyperspeedOptions) (/ 60)).
  - reflexivity.
  - reflexivity.
  - simpl. lra.
  - simpl. lra.
  - lra.
Defined.

(** *** The look-at point *)







End Motion.

(* ================================================================= *)
(** * 14. More about listeners and sizes *)
(* ================================================================= *)

Section Events.

Local Open Scope R_scope.
Local Open Scope list_scope.

Lemma dispatch_none (t : Target) (e : EventType) (this : HyperspeedApp) :
  listeners this = [] -> dispatch t e this = (Normal tt, this).
Proof. intros H. unfold dispatch, bind, get. now rewrite H. Qed.

(** An event on an instance that holds the listeners of [setupListeners]
    runs the handler of the one registration for it. *)
Lemma dispatch_registered (t : Target) (e : EventType) (this : HyperspeedApp) :
  listeners this = registered ->
  dispatch t e this
  = match t, e with
    | window, resize => (onWindowResize ;; ret tt)%js this
    | container, (mousedown | touchstart) => (onMouseDown ;; ret tt)%js this
    | container, (mouseup | mouseout | touchend | touchcancel) =>
        (onMouseUp ;; ret tt)%js this
    | container, contextmenu => (ret tt ;; ret tt)%js this
    | _, _ => (Normal tt, this)
    end.
Proof.
  intros H. unfold dispatch, bind at 1, get. rewrite H.
  destruct t, e; reflexivity.
Qed.

(** X6: [dispose()] detaches the instance from the page: on an instance
    that held the listeners of [setupListeners], no event on the window or
    on the host, of any type, runs a handler afterwards; the instance and
    its call log stay as [dispose()] left them. *)
Theorem events_after_dispose (this : HyperspeedApp) (t : Target)
    (e : EventType) :
  constructed this = true -> listeners this = registered ->
  listeners (snd (dispose this)) = []
  /\ dispatch t e (snd (dispose this)) = (Normal tt, snd (dispose this)).
Proof.
  intros Hc Hl. rewrite (dispose_run this Hc). cbn [snd].
  assert (Hnone : listeners (disposed_of this) = []).
  { unfold disposed_of. destruct this.
    cbn [listeners set_attached set_listeners set_calls set_disposed] in *.
    rewrite Hl. reflexivity. }
  split; [exact Hnone | now apply dispatch_none].
Qed.

Lemma events_after_dispose_witness :
  let this := constructor (page_800x600 1) defaultHyperspeedOptions in
  listeners (snd (dispose this)) = []
  /\ dispatch container mousedown (snd (dispose this))
     = (Normal tt, snd (dispose this)).
Proof.
  apply (events_after_dispose
           (constructor (page_800x600 1) defaultHyperspeedOptions)
           container mousedown); reflexivity.
Defined.

(** X7: touch is wired like the mouse: on an instance that holds the
    listeners of [setupListeners], [mousedown] and [touchstart] on the host
    set the two targets to their boosted values ([options.fovSpeedUp],
    [options.speedUp]); [mouseup], [mouseout], [touchend] and [touchcancel]
    set them back to [options.fov] and 0; nothing else of the instance
    changes, and a press followed by a release leaves the targets at the
    baseline. *)
Theorem press_and_release (this : HyperspeedApp) (press release : EventType) :
  listeners this = registered ->
  In press [mousedown; touchstart] ->
  In release [mouseup; mouseout; touchend; touchcancel] ->
  let boosted :=
    set_speedUpTarget (Opt.speedUp (options this))
      (set_fovTarget (Opt.fovSpeedUp (options this)) this) in
  let baseline :=
    set_speedUpTarget 0 (set_fovTarget (Opt.fov (options this)) this) in
  dispatch container press this = (Normal tt, boosted)
  /\ dispatch container release this = (Normal tt, baseline)
  /\ dispatch container release boosted = (Normal tt, baseline).
Proof.
  intros Hl Hp Hr boosted baseline.
  assert (Hlb : listeners boosted = registered).
  { subst boosted. destruct this. exact Hl. }
  simpl in Hp, Hr.
  destruct Hp as [<- | [<- | []]];
    destruct Hr as [<- | [<- | [<- | [<- | []]]]];
    rewrite !(dispatch_registered container _ this Hl),
      (dispatch_registered container _ boosted Hlb);
    subst boosted baseline; destruct this; repeat split; reflexivity.
Qed.

Lemma press_and_release_witness :
  let this := constructor (page_800x600 1) defaultHyperspeedOptions in
  dispatch container touchstart this
  = (Normal tt, set_speedUpTarget 2 (set_fovTarget 150 this))
  /\ dispatch container touchcancel this
     = (Normal tt, set_speedUpTarget 0 (set_fovTarget 90 this))
  /\ dispatch container touchcancel
       (set_speedUpTarget 2 (set_fovTarget 150 this))
     = (Normal tt, set_speedUpTarget 0 (set_fovTarget 90 this)).
Proof.
  apply (press_and_release
           (constructor (page_800x600 1) defaultHyperspeedOptions)
           touchstart touchcancel).
  - reflexivity.
  - simpl. tauto.
  - simpl. tauto.
Defined.

Lemma resize_once_witness :
  let this :=
    layout 400 300 400 300
      (constructor (page_800x600 1) defaultHyperspeedOptions) in
  let s := snd (tick (/ 60) this) in
  needResize (canvas s) = false
  /\ resizes (calls (snd (tick (/ 60) s))) = resizes (calls s).
Proof.
  apply (resize_once_at_ratio_1 (/ 60) (/ 60)
           (layout 400 300 400 300
              (constructor (page_800x600 1) defaultHyperspeedOptions)));
    reflexivity.
Defined.

Lemma Iridescence_resize_witness :
  let s := Iridescence_resize
             {| ir_clientWidth := 0; ir_clientHeight := 0;
                ir_canvas_width := 300; ir_canvas_height := 150;
                has_program := true;
                uResolution := (Num 1, Num 1, Num 1) |} in
  (1 <= ir_canvas_width s)%Z /\ (1 <= ir_canvas_height s)%Z
  /\ uResolution s
     = (Num (IZR (ir_canvas_width s)), Num (IZR (ir_canvas_height s)),
        Num (IZR (ir_canvas_width s) / IZR (ir_canvas_height s))).
Proof.
  apply (Iridescence_resize_tolerant
           {| ir_clientWidth := 0; ir_clientHeight := 0;
              ir_canvas_width := 300; ir_canvas_height := 150;
              has_program := true;
              uResolution := (Num 1, Num 1, Num 1) |}).
  - reflexivity.
  - simpl. lia.
  - simpl. lia.
Defined.

End Events.

(* ================================================================= *)
(** * 15. More about the car lights *)
(* ================================================================= *)

Section CarLightsBuffers.

Local Open Scope R_scope.
Local Open Scope list_scope.

(** [random(base)] stays in its range, whichever way round the range is
    written. *)
Lemma random_of_range (b : base) (u : R) :
  0 <= u < 1 ->
  match b with
  | Between lo hi =>
      (lo <= hi -> lo <= random_of b u <= hi)
      /\ (hi <= lo -> hi <= random_of b u <= lo)
  | UpTo x =>
      (0 <= x -> 0 <= random_of b u <= x)
      /\ (x <= 0 -> x <= random_of b u <= 0)
  end.
Proof. intros Hu. destruct b; simpl; split; intros H; nra. Qed.

Lemma pickRandom_member (colors : list Color) (g : rng) :
  colors <> [] -> 0 <= g O < 1 ->
  exists c, In c colors /\ pickRandom colors g = (Normal (Some c), drop 1 g).
Proof.
  intros Hne Hu.
  assert (Hlen : (0 < List.length colors)%nat).
  { destruct colors; [congruence | simpl; lia]. }
  destruct (floor_index (g O) (List.length colors) Hu Hlen) as [Hlo Hhi].
  unfold pickRandom, Math_random, bind, ret.
  destruct (nth_error colors (Z.to_nat (floor (g O * INR (List.length colors)))))
    as [c|] eqn:E.
  - exists c. split; [now apply nth_error_In in E |].
    replace (floor (g O * INR (List.length colors)) <? 0)%Z with false
      by (symmetry; apply Z.ltb_ge; lia).
    reflexivity.
  - apply nth_error_None in E. lia.
Qed.

Lemma pickRandom_empty (g : rng) : pickRandom [] g = (Normal None, drop 1 g).
Proof.
  unfold pickRandom, Math_random, bind, ret. cbn [List.length INR].
  rewrite Rmult_0_r. unfold floor. rewrite ZfloorZ. reflexivity.
Qed.

(** One turn of the loop, with all that it appends. *)
Lemma init_pair_full (this : CarLights) (colors : list Color) (i : nat)
    (acc : buffers) (g : rng) :
  colors <> [] -> unit_draws g ->
  exists c,
    In c colors
    /\ init_pair this colors i acc g
       = (Normal {| b_aOffset := b_aOffset acc ++ pair_offsets this g i;
                    b_aMetrics := b_aMetrics acc ++ pair_metrics this g;
                    b_aColor := b_aColor acc ++ [c; c] |},
          drop 8 g).
Proof.
  intros Hne Hg.
  destruct (pickRandom_member colors (drop 7 g) Hne (Hg 7%nat))
    as (c & Hin & Hc).
  exists c. split; [exact Hin |].
  unfold init_pair, random, Math_random, bind, ret.
  change (fun n => g (S (S (S (S (S (S (S n)))))))) with (drop 7 g).
  rewrite Hc. reflexivity.
Qed.

Lemma init_pair_empty (this : CarLights) (i : nat) (acc : buffers) (g : rng) :
  fst (init_pair this [] i acc g) = Throw TypeError.
Proof.
  unfold init_pair, random, Math_random, bind, ret.
  change (fun n => g (S (S (S (S (S (S (S n)))))))) with (drop 7 g).
  rewrite pickRandom_empty. reflexivity.
Qed.

(** The loop, with the sizes of the three buffers and the colours. *)
Lemma init_loop_full (this : CarLights) (colors : list Color) (n : nat) :
  colors <> [] ->
  forall (i : nat) (acc : buffers) (g : rng),
  unit_draws g ->
  exists bufs g' cs,
    init_loop this colors n i acc g = (Normal bufs, g')
    /\ b_aOffset bufs = b_aOffset acc ++ loop_offsets this g n i
    /\ List.length (b_aMetrics bufs)
       = (List.length (b_aMetrics acc) + 6 * n)%nat
    /\ b_aColor bufs = b_aColor acc ++ cs
    /\ List.length cs = (2 * n)%nat
    /\ Forall (fun c => In c colors) cs.
Proof.
  intros Hne; induction n as [|n IH]; intros i acc g Hg.
  - exists acc, g, []. simpl. rewrite !app_nil_r. repeat split; auto; lia.
  - destruct (init_pair_full this colors i acc g Hne Hg) as (c & Hin & Hrun).
    destruct (IH (S i)
                {| b_aOffset := b_aOffset acc ++ pair_offsets this g i;
                   b_aMetrics := b_aMetrics acc ++ pair_metrics this g;
                   b_aColor := b_aColor acc ++ [c; c] |}
                (drop 8 g) (unit_draws_drop 8 g Hg))
      as (bufs & g' & cs & Hloop & Hoff & Hmet & Hcol & Hlen & Hall).
    exists bufs, g', (c :: c :: cs).
    cbn [b_aOffset b_aMetrics b_aColor] in *.
    split; [simpl; unfold bind at 1; rewrite Hrun; exact Hloop |].
    split; [rewrite Hoff; simpl; now rewrite <- app_assoc |].
    split; [rewrite Hmet, length_app; simpl; lia |].
    split; [rewrite Hcol, <- app_assoc; reflexivity |].
    split; [simpl; lia |].
    repeat constructor; assumption.
Qed.

(** X8: with a palette that is not empty, [CarLights.init] returns a
    geometry whose every instance has its full set of attributes: three
    offsets and three metrics for each of the [2 * lightPairsPerRoadWay]
    instances, one colour for each, every colour one of the palette; the
    time uniform starts at 0 and the travel length is [options.length]. *)
Theorem CarLights_buffers (this : CarLights) (g : rng) :
  cl_colors this <> VArray [] -> unit_draws g ->
  exists mesh g',
    CarLights_init this g = (Normal mesh, g')
    /\ instanceCount mesh
       = (2 * Opt.lightPairsPerRoadWay (cl_options this))%nat
    /\ List.length (aOffset mesh) = (3 * instanceCount mesh)%nat
    /\ List.length (aMetrics mesh) = (3 * instanceCount mesh)%nat
    /\ List.length (aColor mesh) = instanceCount mesh
    /\ Forall (fun c => In c (palette (cl_colors this))) (aColor mesh)
    /\ uTime mesh = 0
    /\ uTravelLength mesh = Opt.length (cl_options this).
Proof.
  intros Hc Hg.
  destruct (init_loop_full this _ (Opt.lightPairsPerRoadWay (cl_options this))
              (palette_nonempty _ Hc) O
              {| b_aOffset := []; b_aMetrics := []; b_aColor := [] |} g Hg)
    as (bufs & g' & cs & Hloop & Hoff & Hmet & Hcol & Hlen & Hall).
  cbn [b_aOffset b_aMetrics b_aColor List.length app Nat.add] in *.
  unfold CarLights_init, bind. cbv beta zeta. rewrite Hloop.
  eexists; eexists; split; [reflexivity |].
  cbn [instanceCount aOffset aMetrics aColor uTime uTravelLength].
  split; [lia |].
  split; [rewrite Hoff, loop_offsets_length; lia |].
  split; [rewrite Hmet; lia |].
  split; [rewrite Hcol, Hlen; lia |].
  split; [now rewrite Hcol |].
  split; reflexivity.
Qed.

Lemma CarLights_buffers_witness :
  exists mesh g',
    CarLights_init (rightCarLights defaultHyperspeedOptions) (fun _ => / 2)
    = (Normal mesh, g')
    /\ instanceCount mesh = 80%nat
    /\ List.length (aOffset mesh) = (3 * instanceCount mesh)%nat
    /\ List.length (aMetrics mesh) = (3 * instanceCount mesh)%nat
    /\ List.length (aColor mesh) = instanceCount mesh
    /\ Forall (fun c =>
                 In c (palette (cl_colors
                                  (rightCarLights defaultHyperspeedOptions))))
              (aColor mesh)
    /\ uTime mesh = 0
    /\ uTravelLength mesh = 400.
Proof.
  apply (CarLights_buffers (rightCarLights defaultHyperspeedOptions)
                           (fun _ => / 2)).
  - discriminate.
  - intros n. lra.
Defined.

(** X9: an empty palette is an error: with [colors] the empty array and at
    least one pair to build, [CarLights.init] throws a [TypeError] (at
    [color.r], the colour being [undefined]), whatever [Math.random()]
    returns; with no pair to build it returns an empty geometry. *)
Theorem CarLights_empty_palette (this : CarLights) (g : rng) :
  cl_colors this = VArray [] ->
  ((0 < Opt.lightPairsPerRoadWay (cl_options this))%nat ->
   fst (CarLights_init this g) = Throw TypeError)
  /\ (Opt.lightPairsPerRoadWay (cl_options this) = 0%nat ->
      exists mesh,
        CarLights_init this g = (Normal mesh, g)
        /\ instanceCount mesh = 0%nat /\ aOffset mesh = []
        /\ aMetrics mesh = [] /\ aColor mesh = []).
Proof.
  intros Hc. unfold CarLights_init, bind. cbv beta zeta. rewrite Hc.
  cbn [palette map]. split.
  - intros Hn.
    destruct (Opt.lightPairsPerRoadWay (cl_options this)) as [|n]; [lia |].
    cbn [init_loop]. unfold bind at 1.
    pose proof (init_pair_empty this O
                  {| b_aOffset := []; b_aMetrics := []; b_aColor := [] |} g)
      as He.
    destruct (init_pair this [] 0 _ g) as [[a|e] g0]; simpl in He;
      [discriminate | now inversion He].
  - intros ->. eexists. cbn [init_loop]. unfold ret.
    repeat split; reflexivity.
Qed.

Lemma CarLights_empty_palette_witness :
  fst (CarLights_init
         {| cl_options := defaultHyperspeedOptions;
            cl_colors := VArray [];
            cl_speed := Between 60 80;
            cl_fade := vec2 0 1 |} (fun _ => 0))
  = Throw TypeError.
Proof.
  apply (CarLights_empty_palette
           {| cl_options := defaultHyperspeedOptions;
              cl_colors := VArray [];
              cl_speed := Between 60 80;
              cl_fade := vec2 0 1 |} (fun _ => 0)).
  - reflexivity.
  - simpl. lia.
Defined.

(** The [k]-th six offsets of the loop are those of one turn, for some
    draws in [0, 1). *)
Lemma loop_offsets_block (this : CarLights) (n : nat) :
  forall (g : rng) (i k : nat),
  unit_draws g -> (k < n)%nat ->
  exists g',
    unit_draws g'
    /\ firstn 6 (skipn (6 * k) (loop_offsets this g n i))
       = pair_offsets this g' (i + k).
Proof.
  induction n as [|n IH]; intros g i k Hg Hk; [lia |].
  cbn [loop_offsets].
  destruct k as [|k].
  - exists g. split; [exact Hg |].
    rewrite Nat.add_0_r. reflexivity.
  - destruct (IH (drop 8 g) (S i) k (unit_draws_drop 8 g Hg) ltac:(lia))
      as (g' & Hg' & Hblock).
    exists g'. split; [exact Hg' |].
    replace (6 * S k)%nat with (6 + 6 * k)%nat by lia.
    replace (i + S k)%nat with (S i + k)%nat by lia.
    rewrite <- Hblock. reflexivity.
Qed.

(** X10: the two lights of a car are a pair: for every pair [k] that
    [CarLights.init] builds, the six offsets it pushes are
    [x1, y, z, x2, y, z]: the same height and the same depth for both
    lights, the left light not to the right of the right one, the two a car
    width apart (between the two bounds of [carWidthPercentage] times the
    lane width), and a depth between [-options.length] and 0. *)
Theorem CarLights_pairs (this : CarLights) (g : rng) (k : nat) (lo hi : R) :
  let o := cl_options this in
  let laneWidth := Opt.roadWidth o / IZR (Opt.lanesPerRoad o) in
  cl_colors this <> VArray [] -> unit_draws g ->
  (k < Opt.lightPairsPerRoadWay o)%nat ->
  0 <= Opt.roadWidth o -> (0 < Opt.lanesPerRoad o)%Z ->
  Opt.carWidthPercentage o = Between lo hi -> 0 <= lo <= hi ->
  0 <= Opt.length o ->
  exists mesh g' x1 x2 y z,
    CarLights_init this g = (Normal mesh, g')
    /\ firstn 6 (skipn (6 * k) (aOffset mesh)) = [x1; y; z; x2; y; z]
    /\ x1 <= x2
    /\ lo * laneWidth <= x2 - x1 <= hi * laneWidth
    /\ - Opt.length o <= z <= 0.
Proof.
  intros o laneWidth Hc Hg Hk Hrw Hlanes Hw Hlohi Hlen.
  destruct (CarLights_init_run this g Hc Hg) as (mesh & g' & Hrun & _ & Hoff).
  fold o in Hoff.
  destruct (loop_offsets_block this (Opt.lightPairsPerRoadWay o) g O k Hg Hk)
    as (g0 & Hg0 & Hblock).
  rewrite <- Hoff in Hblock.
  assert (Hlw : 0 <= laneWidth).
  { subst laneWidth. unfold Rdiv.
    assert (0 < / IZR (Opt.lanesPerRoad o))
      by (apply Rinv_0_lt_compat, IZR_lt; lia).
    nra. }
  pose proof (Hg0 3%nat) as Hu3. pose proof (Hg0 6%nat) as Hu6.
  unfold pair_offsets in Hblock. fold o in Hblock. fold laneWidth in Hblock.
  rewrite Hw in Hblock. cbn [random_of] in Hblock.
  do 6 eexists. split; [exact Hrun |]. split; [exact Hblock |].
  set (u := g0 3%nat) in *. set (v := g0 6%nat) in *.
  set (len := Opt.length o) in *.
  set (f := u * (hi - lo) + lo).
  assert (Hf : lo <= f <= hi) by (subst f; nra).
  assert (Hcw : lo * laneWidth <= f * laneWidth <= hi * laneWidth) by nra.
  assert (Hz : 0 <= v * len <= len) by nra.
  assert (Hcw0 : 0 <= f * laneWidth) by nra.
  repeat split; lra.
Qed.

Lemma CarLights_pairs_witness :
  exists mesh g' x1 x2 y z,
    CarLights_init (leftCarLights defaultHyperspeedOptions) (fun _ => / 2)
    = (Normal mesh, g')
    /\ firstn 6 (skipn (6 * 39) (aOffset mesh)) = [x1; y; z; x2; y; z]
    /\ x1 <= x2
    /\ 0.3 * (10 / 4) <= x2 - x1 <= 0.5 * (10 / 4)
    /\ - 400 <= z <= 0.
Proof.
  apply (CarLights_pairs (leftCarLights defaultHyperspeedOptions)
                         (fun _ => / 2) 39 0.3 0.5).
  - discriminate.
  - intros n. lra.
  - simpl. lia.
  - simpl. lra.
  - simpl. lia.
  - reflexivity.
  - lra.
  - simpl. lra.
Defined.

End CarLightsBuffers.

(* ================================================================= *)
(** * 16. More about the resolver and the colours *)
(* ================================================================= *)

Section HexColours.

Local Open Scope R_scope.
Local Open Scope string_scope.

(** A character that is a hex digit is no white space, no sign and no
    [x]. *)
Lemma hex_digit_plain (c : ascii) (d : Z) :
  hex_digit_of c = Some d ->
  (0 <= d <= 15)%Z /\ is_space c = false /\ (code c < 194)%Z
  /\ (forall r, read_sign (String c r) = (false, String c r))
  /\ c <> "x"%char /\ c <> "X"%char.
Proof.
  destruct c as [[] [] [] [] [] [] [] []]; vm_compute; intros H;
    try discriminate H; injection H as <-;
    repeat split; intros; congruence.
Qed.

Lemma not_0x (c1 c2 : ascii) (r : string) :
  c2 <> "x"%char -> c2 <> "X"%char ->
  startsWith (String c1 (String c2 r)) "0x"
  || startsWith (String c1 (String c2 r)) "0X" = false.
Proof.
  intros Hx HX. unfold startsWith. cbn [String.prefix].
  destruct (ascii_dec "0" c1); [| reflexivity].
  destruct (ascii_dec "x" c2); [congruence |].
  destruct (ascii_dec "X" c2); [congruence | reflexivity].
Qed.

(** [parseInt(text, 16)] of six hex digits is the number they write. *)
Lemma parseInt16_six (c1 c2 c3 c4 c5 c6 : ascii) (d1 d2 d3 d4 d5 d6 : Z) :
  hex_digit_of c1 = Some d1 -> hex_digit_of c2 = Some d2 ->
  hex_digit_of c3 = Some d3 -> hex_digit_of c4 = Some d4 ->
  hex_digit_of c5 = Some d5 -> hex_digit_of c6 = Some d6 ->
  parseInt16
    (String c1 (String c2 (String c3 (String c4 (String c5 (String c6 ""))))))
  = Num (IZR ((16 * d1 + d2) * 65536 + (16 * d3 + d4) * 256
              + (16 * d5 + d6))).
Proof.
  intros H1 H2 H3 H4 H5 H6.
  destruct (hex_digit_plain c1 d1 H1) as (_ & Hs & Hc & Hsign & _).
  destruct (hex_digit_plain c2 d2 H2) as (_ & _ & _ & _ & Hx & HX).
  unfold parseInt16.
  rewrite trimStart_head by assumption.
  rewrite Hsign, not_0x by assumption.
  cbn [span_digits]. rewrite H1, H2, H3, H4, H5, H6.
  cbn [digits_value fold_left]. do 2 f_equal. ring.
Qed.

Lemma three_bytes (r g b : Z) :
  (0 <= r <= 255)%Z -> (0 <= g <= 255)%Z -> (0 <= b <= 255)%Z ->
  let v := (r * 65536 + g * 256 + b)%Z in
  Z.land (Z.shiftr v 16) 255 = r /\ Z.land (Z.shiftr v 8) 255 = g
  /\ Z.land v 255 = b.
Proof.
  intros Hr Hg Hb v. subst v.
  change 255%Z with (Z.ones 8).
  rewrite !Z.land_ones, !Z.shiftr_div_pow2 by lia.
  change (2 ^ 16)%Z with 65536%Z. change (2 ^ 8)%Z with 256%Z.
  repeat split; Z.div_mod_to_equations; lia.
Qed.

(** X11: a colour written as six hex digits is read back as its three
    bytes: for every six characters that are hex digits, in either case,
    [hexToColor] of [#] and the six, and of [0x] and the six, is the colour
    whose red, green and blue are the values of the three pairs of digits
    over 255. *)
Theorem hexToColor_bytes (c1 c2 c3 c4 c5 c6 : ascii)
    (d1 d2 d3 d4 d5 d6 : Z) :
  hex_digit_of c1 = Some d1 -> hex_digit_of c2 = Some d2 ->
  hex_digit_of c3 = Some d3 -> hex_digit_of c4 = Some d4 ->
  hex_digit_of c5 = Some d5 -> hex_digit_of c6 = Some d6 ->
  let digits :=
    String c1 (String c2 (String c3 (String c4 (String c5 (String c6 "")))))
  in
  let colour := RGB (IZR (16 * d1 + d2) / 255) (IZR (16 * d3 + d4) / 255)
                    (IZR (16 * d5 + d6) / 255) in
  hexToColor (VString (String "#" digits)) = colour
  /\ hexToColor (VString (String "0" (String "x" digits))) = colour.
Proof.
  intros H1 H2 H3 H4 H5 H6 digits colour.
  assert (Hrange : forall c d, hex_digit_of c = Some d -> (0 <= d <= 15)%Z)
    by (intros c d H; apply (hex_digit_plain c d H)).
  pose proof (Hrange _ _ H1). pose proof (Hrange _ _ H2).
  pose proof (Hrange _ _ H3). pose proof (Hrange _ _ H4).
  pose proof (Hrange _ _ H5). pose proof (Hrange _ _ H6).
  destruct (three_bytes (16 * d1 + d2) (16 * d3 + d4) (16 * d5 + d6)
              ltac:(lia) ltac:(lia) ltac:(lia)) as (Hr & Hg & Hb).
  rewrite hexToColor_hash, hexToColor_0x. subst digits.
  rewrite (parseInt16_six _ _ _ _ _ _ _ _ _ _ _ _ H1 H2 H3 H4 H5 H6).
  unfold THREE_Color. rewrite setHex_integer, Hr, Hg, Hb.
  split; reflexivity.
Qed.

Lemma hexToColor_bytes_witness :
  hexToColor (VString "#D856bf")
  = RGB (IZR (16 * 13 + 8) / 255) (IZR (16 * 5 + 6) / 255)
        (IZR (16 * 11 + 15) / 255)
  /\ hexToColor (VString "0xD856bf")
     = RGB (IZR (16 * 13 + 8) / 255) (IZR (16 * 5 + 6) / 255)
           (IZR (16 * 11 + 15) / 255).
Proof.
  apply (hexToColor_bytes "D" "8" "5" "6" "b" "f" 13 8 5 6 11 15);
    reflexivity.
Defined.

(** *** The two keys of the line colours *)

Lemma parseFloat_0x (h : string) :
  parseFloat (String "0" (String "x" h)) = Num (MV (Decimal false 0 0)).
Proof.
  unfold parseFloat.
  rewrite trimStart_head by (vm_compute; congruence).
  reflexivity.
Qed.

Lemma parseFloat_hash (h : string) : parseFloat (String "#" h) = NaN.
Proof.
  unfold parseFloat.
  rewrite trimStart_head by (vm_compute; congruence).
  reflexivity.
Qed.

Lemma MV_zero : MV (Decimal false 0 0) = 0.
Proof. unfold MV; simpl. lra. Qed.

Lemma setHex_zero : setHex (Num 0) = RGB 0 0 0.
Proof.
  rewrite (setHex_integer 0).
  change (Z.land (Z.shiftr 0 16) 255) with 0%Z.
  change (Z.land (Z.shiftr 0 8) 255) with 0%Z.
  change (Z.land 0 255) with 0%Z.
  f_equal; lra.
Qed.

(** X12: a declared colour of the road lines is lost: the keys
    [data-shoulder-lines] and [data-broken-lines] contain [lines], which
    the numeric test of [parseData] matches before the colour test, so the
    declared text always goes through [parseFloat] and never reaches the
    options as text.  A colour written [0x...] resolves to the number 0 and
    one written [#...] to [NaN], and [hexToColor] makes black of both. *)
Theorem line_colours_lost (el : element) (key h : string) (d : value) :
  key = "data-shoulder-lines" \/ key = "data-broken-lines" ->
  (forall s, getAttribute el key = Some s ->
             parseData el key d = Normal (VNumber (parseFloat s)))
  /\ (getAttribute el key = Some (String "0" (String "x" h)) ->
      parseData el key d = Normal (VNumber (Num 0)))
  /\ (getAttribute el key = Some (String "#" h) ->
      parseData el key d = Normal (VNumber NaN))
  /\ hexToColor (VNumber (Num 0)) = RGB 0 0 0
  /\ hexToColor (VNumber NaN) = RGB 0 0 0.
Proof.
  intros Hkey.
  assert (Hnum : numeric_key key = true)
    by (destruct Hkey as [-> | ->]; reflexivity).
  split; [intros s Hs; now apply parseData_numeric |].
  split.
  { intros Hs. rewrite (parseData_numeric _ _ _ _ Hs Hnum).
    now rewrite parseFloat_0x, MV_zero. }
  split.
  { intros Hs. rewrite (parseData_numeric _ _ _ _ Hs Hnum).
    now rewrite parseFloat_hash. }
  split; [apply setHex_zero | reflexivity].
Qed.

Lemma line_colours_lost_witness :
  parseData [("data-broken-lines", "0xFF0000")] "data-broken-lines"
            (VString "0xFFFFFF")
  = Normal (VNumber (Num 0)).
Proof.
  apply (line_colours_lost [("data-broken-lines", "0xFF0000")]
           "data-broken-lines" "FF0000" (VString "0xFFFFFF")).
  - now right.
  - reflexivity.
Defined.

End HexColours.

(* ================================================================= *)
(** * 17. The road, the light sticks and the pointer *)
(* ================================================================= *)

Section Scene.

Local Open Scope R_scope.
Local Open Scope list_scope.

(** X13: the scene is laid out without gap or overlap: the island is
    centred on the axis, each road way touches it along one edge, all three
    planes reach from the camera's end of the road ([z = 0]) to
    [-options.length]; each set of car lights is centred on its road way
    and the light sticks stand on the outer edge of the left one; and with
    four lanes the centre of every lane, in the coordinates of the scene,
    is on its road way. *)
Theorem scene_layout (options : Opt.t) (i : nat) :
  Opt.lanesPerRoad options = 4%Z -> 0 <= Opt.roadWidth options ->
  let scene := initSceneObjects options in
  let l := leftRoadWay (road scene) in
  let r := rightRoadWay (road scene) in
  let m := island (road scene) in
  (left_edge m = - Opt.islandWidth options / 2
   /\ right_edge m = Opt.islandWidth options / 2)
  /\ (right_edge l = left_edge m /\ right_edge m = left_edge r)
  /\ (plane_width l = Opt.roadWidth options
      /\ plane_width r = Opt.roadWidth options)
  /\ Forall (fun p => position_z p + plane_height p / 2 = 0
                      /\ position_z p - plane_height p / 2
                         = - Opt.length options) [l; m; r]
  /\ (leftCarLights_x scene = position_x l
      /\ rightCarLights_x scene = position_x r
      /\ leftSticks_x scene = left_edge l)
  /\ left_edge l <= leftCarLights_x scene + laneCentre options i
     <= right_edge l
  /\ left_edge r <= rightCarLights_x scene + laneCentre options i
     <= right_edge r.
Proof.
  intros H4 Hrw scene l r m.
  pose proof (laneCentre_in_road options i H4 Hrw) as Hlane.
  cbv zeta in Hlane.
  subst scene l r m.
  unfold left_edge, right_edge, initSceneObjects, Road_init, createPlane.
  cbn [road leftRoadWay rightRoadWay island position_x position_z
       plane_width plane_height leftCarLights_x rightCarLights_x
       leftSticks_x].
  repeat split; try lra.
  repeat (apply Forall_cons;
          [cbn [position_z plane_height]; split; lra |]).
  apply Forall_nil.
Qed.

Lemma scene_layout_witness :
  let scene := initSceneObjects defaultHyperspeedOptions in
  let l := leftRoadWay (road scene) in
  let r := rightRoadWay (road scene) in
  let m := island (road scene) in
  (left_edge m = - 2 / 2 /\ right_edge m = 2 / 2)
  /\ (right_edge l = left_edge m /\ right_edge m = left_edge r)
  /\ (plane_width l = 10 /\ plane_width r = 10)
  /\ Forall (fun p => position_z p + plane_height p / 2 = 0
                      /\ position_z p - plane_height p / 2 = - 400)
            [l; m; r]
  /\ (leftCarLights_x scene = position_x l
      /\ rightCarLights_x scene = position_x r
      /\ leftSticks_x scene = left_edge l)
  /\ left_edge l
     <= leftCarLights_x scene + laneCentre defaultHyperspeedOptions 7
     <= right_edge l
  /\ left_edge r
     <= rightCarLights_x scene + laneCentre defaultHyperspeedOptions 7
     <= right_edge r.
Proof.
  apply (scene_layout defaultHyperspeedOptions 7).
  - reflexivity.
  - simpl. lra.
Defined.

(** *** Light sticks *)

Lemma stick_turn_run (this : LightsSticks) (colors : list Color) (i : nat)
    (acc : buffers) (g : rng) :
  colors <> [] -> unit_draws g ->
  exists w h c,
    In c colors
    /\ stick_turn this colors i acc g
       = (Normal {| b_aOffset :=
                      b_aOffset acc
                      ++ [(INR i - 1) * stickoffset (ls_options this) * 2
                          + stickoffset (ls_options this) * g 2%nat];
                    b_aMetrics := b_aMetrics acc ++ [w; h];
                    b_aColor := b_aColor acc ++ [c] |},
          drop 4 g).
Proof.
  intros Hne Hg.
  destruct (pickRandom_member colors (drop 3 g) Hne (Hg 3%nat))
    as (c & Hin & Hc).
  do 2 eexists. exists c. split; [exact Hin |].
  unfold stick_turn, random, Math_random, bind, ret.
  change (fun n => g (S (S (S n)))) with (drop 3 g).
  rewrite Hc. reflexivity.
Qed.

Lemma stick_loop_run (this : LightsSticks) (colors : list Color) (n : nat) :
  colors <> [] ->
  forall (i : nat) (acc : buffers) (g : rng),
  unit_draws g ->
  exists bufs g',
    stick_loop this colors n i acc g = (Normal bufs, g')
    /\ b_aOffset bufs = b_aOffset acc ++ stick_offsets this g n i
    /\ List.length (b_aMetrics bufs)
       = (List.length (b_aMetrics acc) + 2 * n)%nat
    /\ List.length (b_aColor bufs) = (List.length (b_aColor acc) + n)%nat.
Proof.
  intros Hne; induction n as [|n IH]; intros i acc g Hg.
  - exists acc, g. simpl. rewrite app_nil_r. repeat split; auto; lia.
  - destruct (stick_turn_run this colors i acc g Hne Hg)
      as (w & h & c & _ & Hrun).
    destruct (IH (S i)
                {| b_aOffset :=
                     b_aOffset acc
                     ++ [(INR i - 1) * stickoffset (ls_options this) * 2
                         + stickoffset (ls_options this) * g 2%nat];
                   b_aMetrics := b_aMetrics acc ++ [w; h];
                   b_aColor := b_aColor acc ++ [c] |}
                (drop 4 g) (unit_draws_drop 4 g Hg))
      as (bufs & g' & Hloop & Hoff & Hmet & Hcol).
    exists bufs, g'.
    cbn [b_aOffset b_aMetrics b_aColor] in *.
    split; [simpl; unfold bind at 1; rewrite Hrun; exact Hloop |].
    split; [rewrite Hoff; cbn [stick_offsets]; now rewrite <- app_assoc |].
    split; [rewrite Hmet, length_app; simpl; lia |].
    rewrite Hcol, length_app; simpl; lia.
Qed.

Lemma stick_offsets_length (this : LightsSticks) (n : nat) :
  forall g i, List.length (stick_offsets this g n i) = n.
Proof.
  induction n as [|n IH]; intros g i; simpl; [reflexivity | now rewrite IH].
Qed.

(** The offset of stick [i + k] is within one [stickoffset] above
    [2 * (i + k - 1)] of them. *)
Lemma stick_offsets_nth (this : LightsSticks) (n : nat) :
  forall (g : rng) (i k : nat),
  unit_draws g -> (k < n)%nat ->
  0 <= stickoffset (ls_options this) ->
  let so := stickoffset (ls_options this) in
  (INR (i + k) - 1) * so * 2
  <= nth k (stick_offsets this g n i) 0
  <= (INR (i + k) - 1) * so * 2 + so.
Proof.
  induction n as [|n IH]; intros g i k Hg Hk Hso so; [lia |].
  destruct k as [|k].
  - rewrite Nat.add_0_r. cbn [stick_offsets nth]. subst so.
    pose proof (Hg 2%nat) as Hu.
    assert (0 <= stickoffset (ls_options this) * g 2%nat
            <= stickoffset (ls_options this)) by (split; nra).
    lra.
  - cbn [stick_offsets nth].
    replace (i + S k)%nat with (S i + k)%nat by lia.
    apply IH; [now apply unit_draws_drop | lia | exact Hso].
Qed.

(** X14: the light sticks stand in order along the road: with at least
    two sticks, a length that is not negative and a palette that is not
    empty, [LightsSticks.init] returns one offset, two metrics and one
    colour for each of the [totalSideLightSticks] instances; the offset of
    stick [k] lies within one [stickoffset] above [2 * (k - 1)] of them, so
    that every stick is further along than the one before it, by one
    [stickoffset] at least and three at most. *)
Theorem LightsSticks_spacing (this : LightsSticks) (g : rng) (k : nat) :
  let o := ls_options this in
  let so := stickoffset o in
  Opt.sticks (Opt.colours o) <> VArray [] -> unit_draws g ->
  (2 <= Opt.totalSideLightSticks o)%nat -> 0 <= Opt.length o ->
  (S k < Opt.totalSideLightSticks o)%nat ->
  exists mesh g',
    LightsSticks_init this g = (Normal mesh, g')
    /\ st_instanceCount mesh = Opt.totalSideLightSticks o
    /\ List.length (st_aOffset mesh) = st_instanceCount mesh
    /\ List.length (st_aMetrics mesh) = (2 * st_instanceCount mesh)%nat
    /\ List.length (st_aColor mesh) = st_instanceCount mesh
    /\ 0 <= so
    /\ (INR k - 1) * so * 2 <= nth k (st_aOffset mesh) 0
       <= (INR k - 1) * so * 2 + so
    /\ so <= nth (S k) (st_aOffset mesh) 0 - nth k (st_aOffset mesh) 0
       <= 3 * so.
Proof.
  intros o so Hcol Hg Htotal Hlen Hk.
  destruct (stick_loop_run this _ (Opt.totalSideLightSticks o)
              (palette_nonempty _ Hcol) O
              {| b_aOffset := []; b_aMetrics := []; b_aColor := [] |} g Hg)
    as (bufs & g' & Hloop & Hoff & Hmet & Hc).
  cbn [b_aOffset b_aMetrics b_aColor List.length app Nat.add] in *.
  assert (Hso : 0 <= so).
  { subst so. unfold stickoffset. fold o.
    assert (2 <= INR (Opt.totalSideLightSticks o))
      by (apply (le_INR 2); exact Htotal).
    unfold Rdiv.
    assert (0 < / (INR (Opt.totalSideLightSticks o) - 1))
      by (apply Rinv_0_lt_compat; lra).
    nra. }
  pose proof (stick_offsets_nth this (Opt.totalSideLightSticks o) g O k Hg
                ltac:(lia) Hso) as Hk0.
  pose proof (stick_offsets_nth this (Opt.totalSideLightSticks o) g O (S k) Hg
                Hk Hso) as Hk1.
  cbv zeta in Hk0, Hk1. cbn [Nat.add] in Hk0, Hk1. fold o so in Hk0, Hk1.
  rewrite S_INR in Hk1.
  unfold LightsSticks_init, bind. cbv beta zeta. fold o. rewrite Hloop.
  eexists; eexists; split; [reflexivity |].
  cbn [st_instanceCount st_aOffset st_aMetrics st_aColor].
  rewrite Hoff.
  split; [reflexivity |].
  split; [apply stick_offsets_length |].
  split; [rewrite Hmet; lia |].
  split; [rewrite Hc; lia |].
  split; [exact Hso |].
  split; [exact Hk0 |].
  lra.
Qed.

Lemma LightsSticks_spacing_witness :
  let this := {| ls_options := defaultHyperspeedOptions;
                 lightStickWidth := Between 0.12 0.5;
                 lightStickHeight := Between 1.3 1.7 |} in
  let so := stickoffset defaultHyperspeedOptions in
  exists mesh g',
    LightsSticks_init this (fun _ => / 2) = (Normal mesh, g')
    /\ st_instanceCount mesh = 20%nat
    /\ List.length (st_aOffset mesh) = st_instanceCount mesh
    /\ List.length (st_aMetrics mesh) = (2 * st_instanceCount mesh)%nat
    /\ List.length (st_aColor mesh) = st_instanceCount mesh
    /\ 0 <= so
    /\ (INR 0 - 1) * so * 2 <= nth 0 (st_aOffset mesh) 0
       <= (INR 0 - 1) * so * 2 + so
    /\ so <= nth 1 (st_aOffset mesh) 0 - nth 0 (st_aOffset mesh) 0
       <= 3 * so.
Proof.
  apply (LightsSticks_spacing
           {| ls_options := defaultHyperspeedOptions;
              lightStickWidth := Between 0.12 0.5;
              lightStickHeight := Between 1.3 1.7 |} (fun _ => / 2) 0).
  - discriminate.
  - intros n. lra.
  - simpl. lia.
  - simpl. lra.
  - simpl. lia.
Defined.

(** *** The pointer *)

(** X15: the pointer of the Iridescence effect is normalised without a
    division by zero: for a host rectangle whose sizes are not negative
    (even 0) and a pointer inside it, both coordinates that [onPointerMove]
    stores lie in [0, 1]; when the rectangle is one pixel or more each way,
    its top left corner gives (0, 1) and its bottom right corner (1, 0):
    the vertical axis is flipped. *)
Theorem pointer_normalised (rect : DOMRect) (clientX clientY : R) :
  0 <= rect_width rect -> 0 <= rect_height rect ->
  rect_left rect <= clientX <= rect_left rect + rect_width rect ->
  rect_top rect <= clientY <= rect_top rect + rect_height rect ->
  (0 <= fst (onPointerMove rect clientX clientY) <= 1
   /\ 0 <= snd (onPointerMove rect clientX clientY) <= 1)
  /\ (1 <= rect_width rect -> 1 <= rect_height rect ->
      onPointerMove rect (rect_left rect) (rect_top rect) = (0, 1)
      /\ onPointerMove rect (rect_left rect + rect_width rect)
                       (rect_top rect + rect_height rect) = (1, 0)).
Proof.
  intros Hw Hh Hx Hy.
  assert (Hdiv : forall a m, 0 <= a <= m -> 0 <= a / Rmax m 1 <= 1).
  { intros a m Ha.
    assert (Hm : 1 <= Rmax m 1) by apply Rmax_r.
    assert (Hm' : m <= Rmax m 1) by apply Rmax_l.
    assert (0 < / Rmax m 1) by (apply Rinv_0_lt_compat; lra).
    assert (Rmax m 1 * / Rmax m 1 = 1) by (apply Rinv_r; lra).
    unfold Rdiv. split; nra. }
  unfold onPointerMove; cbn [fst snd]. split.
  - pose proof (Hdiv (clientX - rect_left rect) (rect_width rect)
                  ltac:(lra)).
    pose proof (Hdiv (clientY - rect_top rect) (rect_height rect)
                  ltac:(lra)).
    lra.
  - intros Hw1 Hh1.
    rewrite !Rmax_left by lra.
    assert (H0 : forall a w, 1 <= w -> (a - a) / w = 0)
      by (intros; field; lra).
    assert (H1 : forall a w, 1 <= w -> (a + w - a) / w = 1)
      by (intros; field; lra).
    rewrite !H0, !H1 by assumption.
    split; f_equal; lra.
Qed.

Lemma pointer_normalised_witness :
  let rect := {| rect_left := 10; rect_top := 20;
                 rect_width := 0; rect_height := 0 |} in
  0 <= fst (onPointerMove rect 10 20) <= 1
  /\ 0 <= snd (onPointerMove rect 10 20) <= 1.
Proof.
  apply (pointer_normalised
           {| rect_left := 10; rect_top := 20;
              rect_width := 0; rect_height := 0 |} 10 20);
    simpl; lra.
Defined.

End Scene.

(* ================================================================= *)
(** * 18. The scan of the page *)
(* ================================================================= *)

Section Scan.

Local Open Scope string_scope.
Local Open Scope list_scope.

Lemma option_eq_dec_string (a b : option string) : {a = b} + {a <> b}.
Proof. decide equality. apply string_dec. Qed.

Ltac resolve_next :=
  match goal with
  | |- context [parseData ?c ?k ?d] =>
      let v := fresh "v" in
      destruct (parseData_returns c k d) as [v ->]; cbn [cbind]
  end.

Ltac absent_next H :=
  match goal with
  | |- context [parseData ?c ?k ?d] =>
      rewrite (parseData_absent c k d)
        by (apply H; unfold scanned_keys; simpl; tauto);
      cbn [cbind]
  end.

Lemma iridescence_options_returns (container : element) :
  exists o, iridescence_options container = Normal o.
Proof. unfold iridescence_options. repeat resolve_next. eauto. Qed.

Lemma hyperspeed_options_returns (container : element) :
  exists o, hyperspeed_options container = Normal o.
Proof. unfold hyperspeed_options. repeat resolve_next. eauto. Qed.

Lemma options_default (container : element) :
  (forall k, In k scanned_keys -> getAttribute container k = None) ->
  iridescence_options container = Normal default_iridescence
  /\ hyperspeed_options container = Normal default_hyperspeed.
Proof.
  intros Hnone. split.
  - unfold iridescence_options. repeat absent_next Hnone. reflexivity.
  - unfold hyperspeed_options. repeat absent_next Hnone. reflexivity.
Qed.

(** X16: the scan of a container throws only what the constructor of its
    effect throws.  Resolving the options never throws, whatever the page
    declares; a container whose [data-effect] is exactly [iridescence] or
    [hyperspeed] has its resolved options handed to the constructor of that
    effect, and the scan returns or throws as that constructor does; any
    other container is passed over.  For a container that declares no
    parameter the constructor receives the defaults written in the scan. *)
Theorem scan_containers
    (newIridescence : IridescenceOptions -> completion unit)
    (newHyperspeed : HyperspeedDeclared -> completion unit)
    (container : element) :
  let built (A : Type) (new : A -> completion unit) (kind : A -> Effect)
            (o : A) :=
    match new o with
    | Normal _ => Normal (Some (kind o))
    | Throw e => Throw e
    end in
  ((exists o, iridescence_options container = Normal o)
   /\ (exists o, hyperspeed_options container = Normal o))
  /\ (getAttribute container "data-effect" = Some "iridescence" ->
      exists o, iridescence_options container = Normal o
                /\ scan newIridescence newHyperspeed container
                   = built _ newIridescence Iridescence o)
  /\ (getAttribute container "data-effect" = Some "hyperspeed" ->
      exists o, hyperspeed_options container = Normal o
                /\ scan newIridescence newHyperspeed container
                   = built _ newHyperspeed Hyperspeed o)
  /\ (getAttribute container "data-effect" <> Some "iridescence" ->
      getAttribute container "data-effect" <> Some "hyperspeed" ->
      scan newIridescence newHyperspeed container = Normal None)
  /\ (forall e, scan newIridescence newHyperspeed container = Throw e ->
      (exists o, newIridescence o = Throw e)
      \/ (exists o, newHyperspeed o = Throw e))
  /\ ((forall k, In k scanned_keys -> getAttribute container k = None) ->
      (getAttribute container "data-effect" = Some "iridescence" ->
       scan newIridescence newHyperspeed container
       = built _ newIridescence Iridescence default_iridescence)
      /\ (getAttribute container "data-effect" = Some "hyperspeed" ->
          scan newIridescence newHyperspeed container
          = built _ newHyperspeed Hyperspeed default_hyperspeed)).
Proof.
  intros built.
  destruct (iridescence_options_returns container) as [oi Hoi].
  destruct (hyperspeed_options_returns container) as [oh Hoh].
  assert (Hi : getAttribute container "data-effect" = Some "iridescence" ->
               scan newIridescence newHyperspeed container
               = built _ newIridescence Iridescence oi).
  { intros He. unfold scan. rewrite He, Hoi.
    change ("iridescence" =? "iridescence") with true. cbv iota.
    subst built. cbn [cbind]. destruct (newIridescence oi); reflexivity. }
  assert (Hh : getAttribute container "data-effect" = Some "hyperspeed" ->
               scan newIridescence newHyperspeed container
               = built _ newHyperspeed Hyperspeed oh).
  { intros He. unfold scan. rewrite He, Hoh.
    change ("hyperspeed" =? "iridescence") with false.
    change ("hyperspeed" =? "hyperspeed") with true. cbv iota.
    subst built. cbn [cbind]. destruct (newHyperspeed oh); reflexivity. }
  assert (Hn : getAttribute container "data-effect" <> Some "iridescence" ->
               getAttribute container "data-effect" <> Some "hyperspeed" ->
               scan newIridescence newHyperspeed container = Normal None).
  { intros Hni Hnh. unfold scan.
    destruct (getAttribute container "data-effect") as [t|]; [| reflexivity].
    destruct (String.eqb_spec t "iridescence") as [-> | _]; [congruence |].
    destruct (String.eqb_spec t "hyperspeed") as [-> | _]; [congruence |].
    reflexivity. }
  split; [split; eauto |].
  split; [intros He; exists oi; split; [exact Hoi | now apply Hi] |].
  split; [intros He; exists oh; split; [exact Hoh | now apply Hh] |].
  split; [exact Hn |].
  split.
  { intros e Hthrow.
    destruct (option_eq_dec_string (getAttribute container "data-effect")
                (Some "iridescence")) as [He | Hni].
    - left. exists oi. rewrite (Hi He) in Hthrow. subst built.
      cbv beta in Hthrow. destruct (newIridescence oi); congruence.
    - destruct (option_eq_dec_string (getAttribute container "data-effect")
                  (Some "hyperspeed")) as [He | Hnh].
      + right. exists oh. rewrite (Hh He) in Hthrow. subst built.
        cbv beta in Hthrow. destruct (newHyperspeed oh); congruence.
      + rewrite (Hn Hni Hnh) in Hthrow. discriminate. }
  intros Hnone. destruct (options_default container Hnone) as [Hdi Hdh].
  split; intros He.
  - rewrite (Hi He). congruence.
  - rewrite (Hh He). congruence.
Qed.

(** An instance of [scan_containers]: a container that declares the
    Hyperspeed effect and nothing else, with constructors that return. *)
Lemma scan_containers_witness :
  scan (fun _ => Normal tt) (fun _ => Normal tt)
       [("data-effect", "hyperspeed")]
  = Normal (Some (Hyperspeed default_hyperspeed)).
Proof.
  apply (scan_containers (fun _ => Normal tt) (fun _ => Normal tt)
           [("data-effect", "hyperspeed")]).
  - intros k Hk. unfold scanned_keys in Hk. simpl in Hk.
    repeat (destruct Hk as [<- | Hk]; [reflexivity |]). contradiction.
  - reflexivity.
Defined.

(** *** The number of lanes *)

Lemma digits_text_end (ds : list Z) :
  (digits_text ds ++ "")%string = digits_text ds.
Proof. induction ds as [|d ds IH]; simpl; congruence. Qed.

Ltac by_digit d H :=
  destruct (digit_cases d H) as [-> | [-> | [-> | [-> | [-> | [-> | [-> |
    [-> | [-> | ->]]]]]]]]].

Lemma json_value_digit (d : Z) (r : string) (fuel : nat) :
  is_digit d ->
  json_value (S fuel) (String (digit_char d) r)
  = json_number (String (digit_char d) r).
Proof. intros H; by_digit d H; reflexivity. Qed.

Lemma span_digits_all (ds : list Z) :
  Forall is_digit ds -> span_digits digit_of (digits_text ds) = (ds, "").
Proof.
  intros H. rewrite <- (digits_text_end ds) at 1.
  now apply span_digits_text.
Qed.

(** A run of digits as a JSON number: rejected when it has a leading zero,
    and the number that it writes otherwise. *)
Lemma json_number_digits (d : Z) (ds : list Z) :
  is_digit d -> Forall is_digit ds ->
  json_number (digits_text (d :: ds))
  = match d, ds with
    | 0%Z, _ :: _ => None
    | _, _ =>
        Some (VNumber
                (Num (MV (Decimal false (digits_value 10 ((d :: ds) ++ []))
                                  (0 - Z.of_nat 0)))), "")
    end.
Proof.
  intros Hd Hds.
  pose proof (span_digits_all (d :: ds) (Forall_cons d Hd Hds)) as Hspan.
  unfold json_number.
  by_digit d Hd; cbn [digits_text] in *;
    match goal with
    | |- context [digit_char ?k] =>
        let c := eval vm_compute in (digit_char k) in
        change (digit_char k) with c in *
    end;
    cbv beta iota; rewrite Hspan; destruct ds; reflexivity.
Qed.

Lemma MV_natural (m : Z) : MV (Decimal false m (0 - Z.of_nat 0)) = IZR m.
Proof. unfold MV; simpl. lra. Qed.

(** X17: the number of lanes is read as JSON: the key
    [data-lanes-per-road] matches none of the name tests of [parseData],
    so a declared run of digits without a leading zero reaches the options
    as the number that it writes, whereas one with a leading zero (such as
    [04]) is rejected by [JSON.parse] and reaches them as the text. *)
Theorem lanes_declared (el : element) (d : Z) (ds : list Z) (dflt : value) :
  is_digit d -> Forall is_digit ds ->
  getAttribute el "data-lanes-per-road" = Some (digits_text (d :: ds)) ->
  (d <> 0%Z \/ ds = [] ->
   parseData el "data-lanes-per-road" dflt
   = Normal (VNumber (Num (IZR (digits_value 10 (d :: ds))))))
  /\ (d = 0%Z -> ds <> [] ->
      parseData el "data-lanes-per-road" dflt
      = Normal (VString (digits_text (d :: ds)))).
Proof.
  intros Hd Hds Hattr.
  rewrite (parseData_other el _ _ dflt Hattr eq_refl eq_refl eq_refl).
  unfold JSON_parse.
  replace (2 * String.length (digits_text (d :: ds)) + 2)%nat
    with (S (2 * String.length (digits_text (d :: ds)) + 1)) by lia.
  cbn [digits_text]. rewrite (json_value_digit d _ _ Hd).
  change (String (digit_char d) (digits_text ds))
    with (digits_text (d :: ds)).
  rewrite (json_number_digits d ds Hd Hds).
  split.
  - intros Hok. rewrite app_nil_r, MV_natural.
    destruct d; [destruct ds; [reflexivity | destruct Hok; congruence] | |];
      reflexivity.
  - intros -> Hne. destruct ds; [congruence | reflexivity].
Qed.

Lemma lanes_declared_witness :
  parseData [("data-lanes-per-road", "3")] "data-lanes-per-road"
            (VNumber (Num 4))
  = Normal (VNumber (Num (IZR (digits_value 10 [3%Z])))).
Proof.
  apply (lanes_declared [("data-lanes-per-road", "3")] 3 []
           (VNumber (Num 4))).
  - unfold is_digit; lia.
  - constructor.
  - reflexivity.
  - left; lia.
Defined.

End Scan.

(* ================================================================= *)
(** * 19. The first frame, and a page without the libraries *)
(* ================================================================= *)

Section Construction.

Local Open Scope R_scope.
Local Open Scope list_scope.

(** The loops of the two [init()], with the generator that they leave. *)
Lemma init_loop_draws (this : CarLights) (colors : list Color) (n : nat) :
  colors <> [] ->
  forall (i : nat) (acc : buffers) (g : rng),
  unit_draws g ->
  exists bufs g',
    init_loop this colors n i acc g = (Normal bufs, g') /\ unit_draws g'.
Proof.
  intros Hne; induction n as [|n IH]; intros i acc g Hg.
  - exists acc, g. split; [reflexivity | exact Hg].
  - destruct (init_pair_full this colors i acc g Hne Hg) as (c & _ & Hrun).
    destruct (IH (S i)
                {| b_aOffset := b_aOffset acc ++ pair_offsets this g i;
                   b_aMetrics := b_aMetrics acc ++ pair_metrics this g;
                   b_aColor := b_aColor acc ++ [c; c] |}
                (drop 8 g) (unit_draws_drop 8 g Hg))
      as (bufs & g' & Hloop & Hg').
    exists bufs, g'. split; [| exact Hg'].
    simpl. unfold bind at 1. rewrite Hrun. exact Hloop.
Qed.

Lemma stick_loop_draws (this : LightsSticks) (colors : list Color) (n : nat) :
  colors <> [] ->
  forall (i : nat) (acc : buffers) (g : rng),
  unit_draws g ->
  exists bufs g',
    stick_loop this colors n i acc g = (Normal bufs, g') /\ unit_draws g'.
Proof.
  intros Hne; induction n as [|n IH]; intros i acc g Hg.
  - exists acc, g. split; [reflexivity | exact Hg].
  - destruct (stick_turn_run this colors i acc g Hne Hg)
      as (w & h & c & _ & Hrun).
    destruct (IH (S i)
                {| b_aOffset :=
                     b_aOffset acc
                     ++ [(INR i - 1) * stickoffset (ls_options this) * 2
                         + stickoffset (ls_options this) * g 2%nat];
                   b_aMetrics := b_aMetrics acc ++ [w; h];
                   b_aColor := b_aColor acc ++ [c] |}
                (drop 4 g) (unit_draws_drop 4 g Hg))
      as (bufs & g' & Hloop & Hg').
    exists bufs, g'. split; [| exact Hg'].
    simpl. unfold bind at 1. rewrite Hrun. exact Hloop.
Qed.

Lemma CarLights_init_draws (this : CarLights) (g : rng) :
  cl_colors this <> VArray [] -> unit_draws g ->
  exists mesh g', CarLights_init this g = (Normal mesh, g') /\ unit_draws g'.
Proof.
  intros Hcol Hg.
  destruct (init_loop_draws this _ (Opt.lightPairsPerRoadWay (cl_options this))
              (palette_nonempty _ Hcol) O
              {| b_aOffset := []; b_aMetrics := []; b_aColor := [] |} g Hg)
    as (bufs & g' & Hloop & Hg').
  unfold CarLights_init, bind. cbv beta zeta. rewrite Hloop.
  eexists; eexists; split; [reflexivity | exact Hg'].
Qed.

Lemma CarLights_init_empty (this : CarLights) (g : rng) :
  cl_colors this = VArray [] ->
  (0 < Opt.lightPairsPerRoadWay (cl_options this))%nat ->
  exists g', CarLights_init this g = (Throw TypeError, g').
Proof.
  intros Hc Hn. unfold CarLights_init, bind. cbv beta zeta. rewrite Hc.
  cbn [palette map].
  destruct (Opt.lightPairsPerRoadWay (cl_options this)) as [|n]; [lia |].
  cbn [init_loop]. unfold bind at 1.
  pose proof (init_pair_empty this O
                {| b_aOffset := []; b_aMetrics := []; b_aColor := [] |} g)
    as He.
  destruct (init_pair this [] 0 _ g) as [[a|e] g0]; simpl in He;
    [discriminate |].
  inversion He; subst. eauto.
Qed.

Lemma LightsSticks_init_draws (this : LightsSticks) (g : rng) :
  Opt.sticks (Opt.colours (ls_options this)) <> VArray [] -> unit_draws g ->
  exists mesh g', LightsSticks_init this g = (Normal mesh, g').
Proof.
  intros Hcol Hg.
  destruct (stick_loop_draws this _
              (Opt.totalSideLightSticks (ls_options this))
              (palette_nonempty _ Hcol) O
              {| b_aOffset := []; b_aMetrics := []; b_aColor := [] |} g Hg)
    as (bufs & g' & Hloop & _).
  unfold LightsSticks_init, bind. cbv beta zeta. rewrite Hloop.
  eexists; eexists; reflexivity.
Qed.

(** With three palettes that are not empty [initSceneObjects()] returns. *)
Lemma initSceneObjects_returns (sticks : LightsSticks) (g : rng) :
  let colors := Opt.colours (ls_options sticks) in
  Opt.leftCars colors <> VArray [] -> Opt.rightCars colors <> VArray [] ->
  Opt.sticks colors <> VArray [] -> unit_draws g ->
  fst (initSceneObjects_run sticks g)
  = Normal (initSceneObjects (ls_options sticks)).
Proof.
  intros colors Hl Hr Hs Hg.
  destruct (CarLights_init_draws (leftCarLights (ls_options sticks)) g Hl Hg)
    as (m1 & g1 & H1 & Hg1).
  destruct (CarLights_init_draws (rightCarLights (ls_options sticks)) g1
              Hr Hg1) as (m2 & g2 & H2 & Hg2).
  destruct (LightsSticks_init_draws sticks g2 Hs Hg2) as (m3 & g3 & H3).
  unfold initSceneObjects_run, bind. cbv beta zeta.
  rewrite H1, H2, H3. reflexivity.
Qed.

(** With an empty palette for the cars on the left it throws. *)
Lemma initSceneObjects_throws (sticks : LightsSticks) (g : rng) :
  Opt.leftCars (Opt.colours (ls_options sticks)) = VArray [] ->
  (0 < Opt.lightPairsPerRoadWay (ls_options sticks))%nat ->
  fst (initSceneObjects_run sticks g) = Throw TypeError.
Proof.
  intros Hl Hn.
  destruct (CarLights_init_empty (leftCarLights (ls_options sticks)) g Hl Hn)
    as (g' & H1).
  unfold initSceneObjects_run, bind. cbv beta zeta.
  rewrite H1. reflexivity.
Qed.

(** The first frame of an instance that the constructor has set up. *)
Lemma first_frame (page : Page) (options : Opt.t) :
  libraries page = true ->
  let this := snd (tick 0 (constructor page options)) in
  fst (tick 0 (constructor page options)) = Normal tt
  /\ (constructed this = true /\ disposed this = false)
  /\ listeners this = registered
  /\ attached this = true
  /\ (exists before, calls this = before ++ [requestAnimationFrame])
  /\ (speedUp this = 0 /\ speedUpTarget this = 0)
  /\ (elapsedTime this = 0 /\ timeOffset this = 0)
  /\ (fov (camera this) = Opt.fov options
      /\ fovTarget this = Opt.fov options).
Proof.
  intros Hlib this. subst this.
  set (c := constructor page options).
  assert (Hc : constructed c = true /\ disposed c = false
               /\ listeners c = registered /\ attached c = true
               /\ speedUp c = 0 /\ speedUpTarget c = 0
               /\ elapsedTime c = 0 /\ timeOffset c = 0
               /\ fov (camera c) = Opt.fov options
               /\ fovTarget c = Opt.fov options).
  { subst c. unfold constructor. rewrite Hlib. repeat split. }
  destruct Hc as (Hc & Hd & Hl & Ha & Hs & Hst & He & Ht & Hf & Hft).
  destruct (tick_state 0 c Hc Hd) as (Hret & Hs' & Hst' & Hc' & Hd' & _).
  destruct (tick_motion 0 c Hc Hd)
    as (He' & Ht' & _ & Hf' & Hft' & _).
  destruct (tick_frame 0 c Hc Hd) as ((target & Hcalls) & _).
  pose proof (tick_listeners 0 c Hc Hd) as Hl'.
  cbv zeta in *.
  split; [exact Hret |]. split; [now split |].
  split; [now rewrite Hl' |].
  split.
  { clear -Hc Hd Ha. on_instance c. cbn [attached] in Ha. subst.
    unfold tick, bind, get. cbn [disposed]. exec.
    destruct (needResize _); exec;
      destruct (Req_dec_T _ 0); reflexivity. }
  split.
  { rewrite Hcalls. unfold frame_calls.
    eexists. rewrite app_assoc.
    change [composer_render 0; camera_lookAt target;
            camera_updateProjectionMatrix; requestAnimationFrame]
      with ([composer_render 0; camera_lookAt target;
             camera_updateProjectionMatrix] ++ [requestAnimationFrame]).
    rewrite app_assoc. reflexivity. }
  split.
  { split; [| now rewrite Hst'].
    rewrite Hs', Hs, Hst. rewrite lerp_at_target by lra. lra. }
  split; [split; [rewrite He', He; lra | rewrite Ht', Ht; lra] |].
  split; [rewrite Hf', Hf; lra | now rewrite Hft'].
Qed.

(** X20: [new HyperspeedApp(container, options)] on a page that has the
    libraries, with [Math.random()] in [0, 1).  When none of the three
    palettes (left cars, right cars, sticks) is an empty array, it returns a
    live instance after its first frame: the instance is not disposed, it
    holds the eight listeners of [setupListeners], its canvas is a child of
    the host and the next frame is requested last; the first frame, whose
    delta is 0, moves nothing: the speed-up and both clocks are 0 and the
    field of view is [options.fov], as is its target.  When the palette of
    the left cars is an empty array (as a page makes it that declares
    [data-left-cars="[]"]) and there is a pair of lights to build, the
    constructor throws a [TypeError] from [CarLights.init], after
    [setupListeners]: the canvas stays a child of the host and the eight
    listeners stay registered, while no frame is requested. *)
Theorem new_instance (page : Page) (sticks : LightsSticks) (g : rng) :
  let options := ls_options sticks in
  let colors := Opt.colours options in
  let built := HyperspeedApp_constructor page sticks g in
  libraries page = true -> unit_draws g ->
  (Opt.leftCars colors <> VArray [] -> Opt.rightCars colors <> VArray [] ->
   Opt.sticks colors <> VArray [] ->
   fst built = Normal tt
   /\ (constructed (snd built) = true /\ disposed (snd built) = false)
   /\ listeners (snd built) = registered
   /\ attached (snd built) = true
   /\ (exists before, calls (snd built) = before ++ [requestAnimationFrame])
   /\ (speedUp (snd built) = 0 /\ speedUpTarget (snd built) = 0)
   /\ (elapsedTime (snd built) = 0 /\ timeOffset (snd built) = 0)
   /\ (fov (camera (snd built)) = Opt.fov options
       /\ fovTarget (snd built) = Opt.fov options))
  /\ (Opt.leftCars colors = VArray [] ->
      (0 < Opt.lightPairsPerRoadWay options)%nat ->
      fst built = Throw TypeError
      /\ disposed (snd built) = false
      /\ listeners (snd built) = registered
      /\ attached (snd built) = true
      /\ ~ In requestAnimationFrame (calls (snd built)))
  /\ (forall (el : element) (d : value),
        getAttribute el "data-left-cars" = Some "[]"%string ->
        parseData el "data-left-cars" d = Normal (VArray [])).
Proof.
  intros options colors built Hlib Hg. subst built.
  unfold HyperspeedApp_constructor. rewrite Hlib. fold options.
  split; [| split].
  - intros Hl Hr Hs.
    rewrite (initSceneObjects_returns sticks g Hl Hr Hs Hg).
    exact (first_frame page options Hlib).
  - intros Hl Hn. rewrite (initSceneObjects_throws sticks g Hl Hn).
    cbn [fst snd]. unfold constructor. rewrite Hlib.
    cbn [disposed listeners attached calls].
    repeat split.
    unfold registered. cbn [map app In fst snd].
    intros H. repeat (destruct H as [H | H]; [discriminate H |]).
    exact H.
  - intros el d Hattr. unfold parseData. rewrite Hattr. reflexivity.
Qed.

Lemma new_instance_witness :
  (fst (HyperspeedApp_constructor (page_800x600 2)
          (default_sticks defaultHyperspeedOptions) (fun _ => / 2))
   = Normal tt
   /\ listeners (snd (HyperspeedApp_constructor (page_800x600 2)
                        (default_sticks defaultHyperspeedOptions)
                        (fun _ => / 2)))
      = registered)
  /\ (fst (HyperspeedApp_constructor (page_800x600 2)
             (default_sticks (with_leftCars (VArray [])
                                            defaultHyperspeedOptions))
             (fun _ => / 2))
      = Throw TypeError
      /\ listeners (snd (HyperspeedApp_constructor (page_800x600 2)
                           (default_sticks
                              (with_leftCars (VArray [])
                                             defaultHyperspeedOptions))
                           (fun _ => / 2)))
         = registered).
Proof.
  assert (Hg : unit_draws (fun _ => / 2)) by (intros n; lra).
  destruct (new_instance (page_800x600 2)
              (default_sticks defaultHyperspeedOptions) (fun _ => / 2)
              eq_refl Hg) as (Hlive & _).
  destruct (new_instance (page_800x600 2)
              (default_sticks (with_leftCars (VArray [])
                                             defaultHyperspeedOptions))
              (fun _ => / 2) eq_refl Hg) as (_ & Hthrow & _).
  split.
  - destruct Hlive as (Hret & _ & Hl & _);
      [discriminate | discriminate | discriminate |].
    split; assumption.
  - destruct Hthrow as (Hret & _ & Hl & _); [reflexivity | simpl; lia |].
    split; assumption.
Defined.

(** X21: on a page where the script has loaded but [POSTPROCESSING] has not,
    the constructor gives up quietly at its check of the libraries: it does
    not throw, calls nothing and registers no listener, so that no event
    reaches the instance; but the instance has no field, and a later
    [tick()] throws a [TypeError] at [renderer.domElement], as does a
    [dispose()] at [this.container], after it has set the flag.  (Without
    [THREE] the script does not load at all, and there is no constructor
    to call.) *)
Theorem missing_libraries (page : Page) (sticks : LightsSticks) (g : rng)
    (delta : R) (t : Target) (e : EventType) :
  libraries page = false ->
  let this := snd (HyperspeedApp_constructor page sticks g) in
  fst (HyperspeedApp_constructor page sticks g) = Normal tt
  /\ (calls this = [] /\ listeners this = [] /\ attached this = false)
  /\ dispatch t e this = (Normal tt, this)
  /\ tick delta this = (Throw TypeError, this)
  /\ fst (dispose this) = Throw TypeError
  /\ disposed (snd (dispose this)) = true
  /\ gpu_calls (calls (snd (dispose this))) = 0%nat.
Proof.
  intros Hlib this. subst this.
  unfold HyperspeedApp_constructor, constructor.
  rewrite Hlib. cbn [fst snd].
  repeat split.
Qed.

Lemma missing_libraries_witness :
  let page := {| libraries := false; devicePixelRatio := 1;
                 host_offsetWidth := 800; host_offsetHeight := 600;
                 host_clientWidth := 800; host_clientHeight := 600 |} in
  let this := snd (HyperspeedApp_constructor page
                     (default_sticks defaultHyperspeedOptions)
                     (fun _ => 0)) in
  fst (HyperspeedApp_constructor page
         (default_sticks defaultHyperspeedOptions) (fun _ => 0))
  = Normal tt
  /\ (calls this = [] /\ listeners this = [] /\ attached this = false)
  /\ dispatch window resize this = (Normal tt, this)
  /\ tick (/ 60) this = (Throw TypeError, this)
  /\ fst (dispose this) = Throw TypeError
  /\ disposed (snd (dispose this)) = true
  /\ gpu_calls (calls (snd (dispose this))) = 0%nat.
Proof.
  apply (missing_libraries
           {| libraries := false; devicePixelRatio := 1;
              host_offsetWidth := 800; host_offsetHeight := 600;
              host_clientWidth := 800; host_clientHeight := 600 |}
           (default_sticks defaultHyperspeedOptions) (fun _ => 0)
           (/ 60) window resize).
  reflexivity.
Defined.

End Construction.

(* ================================================================= *)
(** * 20. The looping scroller *)
(* ================================================================= *)

Section Scrolling.

Local Open Scope R_scope.

Ltac clamp :=
  unfold scrollLeft, scrollRight, scrollBy, scroll_to, scroll_end,
    scrollAmount, Rmax, Rmin in *;
  cbn [sc_scrollLeft sc_scrollWidth sc_clientWidth] in *;
  repeat match goal with
         | |- context [Rle_dec ?a ?b] => destruct (Rle_dec a b)
         | |- context [Rge_dec ?a ?b] => destruct (Rge_dec a b)
         | H : context [Rle_dec ?a ?b] |- _ => destruct (Rle_dec a b)
         end;
  cbn [sc_scrollLeft sc_scrollWidth sc_clientWidth] in *.

Lemma scrollRight_step (c : Scroller) :
  in_range c ->
  in_range (scrollRight c)
  /\ scroll_end (scrollRight c) = scroll_end c
  /\ (scroll_end c - 10 <= sc_scrollLeft c ->
      sc_scrollLeft (scrollRight c) = 0)
  /\ (sc_scrollLeft c < scroll_end c - 10 ->
      sc_scrollLeft (scrollRight c)
      = Rmin (sc_scrollLeft c + 200) (scroll_end c)).
Proof.
  unfold in_range. intros (Hw & Hp).
  repeat split; try intros H; clamp; lra.
Qed.

Lemma scrollLeft_step (c : Scroller) :
  in_range c ->
  in_range (scrollLeft c)
  /\ scroll_end (scrollLeft c) = scroll_end c
  /\ (sc_scrollLeft c = 0 -> sc_scrollLeft (scrollLeft c) = scroll_end c)
  /\ (0 < sc_scrollLeft c ->
      sc_scrollLeft (scrollLeft c) = Rmax 0 (sc_scrollLeft c - 200)).
Proof.
  unfold in_range. intros (Hw & Hp).
  repeat split; try intros H; clamp; lra.
Qed.

Lemma scrollRight_clicks (n : nat) :
  forall c : Scroller,
  in_range c ->
  scroll_end c - sc_scrollLeft c <= 10 + 200 * INR n ->
  exists k, (1 <= k <= S n)%nat
            /\ sc_scrollLeft (Nat.iter k scrollRight c) = 0.
Proof.
  induction n as [|n IH]; intros c Hc Hn.
  - exists 1%nat. split; [lia |]. simpl in *.
    apply (scrollRight_step c Hc). lra.
  - destruct (scrollRight_step c Hc) as (Hc' & He & Hwrap & Hmove).
    destruct (Rle_dec (scroll_end c - 10) (sc_scrollLeft c)) as [Hend | Hfar].
    + exists 1%nat. split; [lia |]. now apply Hwrap.
    + destruct (IH (scrollRight c) Hc') as (k & Hk & Hzero).
      { rewrite He, Hmove by lra. rewrite S_INR in Hn.
        assert (0 <= INR n) by apply pos_INR.
        unfold Rmin. destruct (Rle_dec _ _); lra. }
      exists (S k). split; [lia |].
      now rewrite Nat.iter_succ_r.
Qed.

Lemma scrollLeft_clicks (n : nat) :
  forall c : Scroller,
  in_range c ->
  sc_scrollLeft c <= 200 * INR n ->
  exists k, (1 <= k <= S n)%nat
            /\ sc_scrollLeft (Nat.iter k scrollLeft c) = scroll_end c.
Proof.
  induction n as [|n IH]; intros c Hc Hn.
  - exists 1%nat. split; [lia |]. simpl in *.
    apply (scrollLeft_step c Hc). unfold in_range in Hc. lra.
  - destruct (scrollLeft_step c Hc) as (Hc' & He & Hwrap & Hmove).
    destruct (Rle_dec (sc_scrollLeft c) 0) as [Hstart | Hfar].
    + exists 1%nat. split; [lia |]. apply Hwrap.
      unfold in_range in Hc. lra.
    + destruct (IH (scrollLeft c) Hc') as (k & Hk & Hlast).
      { rewrite Hmove by lra. rewrite S_INR in Hn.
        unfold Rmax. destruct (Rle_dec _ _); [lra |].
        assert (0 <= INR n) by apply pos_INR. lra. }
      exists (S k). split; [lia |].
      now rewrite Nat.iter_succ_r, Hlast, He.
Qed.

(** X22: the scroller loops and never leaves the content: for a container
    whose position is between the two ends, each of the two buttons leaves
    it between them; the left button at the beginning jumps to the end, the
    right button within 10 pixels of the end jumps to the beginning; and
    from anywhere, clicking the same button again and again (each click
    once the scroll before it has come to rest) comes round: the right
    button reaches the beginning within one click more than the 200-pixel
    steps that fit in the way to 10 pixels from the end, and the left
    button reaches the end within one click more than what fits in the way
    to the beginning. *)
Theorem scroller_loops (c : Scroller) (n : nat) :
  0 <= sc_clientWidth c <= sc_scrollWidth c ->
  0 <= sc_scrollLeft c <= scroll_end c ->
  (in_range (scrollLeft c) /\ in_range (scrollRight c))
  /\ (sc_scrollLeft c = 0 -> sc_scrollLeft (scrollLeft c) = scroll_end c)
  /\ (scroll_end c - 10 <= sc_scrollLeft c ->
      sc_scrollLeft (scrollRight c) = 0)
  /\ (scroll_end c - sc_scrollLeft c <= 10 + 200 * INR n ->
      exists k, (1 <= k <= S n)%nat
                /\ sc_scrollLeft (Nat.iter k scrollRight c) = 0)
  /\ (sc_scrollLeft c <= 200 * INR n ->
      exists k, (1 <= k <= S n)%nat
                /\ sc_scrollLeft (Nat.iter k scrollLeft c) = scroll_end c).
Proof.
  intros Hw Hp.
  assert (Hc : in_range c) by (split; assumption).
  split; [split; [apply (scrollLeft_step c Hc)
                 | apply (scrollRight_step c Hc)] |].
  split; [apply (scrollLeft_step c Hc) |].
  split; [apply (scrollRight_step c Hc) |].
  split; [now apply scrollRight_clicks | now apply scrollLeft_clicks].
Qed.

Lemma scroller_loops_witness :
  let c := {| sc_scrollLeft := 300; sc_scrollWidth := 1000;
              sc_clientWidth := 400 |} in
  (in_range (scrollLeft c) /\ in_range (scrollRight c))
  /\ (sc_scrollLeft c = 0 -> sc_scrollLeft (scrollLeft c) = scroll_end c)
  /\ (scroll_end c - 10 <= sc_scrollLeft c ->
      sc_scrollLeft (scrollRight c) = 0)
  /\ (scroll_end c - sc_scrollLeft c <= 10 + 200 * INR 2 ->
      exists k, (1 <= k <= 3)%nat
                /\ sc_scrollLeft (Nat.iter k scrollRight c) = 0)
  /\ (sc_scrollLeft c <= 200 * INR 2 ->
      exists k, (1 <= k <= 3)%nat
                /\ sc_scrollLeft (Nat.iter k scrollLeft c) = scroll_end c).
Proof.
  apply (scroller_loops {| sc_scrollLeft := 300; sc_scrollWidth := 1000;
                           sc_clientWidth := 400 |} 2).
  - simpl. lra.
  - unfold scroll_end. simpl. lra.
Defined.

End Scrolling.
